(** * Order admission and tracking dispatch of the storefront back end

    A shallow embedding of the two edge functions
    [supabase/functions/create-order/index.ts] and
    [supabase/functions/meta-server-events/index.ts].

    The data store is a record of tables, each table the list of its rows in
    the order in which a query without ORDER BY hands them back.  A handler
    is a function from the things it reads (environment, headers, body,
    store) to the store it leaves behind, the HTTP response and the outbound
    calls it fires.  A string is held as the bytes of its UTF-8 encoding.
    Instants are milliseconds since the epoch ([Date.getTime]), quantities
    are integers.  A DECIMAL(10,2) column holds an integer of the minor unit
    (the amount scaled by 100); what the code computes from such amounts it
    computes in IEEE 754 doubles, which are the machine floats here. *)

From Stdlib Require Import ZArith List String Ascii Bool Lia.
From Stdlib Require Floats.PrimFloat Floats.SpecFloat Floats.FloatOps.
Import ListNotations.

Local Open Scope Z_scope.
Local Open Scope string_scope.
Local Open Scope list_scope.

(* ------------------------------------------------------------------ *)
(** * JavaScript and query-builder helpers *)

Module Js.

(** A string is truthy unless it is empty. *)
Definition truthy (s : string) : bool := negb (s =? "").

(** [x || y] on optional strings: the first truthy one. *)
Definition or_else (x : option string) (y : option string) : option string :=
  match x with
  | Some s => if truthy s then Some s else y
  | None => y
  end.

(** The string of the bytes with the given codes. *)
Definition bytes (codes : list nat) : string :=
  string_of_list_ascii (map ascii_of_nat codes).

(** The white space [String.prototype.trim] removes, WhiteSpace and
    LineTerminator of ECMAScript, each character in UTF-8: TAB, LF, VT, FF,
    CR, SPACE, U+00A0, U+1680, U+2000 to U+200A, U+2028, U+2029, U+202F,
    U+205F, U+3000 and U+FEFF. *)
Definition white_space : list string :=
  map bytes
    [ [9]; [10]; [11]; [12]; [13]; [32];
      [194; 160];
      [225; 154; 128];
      [226; 128; 128]; [226; 128; 129]; [226; 128; 130]; [226; 128; 131];
      [226; 128; 132]; [226; 128; 133]; [226; 128; 134]; [226; 128; 135];
      [226; 128; 136]; [226; 128; 137]; [226; 128; 138];
      [226; 128; 168]; [226; 128; 169]; [226; 128; 175];
      [226; 129; 159];
      [227; 128; 128];
      [239; 187; 191] ]%nat.

(** The string is one white-space character. *)
Definition white (s : string) : bool := existsb (String.eqb s) white_space.

(** A white-space character of one byte. *)
Definition is_space (c : ascii) : bool := white (String c EmptyString).

(** [s] less [w] at its head, when it starts with [w]. *)
Fixpoint strip_prefix (w s : string) : option string :=
  match w, s with
  | EmptyString, _ => Some s
  | String a w', String b s' => if (a =? b)%char then strip_prefix w' s' else None
  | String _ _, EmptyString => None
  end.

(** [s] less the white-space character it starts with, if it starts with
    one. *)
Definition skip_space (s : string) : option string :=
  fold_right (fun w found => match strip_prefix w s with
                             | Some rest => Some rest
                             | None => found
                             end)
             None white_space.

(** [trimStart], with one unit of fuel for each character it may skip. *)
Fixpoint trim_start_n (n : nat) (s : string) : string :=
  match n with
  | O => s
  | S n' =>
      match skip_space s with
      | Some rest => trim_start_n n' rest
      | None => s
      end
  end.

Definition trim_start (s : string) : string := trim_start_n (String.length s) s.

(** [trimEnd]: a character goes when it is white space and all that
    follows it has gone. *)
Fixpoint trim_end (s : string) : string :=
  match s with
  | EmptyString => EmptyString
  | String c s' =>
      let t := trim_end s' in
      if white (String c t) then EmptyString else String c t
  end.

Definition trim (s : string) : string := trim_end (trim_start s).

(** A byte that is part of no white-space character: an ASCII character
    that is not white space. *)
Definition plain (c : ascii) : bool :=
  (nat_of_ascii c <? 128)%nat && negb (is_space c).

(** [x?.trim()] *)
Definition opt_trim (x : option string) : option string := option_map trim x.

(** [!x?.trim()]: absent, empty or blank. *)
Definition blank (x : option string) : bool :=
  match opt_trim x with
  | Some s => negb (truthy s)
  | None => true
  end.

(** [x?.trim() || null] *)
Definition trim_or_null (x : option string) : option string :=
  or_else (opt_trim x) None.

(** [s.split(",")[0]]: what stands before the first comma. *)
Fixpoint split_comma_head (s : string) : string :=
  match s with
  | EmptyString => EmptyString
  | String c s' => if (c =? ",")%char then EmptyString else String c (split_comma_head s')
  end.

(** A byte of a character after its first one (10xxxxxx). *)
Definition continuation (c : ascii) : bool :=
  let n := nat_of_ascii c in (128 <=? n)%nat && (n <? 192)%nat.

(** The UTF-16 code units of the character whose first byte is [c]: two
    for a character outside the basic plane (four bytes), else one. *)
Definition char_units (c : ascii) : nat :=
  if (nat_of_ascii c <? 240)%nat then 1%nat else 2%nat.

(** [s.substring(0, n)]: the characters of the first [n] code units.  Where
    the cut falls inside a character of two units, that character is left
    out. *)
Fixpoint substring0 (n : nat) (s : string) : string :=
  match s with
  | EmptyString => EmptyString
  | String c s' =>
      if continuation c then String c (substring0 n s')
      else if (char_units c <=? n)%nat
           then String c (substring0 (n - char_units c) s')
           else EmptyString
  end.

(** The string less its first [n] bytes. *)
Fixpoint drop_bytes (n : nat) (s : string) : string :=
  match n, s with
  | O, _ => s
  | S n', String _ s' => drop_bytes n' s'
  | S _, EmptyString => EmptyString
  end.

(** [s.substring(1)] as [TextEncoder] reads it: the string less its first
    code unit, that is less its first character of one, two or three bytes.
    Of a character of four bytes, which takes two units, the second unit
    stays, and the encoder turns it into U+FFFD. *)
Definition substring1 (s : string) : string :=
  match s with
  | EmptyString => EmptyString
  | String c s' =>
      let n := nat_of_ascii c in
      if (n <? 192)%nat then s'
      else if (n <? 224)%nat then drop_bytes 1 s'
      else if (n <? 240)%nat then drop_bytes 2 s'
      else String.append (bytes [239; 191; 189]%nat) (drop_bytes 3 s')
  end.

(** A number is an IEEE 754 double.  [of_Z] is the number an integer
    denotes, the double nearest to it. *)
Definition of_Z (z : Z) : PrimFloat.float :=
  FloatOps.SF2Prim
    (SpecFloat.binary_normalize FloatOps.prec FloatOps.emax z 0 false).

(** The number the client reads from a DECIMAL(10,2) column that holds
    [h] hundredths: the double nearest to the decimal.  Such a number
    written back unchanged to a DECIMAL(10,2) column gives the same
    decimal again, its twelve digits being fewer than a double keeps. *)
Definition number (h : Z) : PrimFloat.float :=
  PrimFloat.div (of_Z h) (of_Z 100).

(** [.single()] of the query builder: the row when the query yields exactly
    one, [null] (with an error) when it yields none or several. *)
Definition single {A : Type} (rows : list A) : option A :=
  match rows with
  | [r] => Some r
  | _ => None
  end.

(** [Array.prototype.find] *)
Definition find {A : Type} (f : A -> bool) (l : list A) : option A := List.find f l.

(** [Array.prototype.includes] on strings *)
Definition includes (l : list string) (s : string) : bool :=
  existsb (fun x => x =? s) l.

End Js.

(* ------------------------------------------------------------------ *)
(** * Regular expressions of the shape used by the validator

    [/^0[567]\d{8}$/] is an anchored sequence of one-character atoms, each
    with a fixed repetition count.  Without the [m] flag [$] matches at the
    end of the input only, and [\d] is [0-9]. *)

Module Regex.

Inductive atom : Type :=
| Lit (c : ascii)            (* a literal character *)
| Class (cs : list ascii)    (* [...] *)
| Digit.                     (* \d *)

Definition is_digit (c : ascii) : bool :=
  let n := nat_of_ascii c in (48 <=? n)%nat && (n <=? 57)%nat.

Definition atom_matches (a : atom) (c : ascii) : bool :=
  match a with
  | Lit x => (c =? x)%char
  | Class cs => existsb (fun x => (c =? x)%char) cs
  | Digit => is_digit c
  end.

(** [a{n}] *)
Definition piece : Type := (atom * nat)%type.

(** An anchored pattern [^ p1 p2 ... $]. *)
Definition anchored : Type := list piece.

(** Consume [n] characters matching [a]; the rest of the input on success. *)
Fixpoint eat (a : atom) (n : nat) (s : string) : option string :=
  match n with
  | O => Some s
  | S n' =>
      match s with
      | EmptyString => None
      | String c s' => if atom_matches a c then eat a n' s' else None
      end
  end.

(** [re.test(s)] for an anchored pattern. *)
Fixpoint test (re : anchored) (s : string) : bool :=
  match re with
  | [] => match s with EmptyString => true | _ => false end
  | (a, n) :: re' =>
      match eat a n s with
      | Some rest => test re' rest
      | None => false
      end
  end.

End Regex.

(** [const phoneRegex = /^0[567]\d{8}$/;] *)
Definition phoneRegex : Regex.anchored :=
  [ (Regex.Lit "0"%char, 1%nat);
    (Regex.Class ["5"%char; "6"%char; "7"%char], 1%nat);
    (Regex.Digit, 8%nat) ].

(* ------------------------------------------------------------------ *)
(** * Requests, events and the data store *)

(** [{ size?: string; color?: string }] *)
Record Options : Type := {
  size : option string;
  color : option string
}.

(** One element of [cart_items].  [client_price] stands for whatever price
    property the JSON element carries besides the three the interface
    declares; the handler never reads it. *)
Record CartItem : Type := {
  product_id : string;
  quantity : Z;
  options : option Options;
  client_price : option Z
}.

(** [interface OrderRequest] *)
Record OrderRequest : Type := {
  full_name : string;
  phone : string;
  wilaya : string;
  commune : option string;
  delivery_type : string;
  address : option string;
  note : option string;
  cart_items : list CartItem;
  turnstile_token : string;
  event_id : string;
  cart_id : option string
}.

(** The request headers the handler looks at. *)
Record Headers : Type := {
  cf_connecting_ip : option string;
  x_forwarded_for : option string;
  user_agent : option string
}.

(** [contents] element of the TikTok payload. *)
Record Content : Type := {
  content_id : string;
  content_quantity : Z;
  content_price : Z;
  content_name : string
}.

(** [user_data] of a tracking event. *)
Record UserData : Type := {
  client_ip_address : option string;
  client_user_agent : option string;
  fbc : option string;
  fbp : option string
}.

(** [interface TrackingEvent], with the [contents] the TikTok call adds. *)
Record TrackingEvent : Type := {
  te_event_name : string;
  te_event_id : string;
  te_phone : option string;
  te_value : option PrimFloat.float;
  te_currency : option string;
  te_order_id : option string;
  te_content_ids : option (list string);
  te_contents : option (list Content);
  te_user_data : option UserData
}.

Module Store.

Record ProductRow : Type := {
  p_id : string;
  p_name : string;
  p_price : Z;
  p_is_active : bool
}.

Record ShippingRateRow : Type := {
  sr_wilaya_code : string;
  sr_delivery_type : string;
  sr_price : Z;
  sr_is_enabled : bool
}.

Record RateLimitRow : Type := {
  rl_identifier : string;
  rl_identifier_type : string;
  rl_action : string;
  rl_count : Z;
  rl_window_start : Z
}.

Record OrderRow : Type := {
  o_id : string;
  o_public_token : string;
  o_full_name : string;
  o_phone : string;
  o_wilaya : string;
  o_commune : option string;
  o_address : option string;
  o_delivery_type : string;
  o_note : option string;
  o_subtotal : Z;
  o_shipping : Z;
  o_total : Z;
  o_status : string;
  o_ip_address : string;
  o_user_agent : string;
  o_event_id : string;
  o_created_at : Z
}.

Record OrderItemRow : Type := {
  oi_order_id : string;
  oi_product_id : string;
  oi_product_name : string;
  oi_price : Z;
  oi_quantity : Z;
  oi_selected_size : option string;
  oi_selected_color : option string;
  oi_options : option Options
}.

Record StatusHistoryRow : Type := {
  sh_order_id : string;
  sh_status : string
}.

Record CartRow : Type := {
  c_id : string;
  c_phone : option string
}.

Record SettingRow : Type := {
  s_key : string;
  s_value : option string
}.

Record PendingTrackingEventRow : Type := {
  pt_order_id : string;
  pt_event_name : string;
  pt_event_id : string;
  pt_event_data : TrackingEvent;
  pt_trigger_status : string
}.

Record Db : Type := {
  wilayas : list string;                      (* the [code] column *)
  products : list ProductRow;
  shipping_rates : list ShippingRateRow;
  orders : list OrderRow;
  order_items : list OrderItemRow;
  order_status_history : list StatusHistoryRow;
  rate_limits : list RateLimitRow;
  carts : list CartRow;
  settings : list SettingRow;
  pending_tracking_events : list PendingTrackingEventRow
}.

Definition with_orders (db : Db) (t : list OrderRow) : Db :=
  {| wilayas := wilayas db; products := products db;
     shipping_rates := shipping_rates db; orders := t;
     order_items := order_items db;
     order_status_history := order_status_history db;
     rate_limits := rate_limits db; carts := carts db;
     settings := settings db;
     pending_tracking_events := pending_tracking_events db |}.

Definition with_order_items (db : Db) (t : list OrderItemRow) : Db :=
  {| wilayas := wilayas db; products := products db;
     shipping_rates := shipping_rates db; orders := orders db;
     order_items := t;
     order_status_history := order_status_history db;
     rate_limits := rate_limits db; carts := carts db;
     settings := settings db;
     pending_tracking_events := pending_tracking_events db |}.

Definition with_order_status_history (db : Db) (t : list StatusHistoryRow) : Db :=
  {| wilayas := wilayas db; products := products db;
     shipping_rates := shipping_rates db; orders := orders db;
     order_items := order_items db;
     order_status_history := t;
     rate_limits := rate_limits db; carts := carts db;
     settings := settings db;
     pending_tracking_events := pending_tracking_events db |}.

Definition with_rate_limits (db : Db) (t : list RateLimitRow) : Db :=
  {| wilayas := wilayas db; products := products db;
     shipping_rates := shipping_rates db; orders := orders db;
     order_items := order_items db;
     order_status_history := order_status_history db;
     rate_limits := t; carts := carts db;
     settings := settings db;
     pending_tracking_events := pending_tracking_events db |}.

Definition with_carts (db : Db) (t : list CartRow) : Db :=
  {| wilayas := wilayas db; products := products db;
     shipping_rates := shipping_rates db; orders := orders db;
     order_items := order_items db;
     order_status_history := order_status_history db;
     rate_limits := rate_limits db; carts := t;
     settings := settings db;
     pending_tracking_events := pending_tracking_events db |}.

Definition with_pending_tracking_events (db : Db) (t : list PendingTrackingEventRow) : Db :=
  {| wilayas := wilayas db; products := products db;
     shipping_rates := shipping_rates db; orders := orders db;
     order_items := order_items db;
     order_status_history := order_status_history db;
     rate_limits := rate_limits db; carts := carts db;
     settings := settings db;
     pending_tracking_events := t |}.

End Store.
Import Store.

(** An outbound [fetch] to a sibling edge function, fired and not awaited. *)
Record Fetch : Type := {
  fetch_function : string;
  fetch_body : TrackingEvent
}.

(** What the handler answers.  The localized texts of [errorResponse] are
    named by what they say. *)
Inductive Message : Type :=
| NameRequired          (* line 54 *)
| PhoneInvalid          (* line 60 *)
| WilayaNotFound        (* line 71 *)
| DeliveryTypeInvalid   (* line 76 *)
| AddressRequired       (* line 81 *)
| CartEmpty             (* line 86 *)
| SecurityCheckFailed   (* line 105 *)
| TooManyOrders         (* line 126 *)
| TooManyOrdersForPhone (* line 140 *)
| AlreadyRegistered     (* line 168 *)
| ProductsLoadFailed    (* line 183 *)
| ProductsUnavailable   (* line 189 *)
| DeliveryUnavailable   (* line 219 *)
| OrderCreationFailed   (* lines 252 and 282 *)
| UnexpectedError.      (* line 408 *)

Inductive Response : Type :=
| success (order_id : string) (public_token : string)
    (total : PrimFloat.float)                          (* status 200 *)
| errorResponse (message : Message) (status : Z).

Definition status_of (r : Response) : Z :=
  match r with
  | success _ _ _ => 200
  | errorResponse _ st => st
  end.

(** What the outside world answers during one request. *)
Inductive TurnstileOutcome : Type :=
| Verified        (* [turnstileResult.success] truthy *)
| Refused         (* [turnstileResult.success] falsy *)
| Unreachable.    (* [fetch] or [json()] throws *)

Record Env : Type := {
  now : Z;                         (* [new Date()] *)
  turnstile : TurnstileOutcome;
  productsError : bool;            (* the products query reports an error *)
  shippingError : bool;            (* the shipping_rates query reports an error *)
  orderError : bool;               (* the store refuses the order row *)
  itemsError : bool;               (* the store refuses the order items *)
  rollbackError : bool;            (* the store refuses the delete of line 281 *)
  historyError : bool;             (* the store refuses the history row of line 286 *)
  cartError : bool;                (* the store refuses the delete of line 336 *)
  numeric : PrimFloat.float -> Z;  (* the hundredths a DECIMAL(10,2) column
                                      keeps of a number written to it *)
  new_order_id : string;           (* [uuid_generate_v4()] for the order row *)
  new_public_token : string
}.

(* ------------------------------------------------------------------ *)
(** * The create-order handler *)

Module CreateOrder.

(** Lines 40-43: the caller's address and user agent. *)
Definition clientIP (h : Headers) : string :=
  match Js.or_else (cf_connecting_ip h)
          (Js.or_else (option_map Js.split_comma_head (x_forwarded_for h))
                      (Some "unknown")) with
  | Some ip => ip
  | None => "unknown"
  end.

Definition userAgent (h : Headers) : string :=
  match Js.or_else (user_agent h) None with
  | Some ua => ua
  | None => ""
  end.

(** ** VALIDATION (lines 53-87): [Some r] is the early return. *)
Definition validation (body : OrderRequest) (db : Db) : option Response :=
  if Js.blank (Some (full_name body)) then
    Some (errorResponse NameRequired 400)
  else if negb (Regex.test phoneRegex (phone body)) then
    Some (errorResponse PhoneInvalid 400)
  else
    match Js.single (filter (fun code => code =? wilaya body) (wilayas db)) with
    | None => Some (errorResponse WilayaNotFound 400)
    | Some _ =>
        if negb (Js.includes ["office"; "home"] (delivery_type body)) then
          Some (errorResponse DeliveryTypeInvalid 400)
        else if (delivery_type body =? "home") && Js.blank (address body) then
          Some (errorResponse AddressRequired 400)
        else
          match cart_items body with
          | [] => Some (errorResponse CartEmpty 400)
          | _ :: _ => None
          end
    end.

(** ** RATE LIMITING (lines 112-141) *)
Definition windowStart (now : Z) : Z := now - 60 * 60 * 1000.

(** The three [.eq] filters every rate_limits query of the handler has. *)
Definition rate_limit_key (identifier identifier_type : string)
    (r : RateLimitRow) : bool :=
  (rl_identifier r =? identifier)
  && (rl_identifier_type r =? identifier_type)
  && (rl_action r =? "create_order").

(** [.select("count") ... .gte("window_start", since).single()] *)
Definition select_rate_limit (db : Db) (identifier identifier_type : string)
    (since : Z) : option Z :=
  option_map rl_count
    (Js.single
       (filter (fun r => rate_limit_key identifier identifier_type r
                         && (since <=? rl_window_start r)%Z)
               (rate_limits db))).

(** [limit && limit.count >= n] *)
Definition reached (limit : option Z) (n : Z) : bool :=
  match limit with
  | Some count => (n <=? count)%Z
  | None => false
  end.

Definition rate_limiting (now : Z) (ip : string) (body : OrderRequest)
    (db : Db) : Response + (option Z * option Z) :=
  let ipRateLimit := select_rate_limit db ip "ip" (windowStart now) in
  if reached ipRateLimit 10 then
    inl (errorResponse TooManyOrders 429)
  else
    let phoneRateLimit :=
      select_rate_limit db (phone body) "phone" (windowStart now) in
    if reached phoneRateLimit 3 then
      inl (errorResponse TooManyOrdersForPhone 429)
    else
      inr (ipRateLimit, phoneRateLimit).

(** ** DUPLICATE DETECTION (lines 147-170) *)
Definition fiveMinutesAgo (now : Z) : Z := now - 5 * 60 * 1000.

Definition recentOrders (now : Z) (body : OrderRequest) (db : Db)
    : list OrderRow :=
  filter (fun o => (o_phone o =? phone body)
                   && (fiveMinutesAgo now <=? o_created_at o)%Z)
         (orders db).

Definition recentItems (db : Db) (order : OrderRow) : list OrderItemRow :=
  filter (fun ri => oi_order_id ri =? o_id order) (order_items db).

Definition isDuplicate (recent : list OrderItemRow) (cart : list CartItem)
    : bool :=
  (List.length recent =? List.length cart)%nat
  && forallb
       (fun item =>
          existsb (fun ri => (oi_product_id ri =? product_id item)
                             && (oi_quantity ri =? quantity item)%Z)
                  recent)
       cart.

Definition duplicate_detection (now : Z) (body : OrderRequest) (db : Db)
    : option Response :=
  match recentOrders now body db with
  | [] => None
  | first :: _ =>
      if isDuplicate (recentItems db first) (cart_items body) then
        Some (errorResponse AlreadyRegistered 400)
      else None
  end.

(** ** FETCH PRODUCTS AND CALCULATE PRICES (lines 176-205) *)
Definition productIds (body : OrderRequest) : list string :=
  map product_id (cart_items body).

(** [.from("products").select(...).in("id", productIds)] *)
Definition select_products (db : Db) (ids : list string) : list ProductRow :=
  filter (fun p => Js.includes ids (p_id p)) (products db).

(** An element of [orderItems].  Its price is [product.price] as it was
    read, on its way back to a DECIMAL(10,2) column: the hundredths of the
    catalog row. *)
Record OrderItem : Type := {
  item_product_id : string;
  item_product_name : string;
  item_price : Z;
  item_quantity : Z
}.

(** The [map] of lines 194-205 with its running [subtotal]; [None] is the
    [throw new Error("Product not found")].  [product.price * item.quantity]
    and [subtotal += lineTotal] are operations on doubles. *)
Fixpoint orderItems_of (found : list ProductRow) (cart : list CartItem)
    (subtotal : PrimFloat.float) : option (list OrderItem * PrimFloat.float) :=
  match cart with
  | [] => Some ([], subtotal)
  | item :: rest =>
      match Js.find (fun p => p_id p =? product_id item) found with
      | None => None
      | Some product =>
          let lineTotal :=
            PrimFloat.mul (Js.number (p_price product))
                          (Js.of_Z (quantity item)) in
          match orderItems_of found rest (PrimFloat.add subtotal lineTotal) with
          | None => None
          | Some (items, final) =>
              Some ({| item_product_id := p_id product;
                       item_product_name := p_name product;
                       item_price := p_price product;
                       item_quantity := quantity item |} :: items, final)
          end
      end
  end.

(** ** FETCH SHIPPING RATE (lines 211-223) *)
Definition select_shipping_rate (db : Db) (body : OrderRequest)
    : option ShippingRateRow :=
  Js.single
    (filter (fun r => (sr_wilaya_code r =? wilaya body)
                      && (sr_delivery_type r =? delivery_type body))
            (shipping_rates db)).

(** What the pricing sections hand to the persistence sections:
    [subtotal] and [total] are computed numbers, [shipping] is
    [shippingRate.price] as it was read (the hundredths of the rate row). *)
Record Priced : Type := {
  orderItems : list OrderItem;
  subtotal : PrimFloat.float;
  shipping : Z;
  total : PrimFloat.float
}.

(** The exception of line 196 lands in the [catch] of line 406. *)
Definition pricing (env : Env) (body : OrderRequest) (db : Db)
    : Response + Priced :=
  let found := select_products db (productIds body) in
  if productsError env || (List.length found =? 0)%nat then
    inl (errorResponse ProductsLoadFailed 500)
  else
    let inactiveProducts := filter (fun p => negb (p_is_active p)) found in
    if (0 <? List.length inactiveProducts)%nat then
      inl (errorResponse ProductsUnavailable 400)
    else
      match orderItems_of found (cart_items body) (Js.of_Z 0) with
      | None => inl (errorResponse UnexpectedError 500)
      | Some (items, sub) =>
          match select_shipping_rate db body with
          | None => inl (errorResponse DeliveryUnavailable 400)
          | Some shippingRate =>
              if shippingError env || negb (sr_is_enabled shippingRate) then
                inl (errorResponse DeliveryUnavailable 400)
              else
                inr {| orderItems := items;
                       subtotal := sub;
                       shipping := sr_price shippingRate;
                       total :=
                         PrimFloat.add sub (Js.number (sr_price shippingRate)) |}
          end
      end.

(** ** CREATE ORDER (lines 229-289) *)
Definition order_row (env : Env) (h : Headers) (body : OrderRequest)
    (priced : Priced) : OrderRow :=
  {| o_id := new_order_id env;
     o_public_token := new_public_token env;
     o_full_name := Js.trim (full_name body);
     o_phone := phone body;
     o_wilaya := wilaya body;
     o_commune := Js.trim_or_null (commune body);
     o_address := Js.trim_or_null (address body);
     o_delivery_type := delivery_type body;
     o_note := Js.trim_or_null (note body);
     o_subtotal := numeric env (subtotal priced);
     o_shipping := shipping priced;
     o_total := numeric env (total priced);
     o_status := "new";
     o_ip_address := clientIP h;
     o_user_agent := Js.substring0 500 (userAgent h);
     o_event_id := event_id body;
     o_created_at := now env |}.

(** [.from("orders").insert(row).select(...).single()]: refused when the
    store says so or when the primary key is taken. *)
Definition insert_order (env : Env) (row : OrderRow) (db : Db) : option Db :=
  if orderError env || existsb (fun o => o_id o =? o_id row) (orders db) then
    None
  else Some (with_orders db (orders db ++ [row])).

(** [.from("orders").delete().eq("id", id)] (line 281).  The store may
    refuse it; the handler does not look at the answer. *)
Definition delete_order (env : Env) (id : string) (db : Db) : Db :=
  if rollbackError env then db
  else with_orders db (filter (fun o => negb (o_id o =? id)) (orders db)).

(** [optionsByProductId]: a [Map] filled in cart order, so the last
    element with a product id decides; [ci.options || null]. *)
Definition optionsByProductId (cart : list CartItem) (pid : string)
    : option (option Options) :=
  option_map options (Js.find (fun ci => product_id ci =? pid) (rev cart)).

Definition item_row (cart : list CartItem) (id : string) (it : OrderItem)
    : OrderItemRow :=
  let chosen := optionsByProductId cart (item_product_id it) in
  {| oi_order_id := id;
     oi_product_id := item_product_id it;
     oi_product_name := item_product_name it;
     oi_price := item_price it;
     oi_quantity := item_quantity it;
     oi_selected_size :=
       match chosen with Some (Some o) => size o | _ => None end;
     oi_selected_color :=
       match chosen with Some (Some o) => color o | _ => None end;
     oi_options :=
       match chosen with Some (Some o) => Some o | _ => None end |}.

Definition insert_order_items (rows : list OrderItemRow) (db : Db) : Db :=
  with_order_items db (order_items db ++ rows).

(** Lines 286-289.  The store may refuse the row; the handler does not
    look at the answer. *)
Definition insert_status_history (env : Env) (id : string) (db : Db) : Db :=
  if historyError env then db
  else
    with_order_status_history db
      (order_status_history db ++ [{| sh_order_id := id; sh_status := "new" |}]).

(** ** UPDATE RATE LIMITS (lines 296-329) *)
Definition with_count (r : RateLimitRow) (count : Z) : RateLimitRow :=
  {| rl_identifier := rl_identifier r;
     rl_identifier_type := rl_identifier_type r;
     rl_action := rl_action r;
     rl_count := count;
     rl_window_start := rl_window_start r |}.

(** [.update({ count }).eq(identifier).eq(identifier_type).eq(action)] *)
Definition update_rate_limit (identifier identifier_type : string)
    (count : Z) (db : Db) : Db :=
  with_rate_limits db
    (map (fun r => if rate_limit_key identifier identifier_type r
                   then with_count r count else r)
         (rate_limits db)).

Definition insert_rate_limit (row : RateLimitRow) (db : Db) : Db :=
  with_rate_limits db (rate_limits db ++ [row]).

(** One of the two [if (limit) update else insert] blocks.  The handler
    does not look at what the store answers to them; the store is taken to
    carry them out. *)
Definition record_rate_limit (identifier identifier_type : string)
    (limit : option Z) (now : Z) (db : Db) : Db :=
  match limit with
  | Some count => update_rate_limit identifier identifier_type (count + 1) db
  | None =>
      insert_rate_limit
        {| rl_identifier := identifier;
           rl_identifier_type := identifier_type;
           rl_action := "create_order";
           rl_count := 1;
           rl_window_start := now |} db
  end.

(** ** DELETE CART (lines 335-337)

    The store may refuse the delete; the handler does not look at the
    answer. *)
Definition delete_cart (env : Env) (body : OrderRequest) (db : Db) : Db :=
  match cart_id body with
  | Some id =>
      if Js.truthy id && negb (cartError env) then
        with_carts db (filter (fun c => negb (c_id c =? id)) (carts db))
      else db
  | None => db
  end.

(** ** TRIGGER SERVER-SIDE TRACKING (lines 344-388) *)
Definition trackingData (body : OrderRequest) (id : string) (priced : Priced)
    : TrackingEvent :=
  {| te_event_name := "Purchase";
     te_event_id := event_id body;
     te_phone := Some (phone body);
     te_value := Some (total priced);
     te_currency := Some "DZD";
     te_order_id := Some id;
     te_content_ids := Some (productIds body);
     te_contents := None;
     te_user_data := None |}.

Definition tiktokTrackingData (body : OrderRequest) (id : string)
    (priced : Priced) : TrackingEvent :=
  {| te_event_name := "Purchase";
     te_event_id := event_id body;
     te_phone := Some (phone body);
     te_value := Some (total priced);
     te_currency := Some "DZD";
     te_order_id := Some id;
     te_content_ids := Some (productIds body);
     te_contents :=
       Some (map (fun it => {| content_id := item_product_id it;
                               content_quantity := item_quantity it;
                               content_price := item_price it;
                               content_name := item_product_name it |})
                 (orderItems priced));
     te_user_data := None |}.

(** Lines 229-405: everything after the gates. *)
Definition create (env : Env) (h : Headers) (body : OrderRequest) (db : Db)
    (ipRateLimit phoneRateLimit : option Z) (priced : Priced)
    : Db * Response * list Fetch :=
  match insert_order env (order_row env h body priced) db with
  | None => (db, errorResponse OrderCreationFailed 500, [])
  | Some db1 =>
      let id := new_order_id env in
      if itemsError env then
        (delete_order env id db1, errorResponse OrderCreationFailed 500, [])
      else
        let db2 :=
          insert_order_items
            (map (item_row (cart_items body) id) (orderItems priced)) db1 in
        let db3 := insert_status_history env id db2 in
        let db4 := record_rate_limit (clientIP h) "ip" ipRateLimit (now env) db3 in
        let db5 :=
          record_rate_limit (phone body) "phone" phoneRateLimit (now env) db4 in
        let db6 := delete_cart env body db5 in
        (db6,
         success id (new_public_token env) (total priced),
         [ {| fetch_function := "meta-server-events";
              fetch_body := trackingData body id priced |};
           {| fetch_function := "tiktok-server-events";
              fetch_body := tiktokTrackingData body id priced |} ])
  end.

(** ** The handler for a parsed POST body (lines 32-409). *)
Definition serve (env : Env) (h : Headers) (body : OrderRequest) (db : Db)
    : Db * Response * list Fetch :=
  match validation body db with
  | Some r => (db, r, [])
  | None =>
      match turnstile env with
      | Unreachable => (db, errorResponse UnexpectedError 500, [])
      | Refused => (db, errorResponse SecurityCheckFailed 400, [])
      | Verified =>
          match rate_limiting (now env) (clientIP h) body db with
          | inl r => (db, r, [])
          | inr (ipRateLimit, phoneRateLimit) =>
              match duplicate_detection (now env) body db with
              | Some r => (db, r, [])
              | None =>
                  match pricing env body db with
                  | inl r => (db, r, [])
                  | inr priced =>
                      create env h body db ipRateLimit phoneRateLimit priced
                  end
              end
          end
      end
  end.

(** The store and the answer of a request. *)
Definition store_after (env : Env) (h : Headers) (body : OrderRequest)
    (db : Db) : Db := fst (fst (serve env h body db)).

Definition response (env : Env) (h : Headers) (body : OrderRequest)
    (db : Db) : Response := snd (fst (serve env h body db)).

(** Requests handled one after the other, each on the store the previous
    one left. *)
Fixpoint run (reqs : list (Env * Headers * OrderRequest)) (db : Db)
    : Db * list Response :=
  match reqs with
  | [] => (db, [])
  | (env, h, body) :: rest =>
      let '(db', r, _) := serve env h body db in
      let '(db'', rs) := run rest db' in
      (db'', r :: rs)
  end.

End CreateOrder.

(* ------------------------------------------------------------------ *)
(** * The meta-server-events handler *)

Module MetaServerEvents.

(** How the Conversions API answers the POST of line 126. *)
Inductive MetaOutcome : Type :=
| Received (events_received : Z)   (* [metaResponse.ok] *)
| Declined                         (* a non-2xx answer *)
| NoAnswer.                        (* [fetch] or [json()] throws *)

Record Env : Type := {
  META_PIXEL_ID : option string;
  META_ACCESS_TOKEN : option string;
  eventTime : Z;                   (* [Math.floor(Date.now() / 1000)] *)
  meta : MetaOutcome
}.

(** [custom_data] of the payload. *)
Record CustomData : Type := {
  cd_value : option PrimFloat.float;
  cd_currency : string;
  cd_content_ids : option (list string);
  cd_content_type : string
}.

(** [userData: Record<string, string>], its keys in insertion order. *)
Definition UserDataOut : Type := list (string * string).

(** The single element of [eventPayload.data]. *)
Record EventPayload : Type := {
  ep_event_name : string;
  ep_event_time : Z;
  ep_event_id : string;
  ep_action_source : string;
  ep_user_data : UserDataOut;
  ep_custom_data : CustomData
}.

(** The POST to [graph.facebook.com/v18.0/<pixel>/events]. *)
Record MetaCall : Type := {
  call_pixel : string;
  call_access_token : string;
  call_payload : EventPayload
}.

Inductive Reply : Type :=
| Skipped                          (* line 41: success, not configured *)
| Queued                           (* line 74: success, queued; out of reach *)
| Sent (events_received : Z)       (* line 147: success *)
| MetaError                        (* line 139: status 500 *)
| TrackingFailed.                  (* line 153: status 500 *)

(** [!x] on an optional string. *)
Definition missing (x : option string) : bool :=
  match x with
  | Some s => negb (Js.truthy s)
  | None => true
  end.

(** [settings?.value || "confirmed"] after the [.single()] on the key. *)
Definition purchaseEventTrigger (db : Db) : string :=
  match Js.single (filter (fun s => s_key s =? "purchase_event") (settings db)) with
  | Some row =>
      match Js.or_else (s_value row) None with
      | Some v => v
      | None => "confirmed"
      end
  | None => "confirmed"
  end.

Section Hashing.

(** [hashSHA256], lines 161-167: hexadecimal SHA-256 of the UTF-8 text. *)
Variable hashSHA256 : string -> string.

Definition put (key : string) (v : option string) (m : UserDataOut)
    : UserDataOut :=
  match v with
  | Some s => if Js.truthy s then m ++ [(key, s)] else m
  | None => m
  end.

(** Lines 82-103. *)
Definition userData (body : TrackingEvent) : UserDataOut :=
  let ph :=
    match te_phone body with
    | Some p =>
        if Js.truthy p then
          [("ph", hashSHA256 (String.append "213" (Js.substring1 p)))]
        else []
    | None => []
    end in
  let ud f := match te_user_data body with Some u => f u | None => None end in
  put "fbp" (ud fbp)
    (put "fbc" (ud fbc)
       (put "client_user_agent" (ud client_user_agent)
          (put "client_ip_address" (ud client_ip_address) ph))).

(** Lines 106-123. *)
Definition eventPayload (env : Env) (body : TrackingEvent) : EventPayload :=
  {| ep_event_name := te_event_name body;
     ep_event_time := eventTime env;
     ep_event_id := te_event_id body;
     ep_action_source := "website";
     ep_user_data := userData body;
     ep_custom_data :=
       {| cd_value := te_value body;
          cd_currency :=
            match Js.or_else (te_currency body) None with
            | Some c => c
            | None => "DZD"
            end;
          cd_content_ids := te_content_ids body;
          cd_content_type := "product" |} |}.

(** Lines 81-150: build the event and POST it. *)
Definition send (env : Env) (pixel token : string) (body : TrackingEvent)
    (db : Db) : Db * Reply * list MetaCall :=
  let call := {| call_pixel := pixel; call_access_token := token;
                 call_payload := eventPayload env body |} in
  match meta env with
  | NoAnswer => (db, TrackingFailed, [call])
  | Declined => (db, MetaError, [call])
  | Received n => (db, Sent n, [call])
  end.

(** The handler for a POST (lines 33-157).

    Lines 64-72 read [await supabase.from(...).insert({...}).catch(...)].
    What [insert] hands back is a query builder, which is awaitable through
    its [then] and has no [catch]: [.catch(...)] calls [undefined], and the
    TypeError is thrown while the expression is built, before the builder
    is awaited and so before any request goes to the store.  The [catch] of
    line 151 answers it; line 74 is not reached. *)
Definition serve (env : Env) (body : TrackingEvent) (db : Db)
    : Db * Reply * list MetaCall :=
  if missing (META_PIXEL_ID env) || missing (META_ACCESS_TOKEN env) then
    (db, Skipped, [])
  else
    let pixel := match META_PIXEL_ID env with Some s => s | None => "" end in
    let token := match META_ACCESS_TOKEN env with Some s => s | None => "" end in
    if (te_event_name body =? "Purchase") && negb (missing (te_order_id body)) then
      if purchaseEventTrigger db =? "delivered" then (db, TrackingFailed, [])
      else send env pixel token body db
    else send env pixel token body db.

End Hashing.

End MetaServerEvents.

(* ------------------------------------------------------------------ *)
(** * What the specification says, in its own words *)

Module Spec.

(** A decimal digit. *)
Definition decimal_digit (c : ascii) : bool :=
  existsb (Ascii.eqb c)
    ["0"; "1"; "2"; "3"; "4"; "5"; "6"; "7"; "8"; "9"]%char.

(** The national mobile pattern: a leading 0, a second digit among 5, 6
    and 7, then 8 digits, 10 characters in all. *)
Definition national_mobile (s : string) : bool :=
  match list_ascii_of_string s with
  | first :: second :: rest =>
      (first =? "0")%char
      && existsb (Ascii.eqb second) ["5"; "6"; "7"]%char
      && (List.length rest =? 8)%nat
      && forallb decimal_digit rest
  | _ => false
  end.

(** The server-stored price of a product: the price column of its
    catalog row. *)
Definition server_price (db : Db) (pid : string) : option Z :=
  option_map p_price (List.find (fun p => p_id p =? pid) (products db)).

(** Sum over the cart of server price times quantity; undefined when a
    product has no catalog row. *)
Fixpoint sum_of_lines (db : Db) (cart : list CartItem) : option Z :=
  match cart with
  | [] => Some 0
  | item :: rest =>
      match server_price db (product_id item), sum_of_lines db rest with
      | Some price, Some s => Some (price * quantity item + s)
      | _, _ => None
      end
  end.

(** The same sum as doubles give it: every price taken as the double
    nearest to it, every product and every partial sum rounded to a
    double, the lines added to [acc] in cart order. *)
Fixpoint sum_of_lines_in_doubles (db : Db) (cart : list CartItem)
    (acc : PrimFloat.float) : option PrimFloat.float :=
  match cart with
  | [] => Some acc
  | item :: rest =>
      match server_price db (product_id item) with
      | Some price =>
          sum_of_lines_in_doubles db rest
            (PrimFloat.add acc
               (PrimFloat.mul (Js.number price) (Js.of_Z (quantity item))))
      | None => None
      end
  end.

(** The server-stored shipping rate for (region, delivery type), when an
    enabled one exists. *)
Definition shipping_rate (db : Db) (region kind : string) : option Z :=
  match List.find (fun r => (sr_wilaya_code r =? region)
                            && (sr_delivery_type r =? kind))
                  (shipping_rates db) with
  | Some r => if sr_is_enabled r then Some (sr_price r) else None
  | None => None
  end.

(** Every referenced product exists and is active. *)
Definition all_active (db : Db) (cart : list CartItem) : Prop :=
  forall item, In item cart ->
    (exists p, In p (products db) /\ p_id p = product_id item)
    /\ (forall p, In p (products db) -> p_id p = product_id item ->
                  p_is_active p = true).

(** Some referenced product is missing from the catalog or inactive. *)
Definition missing_or_inactive (db : Db) (cart : list CartItem) : Prop :=
  exists item, In item cart /\
    (List.find (fun p => p_id p =? product_id item) (products db) = None
     \/ exists p, In p (products db) /\ p_id p = product_id item
                  /\ p_is_active p = false).

(** The cart without the prices the client wrote into it. *)
Definition without_client_price (item : CartItem) : CartItem :=
  {| product_id := product_id item; quantity := quantity item;
     options := options item; client_price := None |}.

Definition same_but_client_prices (a b : OrderRequest) : Prop :=
  full_name a = full_name b /\ phone a = phone b /\ wilaya a = wilaya b
  /\ commune a = commune b /\ delivery_type a = delivery_type b
  /\ address a = address b /\ note a = note b
  /\ map without_client_price (cart_items a)
     = map without_client_price (cart_items b)
  /\ turnstile_token a = turnstile_token b /\ event_id a = event_id b
  /\ cart_id a = cart_id b.

Definition without_client_prices (body : OrderRequest) : OrderRequest :=
  {| full_name := full_name body; phone := phone body;
     wilaya := wilaya body; commune := commune body;
     delivery_type := delivery_type body; address := address body;
     note := note body;
     cart_items := map without_client_price (cart_items body);
     turnstile_token := turnstile_token body; event_id := event_id body;
     cart_id := cart_id body |}.

(** The most recent of a list of orders: the one created last (the
    earlier row on a tie). *)
Fixpoint most_recent (l : list OrderRow) : option OrderRow :=
  match l with
  | [] => None
  | o :: rest =>
      match most_recent rest with
      | Some o' => if (o_created_at o <? o_created_at o')%Z then Some o' else Some o
      | None => Some o
      end
  end.

(** The submitted cart changes the quantity of a line of the prior order:
    same product, another quantity. *)
Definition differs_in_quantity (prior : list OrderItemRow)
    (cart : list CartItem) : Prop :=
  exists ri item, In ri prior /\ In item cart
                  /\ oi_product_id ri = product_id item
                  /\ oi_quantity ri <> quantity item.

End Spec.

(* ------------------------------------------------------------------ *)
(** * The rate_limits table as the handler reads and writes it *)

Module Counters.

(** The counters of a key whose window started at [since] or later: the
    rows the lookup of lines 116-123 and 130-137 asks for. *)
Definition active_rows (identifier identifier_type : string) (since : Z)
    (table : list RateLimitRow) : list RateLimitRow :=
  filter (fun r => CreateOrder.rate_limit_key identifier identifier_type r
                   && (since <=? rl_window_start r)%Z)
         table.

(** The counter of a key with a count and a window start. *)
Definition counter (identifier identifier_type : string) (count start : Z)
    : RateLimitRow :=
  {| rl_identifier := identifier; rl_identifier_type := identifier_type;
     rl_action := "create_order"; rl_count := count;
     rl_window_start := start |}.

(** What one bookkeeping block does to the rate_limits table. *)
Definition record_rows (identifier identifier_type : string)
    (limit : option Z) (now : Z) (table : list RateLimitRow)
    : list RateLimitRow :=
  match limit with
  | Some count =>
      map (fun r => if CreateOrder.rate_limit_key identifier identifier_type r
                    then CreateOrder.with_count r (count + 1) else r)
          table
  | None => table ++ [counter identifier identifier_type 1 now]
  end.

(** The table after both blocks, the one for the IP first. *)
Definition recorded (ip number : string) (ipl phl : option Z) (now : Z)
    (table : list RateLimitRow) : list RateLimitRow :=
  record_rows number "phone" phl now (record_rows ip "ip" ipl now table).

(** The key has one open window: started at [start], counting [count],
    and every other counter of the key is older than an hour before
    [start]. *)
Definition window (identifier identifier_type : string) (start count : Z)
    (table : list RateLimitRow) : Prop :=
  active_rows identifier identifier_type (CreateOrder.windowStart start) table
  = [counter identifier identifier_type count start].

(** Within the hour of a window that started at [start]. *)
Definition in_hour (start now : Z) : Prop :=
  start <= now <= start + 60 * 60 * 1000.

Definition is_success (r : Response) : bool :=
  match r with
  | success _ _ _ => true
  | errorResponse _ _ => false
  end.

(** By how much an accepted request raises the counter of a key. *)
Definition charge (identifier identifier_type : string) (h : Headers)
    (body : OrderRequest) : Z :=
  (if ("ip" =? identifier_type) && (CreateOrder.clientIP h =? identifier)
   then 1 else 0)
  + (if ("phone" =? identifier_type) && (phone body =? identifier)
     then 1 else 0).

(** The accepted requests of a run that count for a key. *)
Fixpoint accepted (identifier identifier_type : string)
    (reqs : list (Env * Headers * OrderRequest)) (answers : list Response)
    : Z :=
  match reqs, answers with
  | (_, h, body) :: reqs', r :: answers' =>
      (if is_success r then charge identifier identifier_type h body else 0)
      + accepted identifier identifier_type reqs' answers'
  | _, _ => 0
  end.

(** Every request of the list is handled in the hour after [start]. *)
Definition all_in_hour (start : Z)
    (reqs : list (Env * Headers * OrderRequest)) : Prop :=
  Forall (fun req => in_hour start (now (fst (fst req)))) reqs.

End Counters.

(* ------------------------------------------------------------------ *)
(** * A small shop to evaluate the handlers on *)

Module Sample.

Definition necklace : ProductRow :=
  {| p_id := "A"; p_name := "Necklace"; p_price := 250000; p_is_active := true |}.

Definition ring : ProductRow :=
  {| p_id := "B"; p_name := "Ring"; p_price := 120000; p_is_active := true |}.

Definition retired : ProductRow :=
  {| p_id := "C"; p_name := "Anklet"; p_price := 90000; p_is_active := false |}.

Definition office_rate : ShippingRateRow :=
  {| sr_wilaya_code := "16"; sr_delivery_type := "office";
     sr_price := 40000; sr_is_enabled := true |}.

Definition home_rate : ShippingRateRow :=
  {| sr_wilaya_code := "16"; sr_delivery_type := "home";
     sr_price := 70000; sr_is_enabled := true |}.

(** A charm at 100.09. *)
Definition charm : ProductRow :=
  {| p_id := "K"; p_name := "Charm"; p_price := 10009; p_is_active := true |}.

(** A shop with a catalog and rates and nothing ordered yet. *)
Definition shop : Db :=
  {| wilayas := ["16"];
     products := [necklace; ring; retired];
     shipping_rates := [office_rate; home_rate];
     orders := []; order_items := []; order_status_history := [];
     rate_limits := []; carts := []; settings := [];
     pending_tracking_events := [] |}.

(** The same shop selling charms. *)
Definition kiosk : Db :=
  {| wilayas := ["16"];
     products := [charm];
     shipping_rates := [office_rate; home_rate];
     orders := []; order_items := []; order_status_history := [];
     rate_limits := []; carts := []; settings := [];
     pending_tracking_events := [] |}.

Definition from (ip : string) : Headers :=
  {| cf_connecting_ip := Some ip; x_forwarded_for := None;
     user_agent := Some "Mozilla/5.0" |}.

Definition line (pid : string) (q : Z) : CartItem :=
  {| product_id := pid; quantity := q; options := None; client_price := None |}.

Definition order (number : string) (cart : list CartItem) : OrderRequest :=
  {| full_name := "Amina B."; phone := number; wilaya := "16";
     commune := None; delivery_type := "office"; address := None;
     note := None; cart_items := cart; turnstile_token := "token";
     event_id := "evt_1"; cart_id := None |}.

(** A DECIMAL(10,2) column that keeps of a number the nearest hundredth. *)
Definition hundredths (x : PrimFloat.float) : Z :=
  match FloatOps.Prim2SF (PrimFloat.mul x (Js.of_Z 100)) with
  | SpecFloat.S754_finite s m e =>
      let n := if (0 <=? e)%Z then Z.pos m * 2 ^ e
               else (Z.pos m + 2 ^ (- e - 1)) / 2 ^ (- e) in
      if s then - n else n
  | _ => 0
  end.

(** The outside world at instant [t]: the challenge passes, the store
    answers, and the new order row gets the identifier [id]. *)
Definition world (t : Z) (id : string) : Env :=
  {| now := t; turnstile := Verified; productsError := false;
     shippingError := false; orderError := false; itemsError := false;
     rollbackError := false; historyError := false; cartError := false;
     numeric := hundredths;
     new_order_id := id; new_public_token := String.append "pub-" id |}.

(** The same world, but the store refuses the order items; [rollback]
    says whether it also refuses to delete the order row again. *)
Definition items_refused (rollback : bool) : Env :=
  {| now := 1000; turnstile := Verified; productsError := false;
     shippingError := false; orderError := false; itemsError := true;
     rollbackError := rollback; historyError := false; cartError := false;
     numeric := hundredths;
     new_order_id := "o1"; new_public_token := "p1" |}.

Definition minute : Z := 60 * 1000.

(** The shop with the purchase event tied to delivery. *)
Definition shop_on_delivery : Db :=
  with_pending_tracking_events
    {| wilayas := wilayas shop; products := products shop;
       shipping_rates := shipping_rates shop; orders := orders shop;
       order_items := order_items shop;
       order_status_history := order_status_history shop;
       rate_limits := rate_limits shop; carts := carts shop;
       settings := [{| s_key := "purchase_event"; s_value := Some "delivered" |}];
       pending_tracking_events := [] |} [].

(** The Purchase event create-order fires for the order [o1]. *)
Definition purchase : TrackingEvent :=
  {| te_event_name := "Purchase"; te_event_id := "evt_1";
     te_phone := Some "0551234567"; te_value := Some (Js.number 540000);
     te_currency := Some "DZD"; te_order_id := Some "o1";
     te_content_ids := Some ["A"]; te_contents := None;
     te_user_data := None |}.

Definition configured : MetaServerEvents.Env :=
  {| MetaServerEvents.META_PIXEL_ID := Some "1234567890";
     MetaServerEvents.META_ACCESS_TOKEN := Some "EAAB";
     MetaServerEvents.eventTime := 1700000000;
     MetaServerEvents.meta := MetaServerEvents.Received 1 |}.

Definition unconfigured : MetaServerEvents.Env :=
  {| MetaServerEvents.META_PIXEL_ID := None;
     MetaServerEvents.META_ACCESS_TOKEN := None;
     MetaServerEvents.eventTime := 1700000000;
     MetaServerEvents.meta := MetaServerEvents.Received 1 |}.

(** One caller and one phone, for the sequences of requests below. *)
Definition caller : Headers := from "41.0.0.1".
Definition number : string := "0551234567".

(** A necklace, a minute later a ring, a minute later a ring again. *)
Definition necklace_then_ring_twice : list (Env * Headers * OrderRequest) :=
  [ (world 0 "o1", caller, order number [line "A" 1]);
    (world minute "o2", caller, order number [line "B" 1]);
    (world (2 * minute) "o3", caller, order number [line "B" 1]) ].

(** One and two necklaces as two lines, a minute later one and one. *)
Definition two_lines_then_other_quantity : list (Env * Headers * OrderRequest) :=
  [ (world 0 "o1", caller, order number [line "A" 1; line "A" 2]);
    (world minute "o2", caller, order number [line "A" 1; line "A" 1]) ].

(** The caller orders a necklace at minute [m] for the phone that ends
    in [k]; the order row gets the identifier "o" followed by [k]. *)
Definition visit (m : Z) (k : string) : Env * Headers * OrderRequest :=
  (world (m * minute) (String.append "o" k), caller,
   order (String.append "05500000" k) [line "A" 1]).

(** Ten orders of one caller within ten minutes, and an eleventh. *)
Definition ten_in_an_hour : list (Env * Headers * OrderRequest) :=
  [ visit 0 "00"; visit 1 "01"; visit 2 "02"; visit 3 "03"; visit 4 "04";
    visit 5 "05"; visit 6 "06"; visit 7 "07"; visit 8 "08"; visit 9 "09" ].

Definition eleventh : Env * Headers * OrderRequest := visit 10 "10".

(** One order, 59 minutes later nine more, and after the first window
    has run out two more: the last eleven lie within three minutes. *)
Definition across_two_windows : list (Env * Headers * OrderRequest) :=
  [ visit 0 "00";
    visit 59 "01"; visit 59 "02"; visit 59 "03"; visit 59 "04"; visit 59 "05";
    visit 59 "06"; visit 59 "07"; visit 59 "08"; visit 59 "09";
    visit 61 "10"; visit 62 "11" ].

(** Three orders for one phone within three minutes, from three callers,
    and a fourth. *)
Definition call (m : Z) (ip k : string) (pid : string)
    : Env * Headers * OrderRequest :=
  (world (m * minute) (String.append "o" k), from ip, order number [line pid 1]).

Definition three_for_a_phone : list (Env * Headers * OrderRequest) :=
  [ call 0 "41.0.0.1" "00" "A"; call 6 "41.0.0.2" "01" "A";
    call 12 "41.0.0.3" "02" "A" ].

Definition fourth : Env * Headers * OrderRequest :=
  call 18 "41.0.0.4" "03" "A".

(** Two orders of one caller, and three more after the hour has passed. *)
Definition into_a_second_window : list (Env * Headers * OrderRequest) :=
  [ visit 0 "00"; visit 1 "01"; visit 61 "02"; visit 62 "03"; visit 63 "04" ].

(** A stand-in for the digest where a closed term is evaluated. *)
Definition digest (s : string) : string := String.append "sha256:" s.

End Sample.

(* ------------------------------------------------------------------ *)
(** * The tiktok-server-events handler

    The function create-order calls second.  It reads the settings table
    and the admin roles and writes nothing. *)

Module TikTokServerEvents.

(** An element of [contents]; only [content_id] is required. *)
Record Contents : Type := {
  tc_content_id : string;
  tc_quantity : option Z;
  tc_price : option Z;
  tc_content_name : option string
}.

(** [interface TikTokEventRequest] *)
Record TikTokEventRequest : Type := {
  tt_event_name : string;
  tt_event_id : string;
  tt_phone : option string;
  tt_value : option PrimFloat.float;
  tt_currency : option string;
  tt_order_id : option string;
  tt_content_ids : option (list string);
  tt_content_name : option string;
  tt_contents : option (list Contents);
  tt_force_send : bool
}.

(** The headers of the call. *)
Record CallHeaders : Type := {
  authorization : option string;
  x_admin_token : option string;
  referer : option string;
  forwarded : Headers          (* cf-connecting-ip, x-forwarded-for, user-agent *)
}.

(** A row of admin_roles. *)
Record AdminRoleRow : Type := {
  ar_user_id : string;
  ar_role : string
}.

(** What the Events API answers to the POST of line 198. *)
Inductive TikTokOutcome : Type :=
| Answered (ok : bool) (code : option Z)   (* [resp.ok] and [data?.code] *)
| NoAnswer.                                (* [fetch] throws *)

Record Env : Type := {
  SUPABASE_SERVICE_ROLE_KEY : string;
  TIKTOK_ACCESS_TOKEN : option string;
  TIKTOK_PIXEL_ID : option string;
  TIKTOK_PIXEL_CODE : option string;
  getUser : string -> option string;   (* [supabase.auth.getUser]: the user id *)
  eventTime : Z;
  tiktok : TikTokOutcome
}.

(** [context.user] *)
Record User : Type := {
  u_client_ip_address : string;
  u_client_user_agent : string;
  u_phone : option (list string)
}.

(** [payload], lines 175-196. *)
Record Payload : Type := {
  pixel_code : string;
  event : string;
  p_event_id : string;
  timestamp : Z;
  user : User;
  page_url : string;
  page_referrer : string;
  p_currency : string;
  p_value : option PrimFloat.float;
  p_content_type : string;
  p_content_id : option string;
  p_contents : list Contents;
  p_content_name : option string;
  p_order_id : option string
}.

Record Call : Type := {
  access_token : string;
  payload : Payload
}.

Inductive Reply : Type :=
| Skipped          (* line 114: 200, not configured *)
| Unauthorized     (* lines 128 and 131: 401 *)
| Forbidden        (* line 139: 403 *)
| Deferred         (* line 155: 200, purchase_event=delivered *)
| Sent             (* line 216: 200 *)
| ApiError         (* line 212: 500 *)
| TrackingFailed.  (* line 219: 500 *)

Definition status_of (r : Reply) : Z :=
  match r with
  | Skipped | Deferred | Sent => 200
  | Unauthorized => 401
  | Forbidden => 403
  | ApiError | TrackingFailed => 500
  end.

(** [x || ""] *)
Definition or_empty (x : option string) : string :=
  match Js.or_else x None with
  | Some s => s
  | None => ""
  end.

(** [s.replace(pat, "")]: the first occurrence of [pat] is taken out. *)
Fixpoint remove_first (pat s : string) : string :=
  if String.prefix pat s then
    String.substring (String.length pat) (String.length s - String.length pat) s
  else
    match s with
    | EmptyString => EmptyString
    | String c s' => String c (remove_first pat s')
    end.

(** [header.replace("Bearer ", "").trim()] *)
Definition bearer (header : string) : string :=
  Js.trim (remove_first "Bearer " header).

(** [normalizeDzPhone], lines 230-236. *)
Definition normalizeDzPhone (phone : option string) : option string :=
  let p := Js.trim (or_empty phone) in
  if Regex.test phoneRegex p then
    Some (String.append "213" (Js.substring1 p))
  else None.

(** Lines 117-140: [None] when the caller may go on. *)
Definition authorize (env : Env) (h : CallHeaders)
    (admin_roles : list AdminRoleRow) : option Reply :=
  let authHeader := or_empty (authorization h) in
  let adminHeader := or_empty (x_admin_token h) in
  let isServiceCall := bearer authHeader =? SUPABASE_SERVICE_ROLE_KEY env in
  if isServiceCall then None
  else
    let token := bearer (or_empty (Js.or_else (Some adminHeader) (Some authHeader))) in
    if negb (Js.truthy token) then Some Unauthorized
    else
      match getUser env token with
      | None => Some Unauthorized
      | Some uid =>
          match Js.single (filter (fun r => ar_user_id r =? uid) admin_roles) with
          | None => Some Forbidden
          | Some _ => None
          end
      end.

(** Line 159. *)
Definition clientIP (h : Headers) : string :=
  or_empty (Js.or_else (cf_connecting_ip h)
              (Js.or_else (option_map Js.split_comma_head (x_forwarded_for h)) None)).

Section Hashing.

(** [sha256], lines 238-243. *)
Variable sha256 : string -> string.

(** Lines 162-171. *)
Definition user_of (h : CallHeaders) (body : TikTokEventRequest) : User :=
  {| u_client_ip_address := clientIP (forwarded h);
     u_client_user_agent := or_empty (user_agent (forwarded h));
     u_phone :=
       match Js.or_else (tt_phone body) None with
       | Some p =>
           match normalizeDzPhone (Some p) with
           | Some normalized => Some [sha256 normalized]
           | None => None
           end
       | None => None
       end |}.

(** Lines 173-196. *)
Definition payload_of (env : Env) (pixel : string) (h : CallHeaders)
    (body : TikTokEventRequest) : Payload :=
  {| pixel_code := pixel;
     event := tt_event_name body;
     p_event_id := tt_event_id body;
     timestamp := eventTime env;
     user := user_of h body;
     page_url := or_empty (referer h);
     page_referrer := or_empty (referer h);
     p_currency := match Js.or_else (tt_currency body) None with
                   | Some c => c
                   | None => "DZD"
                   end;
     p_value := tt_value body;
     p_content_type := "product";
     p_content_id := match tt_content_ids body with
                     | Some (first :: _) => Some first
                     | _ => None
                     end;
     p_contents :=
       match tt_contents body with
       | Some given => given
       | None =>
           map (fun id => {| tc_content_id := id; tc_quantity := None;
                             tc_price := None; tc_content_name := None |})
               match tt_content_ids body with Some ids => ids | None => [] end
       end;
     p_content_name := tt_content_name body;
     p_order_id := tt_order_id body |}.

(** Lines 207-216: what the answer of the platform is taken for. *)
Definition verdict (ok : bool) (code : option Z) : Reply :=
  let truthy_code := match code with Some n => negb (n =? 0)%Z | None => false end in
  if negb ok || truthy_code then
    if match code with Some n => (n =? 0)%Z | None => false end then Sent
    else ApiError
  else Sent.

(** The handler for a POST (lines 106-220). *)
Definition serve (env : Env) (h : CallHeaders) (body : TikTokEventRequest)
    (db : Db) (admin_roles : list AdminRoleRow) : Reply * list Call :=
  let tiktokAccessToken := or_empty (TIKTOK_ACCESS_TOKEN env) in
  let tiktokPixelId :=
    or_empty (Js.or_else (TIKTOK_PIXEL_ID env) (TIKTOK_PIXEL_CODE env)) in
  if negb (Js.truthy tiktokAccessToken) || negb (Js.truthy tiktokPixelId) then
    (Skipped, [])
  else
    match authorize env h admin_roles with
    | Some refusal => (refusal, [])
    | None =>
        if (tt_event_name body =? "Purchase")
           && negb (MetaServerEvents.missing (tt_order_id body))
           && negb (tt_force_send body)
           && (MetaServerEvents.purchaseEventTrigger db =? "delivered")
        then (Deferred, [])
        else
          let call := {| access_token := tiktokAccessToken;
                         payload := payload_of env tiktokPixelId h body |} in
          match tiktok env with
          | NoAnswer => (TrackingFailed, [call])
          | Answered ok code => (verdict ok code, [call])
          end
    end.

End Hashing.

(** The body create-order posts (lines 365-379 of create-order), read as a
    request of this handler. *)
Definition of_tracking_event (e : TrackingEvent) : TikTokEventRequest :=
  {| tt_event_name := te_event_name e;
     tt_event_id := te_event_id e;
     tt_phone := te_phone e;
     tt_value := te_value e;
     tt_currency := te_currency e;
     tt_order_id := te_order_id e;
     tt_content_ids := te_content_ids e;
     tt_content_name := None;
     tt_contents :=
       option_map
         (map (fun c => {| tc_content_id := content_id c;
                           tc_quantity := Some (content_quantity c);
                           tc_price := Some (content_price c);
                           tc_content_name := Some (content_name c) |}))
         (te_contents e);
     tt_force_send := false |}.

(** The headers create-order sends (lines 381-388 of create-order). *)
Definition service_call (key : string) : CallHeaders :=
  {| authorization := Some (String.append "Bearer " key);
     x_admin_token := None;
     referer := None;
     forwarded := {| cf_connecting_ip := None; x_forwarded_for := None;
                     user_agent := None |} |}.

(** The shape of a normalized phone, [/^213[567]\d{8}$/]: the country
    calling code, then the national number without its leading 0. *)
Definition internationalRegex : Regex.anchored :=
  [ (Regex.Lit "2"%char, 1%nat); (Regex.Lit "1"%char, 1%nat);
    (Regex.Lit "3"%char, 1%nat);
    (Regex.Class ["5"%char; "6"%char; "7"%char], 1%nat);
    (Regex.Digit, 8%nat) ].

End TikTokServerEvents.

(* ------------------------------------------------------------------ *)
(** * The get-order-public handler

    It reads orders, order_items and products and writes nothing. *)

Module GetOrderPublic.

(** The JSON body; a field that is absent is [None]. *)
Record Body : Type := {
  order_id : option string;
  public_token : option string
}.

(** The columns of an order the handler selects (lines 32-33). *)
Record PublicOrder : Type := {
  po_id : string;
  po_created_at : Z;
  po_full_name : string;
  po_phone : string;
  po_wilaya : string;
  po_commune : option string;
  po_address : option string;
  po_delivery_type : string;
  po_note : option string;
  po_subtotal : Z;
  po_shipping : Z;
  po_total : Z;
  po_status : string;
  po_public_token : string;
  po_event_id : string
}.

Definition public_order (o : OrderRow) : PublicOrder :=
  {| po_id := o_id o; po_created_at := o_created_at o;
     po_full_name := o_full_name o; po_phone := o_phone o;
     po_wilaya := o_wilaya o; po_commune := o_commune o;
     po_address := o_address o; po_delivery_type := o_delivery_type o;
     po_note := o_note o; po_subtotal := o_subtotal o;
     po_shipping := o_shipping o; po_total := o_total o;
     po_status := o_status o; po_public_token := o_public_token o;
     po_event_id := o_event_id o |}.

(** The columns of an item the handler selects (line 43), and the image
    it attaches. *)
Record PublicItem : Type := {
  pi_product_id : string;
  pi_product_name : string;
  pi_price : Z;
  pi_quantity : Z;
  pi_selected_size : option string;
  pi_selected_color : option string;
  pi_options : option Options;
  pi_image : option string
}.

(** The [id] and [images] columns of a products row (line 52); the other
    columns are those of [ProductRow]. *)
Record ProductImagesRow : Type := {
  img_id : string;
  img_images : option (list string)
}.

Record Env : Type := {
  orderErr : bool;        (* the orders query reports an error *)
  itemsFailed : bool;     (* the order_items query hands back no data *)
  prodsFailed : bool      (* the products query hands back no data *)
}.

Inductive Reply : Type :=
| BadRequest                                              (* line 26: 400 *)
| NotFound                                                (* line 39: 404 *)
| Found (order : PublicOrder) (items : list PublicItem).  (* line 62: 200 *)

Definition status_of (r : Reply) : Z :=
  match r with
  | BadRequest => 400
  | NotFound => 404
  | Found _ _ => 200
  end.

(** [String(x || "").trim()] *)
Definition field (x : option string) : string :=
  Js.trim (match Js.or_else x None with Some s => s | None => "" end).

(** [productsById[id]] after the [forEach] of line 54: the last row with
    the id decides. *)
Definition productsById (prods : list ProductImagesRow) (id : string)
    : option ProductImagesRow :=
  Js.find (fun p => img_id p =? id) (rev prods).

(** [productsById[it.product_id]?.images?.[0] || null] *)
Definition first_image (prods : list ProductImagesRow) (id : string)
    : option string :=
  match productsById prods id with
  | Some p =>
      match img_images p with
      | Some (first :: _) => Js.or_else (Some first) None
      | _ => None
      end
  | None => None
  end.

(** The handler for a POST (lines 16-66). *)
Definition serve (env : Env) (body : Body) (db : Db)
    (images : list ProductImagesRow) : Reply :=
  let id := field (order_id body) in
  let token := field (public_token body) in
  if negb (Js.truthy id) || negb (Js.truthy token) then BadRequest
  else
    match Js.single (filter (fun o => (o_id o =? id) && (o_public_token o =? token))
                            (orders db)) with
    | None => NotFound
    | Some order =>
        if orderErr env then NotFound
        else
          let items :=
            if itemsFailed env then []
            else filter (fun it => oi_order_id it =? o_id order) (order_items db) in
          let productIds :=
            filter Js.truthy (map oi_product_id items) in
          let prods :=
            match productIds with
            | [] => []
            | _ :: _ =>
                if prodsFailed env then []
                else filter (fun p => Js.includes productIds (img_id p)) images
            end in
          Found (public_order order)
                (map (fun it =>
                        {| pi_product_id := oi_product_id it;
                           pi_product_name := oi_product_name it;
                           pi_price := oi_price it;
                           pi_quantity := oi_quantity it;
                           pi_selected_size := oi_selected_size it;
                           pi_selected_color := oi_selected_color it;
                           pi_options := oi_options it;
                           pi_image := first_image prods (oi_product_id it) |})
                     items)
    end.

End GetOrderPublic.

(* ------------------------------------------------------------------ *)
(** * Requests handled one after the other *)

Module Bookkeeping.

(** No key has two counters whose window is open at instant [t]. *)
Definition one_active (t : Z) (table : list RateLimitRow) : Prop :=
  forall id ty,
    (List.length (Counters.active_rows id ty (CreateOrder.windowStart t) table)
     <= 1)%nat.

(** The clock of the requests never goes back, starting at [t]. *)
Fixpoint clock_from (t : Z) (reqs : list (Env * Headers * OrderRequest)) : Prop :=
  match reqs with
  | [] => True
  | (env, _, _) :: rest => t <= now env /\ clock_from (now env) rest
  end.

(** The instant of the last request, [t] when there is none. *)
Fixpoint last_clock (t : Z) (reqs : list (Env * Headers * OrderRequest)) : Z :=
  match reqs with
  | [] => t
  | (env, _, _) :: rest => last_clock (now env) rest
  end.

End Bookkeeping.

(* ------------------------------------------------------------------ *)
(** * A customer's visit

    The store after the order [o1] of the sample caller, and what the two
    other handlers are given for it. *)

Module Visit.

Definition placed : Db :=
  CreateOrder.store_after (Sample.world 1000 "o1") Sample.caller
    (Sample.order Sample.number [Sample.line "A" 2]) Sample.shop.

Definition receipt : GetOrderPublic.Body :=
  {| GetOrderPublic.order_id := Some "o1";
     GetOrderPublic.public_token := Some "pub-o1" |}.

Definition gallery : list GetOrderPublic.ProductImagesRow :=
  [ {| GetOrderPublic.img_id := "A";
       GetOrderPublic.img_images := Some ["a.jpg"; "b.jpg"] |};
    {| GetOrderPublic.img_id := "B";
       GetOrderPublic.img_images := None |} ].

Definition reader : GetOrderPublic.Env :=
  {| GetOrderPublic.orderErr := false;
     GetOrderPublic.itemsFailed := false;
     GetOrderPublic.prodsFailed := false |}.

Definition pixel : TikTokServerEvents.Env :=
  {| TikTokServerEvents.SUPABASE_SERVICE_ROLE_KEY := "service-role-key";
     TikTokServerEvents.TIKTOK_ACCESS_TOKEN := Some "tt-token";
     TikTokServerEvents.TIKTOK_PIXEL_ID := Some "C0PIXEL";
     TikTokServerEvents.TIKTOK_PIXEL_CODE := None;
     TikTokServerEvents.getUser := fun _ => None;
     TikTokServerEvents.eventTime := 1700000000;
     TikTokServerEvents.tiktok := TikTokServerEvents.Answered true (Some 0) |}.

End Visit.

(* ------------------------------------------------------------------ *)
(** * The cloudflare-images-upload handler

    It asks Cloudflare Images for a one-time upload URL on behalf of an
    admin and logs the request in audit_logs. *)

Module CloudflareImagesUpload.

(** The JSON body of the request; [contentType] is read and not used. *)
Record Body : Type := {
  filename : option string
}.

(** An element of [errors] in an answer of Cloudflare: [String(e?.code)]
    and [e?.message]. *)
Record CfError : Type := {
  err_code : string;
  err_message : option string
}.

(** [result] of an answer. *)
Record Upload : Type := {
  uploadURL : option string;
  id : option string
}.

(** The body of an answer of Cloudflare, parsed. *)
Record CfResult : Type := {
  cf_success : bool;                    (* [success] is truthy *)
  cf_errors : option (list CfError);    (* [errors], when it is an array *)
  cf_message : option string;
  cf_result : option Upload
}.

(** What a [fetch] of the direct-upload URL comes to. *)
Inductive CfAnswer : Type :=
| Threw                              (* [fetch] throws *)
| Parsed (r : option CfResult).      (* [null] when the body is not JSON *)

(** One POST to the direct-upload URL. *)
Record CfCall : Type := {
  account : string;
  api_token : string;
  as_form : bool;               (* multipart/form-data instead of JSON *)
  uploaded_by : string;
  call_filename : option string
}.

(** A row of audit_logs. *)
Record AuditLogRow : Type := {
  al_user_id : string;
  al_action : string;
  al_filename : option string
}.

Record Env : Type := {
  CLOUDFLARE_ACCOUNT_ID : string;
  CLOUDFLARE_IMAGES_API_TOKEN : string;
  getUser : string -> option string;   (* [supabase.auth.getUser]: the user id *)
  first_answer : CfAnswer;             (* to the JSON attempt *)
  second_answer : CfAnswer;            (* to the form attempt *)
  auditRefused : bool                  (* the store refuses the audit row *)
}.

Inductive Reply : Type :=
| Unauthorized                                         (* lines 31 and 41: 401 *)
| Forbidden                                            (* line 52: 403 *)
| CloudflareError (msg : string)                       (* line 120: 500 *)
| Created (url : option string) (image : option string)  (* line 130: 200 *)
| InternalError.                                       (* line 143: 500 *)

Definition status_of (r : Reply) : Z :=
  match r with
  | Unauthorized => 401
  | Forbidden => 403
  | CloudflareError _ | InternalError => 500
  | Created _ _ => 200
  end.

(** [directUploadResult?.success] *)
Definition succeeded (r : option CfResult) : bool :=
  match r with
  | Some res => cf_success res
  | None => false
  end.

(** Lines 91-92: [errs.some((e) => String(e?.code) === '5415')]. *)
Definition needsForm (r : option CfResult) : bool :=
  let errs := match r with
              | Some res => match cf_errors res with Some l => l | None => [] end
              | None => []
              end in
  existsb (fun e => err_code e =? "5415") errs.

(** Lines 115-118. *)
Definition msg_of (r : option CfResult) : string :=
  let first_message :=
    match r with
    | Some res =>
        match cf_errors res with
        | Some (e :: _) => err_message e
        | _ => None
        end
    | None => None
    end in
  let message := match r with Some res => cf_message res | None => None end in
  match Js.or_else first_message (Js.or_else message None) with
  | Some m => m
  | None => "Failed to create upload URL"
  end.

(** Lines 26-53: the user id of the admin, or the refusal. *)
Definition authenticate (env : Env) (h : TikTokServerEvents.CallHeaders)
    (admin_roles : list TikTokServerEvents.AdminRoleRow) : Reply + string :=
  match Js.or_else (TikTokServerEvents.x_admin_token h)
                   (TikTokServerEvents.authorization h) with
  | None => inl Unauthorized
  | Some tokenSource =>
      if negb (Js.truthy tokenSource) then inl Unauthorized
      else
        match getUser env (TikTokServerEvents.bearer tokenSource) with
        | None => inl Unauthorized
        | Some uid =>
            match Js.single
                    (filter (fun r => TikTokServerEvents.ar_user_id r =? uid)
                            admin_roles) with
            | None => inl Forbidden
            | Some _ => inr uid
            end
        end
  end.

Definition call_of (env : Env) (form : bool) (uid : string) (body : Body) : CfCall :=
  {| account := CLOUDFLARE_ACCOUNT_ID env;
     api_token := CLOUDFLARE_IMAGES_API_TOKEN env;
     as_form := form;
     uploaded_by := uid;
     call_filename := filename body |}.

(** Lines 124-128; what the store answers is not looked at. *)
Definition insert_audit (env : Env) (uid : string) (body : Body)
    (audit_logs : list AuditLogRow) : list AuditLogRow :=
  if auditRefused env then audit_logs
  else audit_logs ++ [{| al_user_id := uid;
                         al_action := "create_image_upload_url";
                         al_filename := filename body |}].

(** Lines 113-140, once the attempts are over. *)
Definition conclude (env : Env) (uid : string) (body : Body)
    (result : option CfResult) (calls : list CfCall)
    (audit_logs : list AuditLogRow) : Reply * list CfCall * list AuditLogRow :=
  if negb (succeeded result) then (CloudflareError (msg_of result), calls, audit_logs)
  else
    let logged := insert_audit env uid body audit_logs in
    match result with
    | Some {| cf_result := Some up |} => (Created (uploadURL up) (id up), calls, logged)
    | _ => (InternalError, calls, logged)    (* [result.uploadURL] of undefined *)
    end.

(** The handler for a POST (lines 18-144); the body is [None] when it is
    not JSON. *)
Definition serve (env : Env) (h : TikTokServerEvents.CallHeaders)
    (body : option Body) (admin_roles : list TikTokServerEvents.AdminRoleRow)
    (audit_logs : list AuditLogRow) : Reply * list CfCall * list AuditLogRow :=
  match authenticate env h admin_roles with
  | inl refusal => (refusal, [], audit_logs)
  | inr uid =>
      match body with
      | None => (InternalError, [], audit_logs)
      | Some body =>
          let call1 := call_of env false uid body in
          match first_answer env with
          | Threw => (InternalError, [call1], audit_logs)
          | Parsed result1 =>
              if negb (succeeded result1) && needsForm result1 then
                let call2 := call_of env true uid body in
                match second_answer env with
                | Threw => (InternalError, [call1; call2], audit_logs)
                | Parsed result2 =>
                    conclude env uid body result2 [call1; call2] audit_logs
                end
              else conclude env uid body result1 [call1] audit_logs
          end
      end
  end.

End CloudflareImagesUpload.

(* ------------------------------------------------------------------ *)
(** * The generate-config script

    It reads .env.local and .env, lets the process environment override
    them, and writes the seven public keys to config.js. *)

Module GenerateConfig.

Definition LF : ascii := "010"%char.
Definition CR : ascii := "013"%char.
Definition double_quote : ascii := "034"%char.
Definition single_quote : ascii := "039"%char.

Definition starts_with (c : ascii) (s : string) : bool :=
  match s with
  | String a _ => (a =? c)%char
  | EmptyString => false
  end.

Fixpoint ends_with (c : ascii) (s : string) : bool :=
  match s with
  | EmptyString => false
  | String a EmptyString => (a =? c)%char
  | String _ rest => ends_with c rest
  end.

(** [raw.split(/\r?\n/)]: a line ends at LF or at CR LF. *)
Fixpoint split_lines (raw : string) : list string :=
  match raw with
  | EmptyString => [EmptyString]
  | String c rest =>
      if (c =? LF)%char then EmptyString :: split_lines rest
      else if (c =? CR)%char && starts_with LF rest then split_lines rest
      else
        match split_lines rest with
        | line :: lines => String c line :: lines
        | [] => [String c EmptyString]
        end
  end.

(** [s.indexOf(c)] *)
Fixpoint index_of (c : ascii) (s : string) : option nat :=
  match s with
  | EmptyString => None
  | String a rest =>
      if (a =? c)%char then Some 0%nat else option_map S (index_of c rest)
  end.

(** Lines 31-34: one pair of surrounding quotes is taken off;
    [val.slice(1, -1)]. *)
Definition strip_quotes (val : string) : string :=
  if (starts_with double_quote val && ends_with double_quote val)
     || (starts_with single_quote val && ends_with single_quote val)
  then String.substring 1 (String.length val - 2) val
  else val.

(** The body of the loop of lines 24-36: the assignment a line makes. *)
Definition parse_line (line : string) : option (string * string) :=
  let trimmed := Js.trim line in
  if negb (Js.truthy trimmed) || starts_with "#"%char trimmed then None
  else
    match index_of "="%char trimmed with
    | None => None
    | Some idx =>
        let key := Js.trim (String.substring 0 idx trimmed) in
        let val :=
          Js.trim (String.substring (idx + 1) (String.length trimmed - (idx + 1))
                     trimmed) in
        Some (key, strip_quotes val)
    end.

(** The assignments of the lines, in file order. *)
Definition assignments (lines : list string) : list (string * string) :=
  flat_map (fun line => match parse_line line with
                        | Some kv => [kv]
                        | None => []
                        end) lines.

(** [parseDotEnv]; the file is [None] when it does not exist. *)
Definition parseDotEnv (file : option string) : list (string * string) :=
  match file with
  | None => []
  | Some raw => assignments (split_lines raw)
  end.

(** [out[key]] after the assignments: the last one of the key decides.
    (For a key that is no property of [Object.prototype], as the keys of
    [publicConfig] are.) *)
Definition lookup (out : list (string * string)) (key : string) : option string :=
  option_map snd (Js.find (fun kv => fst kv =? key) (rev out)).

(** [getEnv], lines 44-46: [process.env[key] ?? envLocal[key] ?? env[key] ?? ''] *)
Definition getEnv (process_env : string -> option string)
    (envLocal env : list (string * string)) (key : string) : string :=
  match process_env key with
  | Some v => v
  | None =>
      match lookup envLocal key with
      | Some v => v
      | None =>
          match lookup env key with
          | Some v => v
          | None => ""
          end
      end
  end.

Definition public_keys : list string :=
  [ "NEXT_PUBLIC_SUPABASE_URL"; "NEXT_PUBLIC_SUPABASE_ANON_KEY";
    "NEXT_PUBLIC_TURNSTILE_SITE_KEY"; "NEXT_PUBLIC_CF_IMAGES_ACCOUNT_ID";
    "NEXT_PUBLIC_GA_MEASUREMENT_ID"; "NEXT_PUBLIC_META_PIXEL_ID";
    "NEXT_PUBLIC_TIKTOK_PIXEL_ID" ].

(** [publicConfig], lines 48-56, from the process environment and the
    contents of the two files. *)
Definition publicConfig (process_env : string -> option string)
    (dot_env_local dot_env : option string) : list (string * string) :=
  map (fun key => (key, getEnv process_env (parseDotEnv dot_env_local)
                          (parseDotEnv dot_env) key))
      public_keys.

End GenerateConfig.

(* ------------------------------------------------------------------ *)
(** * White space and [trim] *)

Lemma strip_prefix_spec (w s r : string) :
  Js.strip_prefix w s = Some r <-> s = String.append w r.
Proof.
  revert s. induction w as [|a w IH]; intros s; cbn.
  - split; [now intros [= ->]|now intros ->].
  - destruct s as [|b s]; [split; discriminate|].
    destruct (Ascii.eqb_spec a b) as [->|N].
    + rewrite IH. split; [now intros ->|now intros [= ->]].
    + split; [discriminate|]. intros [= -> _]. contradiction.
Qed.

Lemma skip_space_some (s r : string) :
  Js.skip_space s = Some r ->
  exists w, In w Js.white_space /\ s = String.append w r.
Proof.
  unfold Js.skip_space. induction Js.white_space as [|w l IH]; cbn; [discriminate|].
  destruct (Js.strip_prefix w s) as [r'|] eqn:E.
  - intros [= ->]. apply strip_prefix_spec in E. eauto.
  - intros H. destruct (IH H) as (w' & Hw & Hs). eauto.
Qed.

Lemma skip_space_none (s : string) :
  Js.skip_space s = None <->
  forall w, In w Js.white_space -> Js.strip_prefix w s = None.
Proof.
  unfold Js.skip_space. induction Js.white_space as [|w l IH]; cbn.
  - split; [intros _ w []|reflexivity].
  - destruct (Js.strip_prefix w s) as [r'|] eqn:E.
    + split; [discriminate|]. intros H. specialize (H w (or_introl eq_refl)). congruence.
    + rewrite IH. split.
      * intros H w' [<-|Hw]; auto.
      * intros H w' Hw. apply H. now right.
Qed.

(** Of two strings that start the same string, one starts the other. *)
Lemma append_comparable (w w' r r' : string) :
  String.append w r = String.append w' r' ->
  (exists x, w' = String.append w x) \/ (exists x, w = String.append w' x).
Proof.
  revert w'. induction w as [|a w IH]; intros w'; cbn.
  - intros _. left. now exists w'.
  - destruct w' as [|b w']; cbn.
    + intros _. right. now exists (String a w).
    + intros [= -> H]. destruct (IH _ H) as [[x ->]|[x ->]]; [left|right]; now exists x.
Qed.

Lemma append_inj_l (w r r' : string) :
  String.append w r = String.append w r' -> r = r'.
Proof. induction w as [|a w IH]; cbn; [auto|]. intros [= H]. auto. Qed.

(** No white-space character starts another one. *)
Lemma white_space_prefix_free (w w' x : string) :
  In w Js.white_space -> In w' Js.white_space -> w' = String.append w x -> w' = w.
Proof.
  intros Hw Hw' E.
  assert (F : forallb (fun w => forallb (fun w' =>
                 match Js.strip_prefix w w' with
                 | Some _ => String.eqb w' w
                 | None => true
                 end) Js.white_space) Js.white_space = true) by (vm_compute; reflexivity).
  rewrite forallb_forall in F. specialize (F w Hw).
  rewrite forallb_forall in F. specialize (F w' Hw').
  apply strip_prefix_spec in E. rewrite E in F. now apply String.eqb_eq.
Qed.

Lemma skip_space_intro (w r : string) :
  In w Js.white_space -> Js.skip_space (String.append w r) = Some r.
Proof.
  intros Hw. destruct (Js.skip_space (String.append w r)) as [r'|] eqn:E.
  - apply skip_space_some in E as (w' & Hw' & E).
    assert (W : w' = w).
    { destruct (append_comparable _ _ _ _ E) as [[x Hx]|[x Hx]].
      - exact (white_space_prefix_free w w' x Hw Hw' Hx).
      - symmetry. exact (white_space_prefix_free w' w x Hw' Hw Hx). }
    subst w'. apply append_inj_l in E. now subst.
  - rewrite skip_space_none in E. specialize (E w Hw).
    assert (X : Js.strip_prefix w (String.append w r) = Some r)
      by now apply strip_prefix_spec.
    congruence.
Qed.

Lemma length_append (a b : string) :
  String.length (String.append a b) = (String.length a + String.length b)%nat.
Proof. induction a as [|c a IH]; [reflexivity|]. cbn. now rewrite IH. Qed.

Lemma white_space_not_empty (w : string) : In w Js.white_space -> w <> "".
Proof.
  intros Hw.
  assert (F : forallb (fun w => negb (String.eqb w "")) Js.white_space = true)
    by (vm_compute; reflexivity).
  rewrite forallb_forall in F. specialize (F w Hw).
  apply negb_true_iff in F. now apply String.eqb_neq.
Qed.

Lemma skip_space_length (s r : string) :
  Js.skip_space s = Some r -> (String.length r < String.length s)%nat.
Proof.
  intros (w & Hw & ->)%skip_space_some. rewrite length_append.
  apply white_space_not_empty in Hw. destruct w; [contradiction|cbn; lia].
Qed.

Lemma trim_start_n_fuel (n m : nat) (s : string) :
  (String.length s <= n)%nat -> (String.length s <= m)%nat ->
  Js.trim_start_n n s = Js.trim_start_n m s.
Proof.
  revert m s. induction n as [|n IH]; intros m s Hn Hm.
  - destruct s; [|cbn in Hn; lia]. now destruct m.
  - cbn [Js.trim_start_n]. destruct (Js.skip_space s) as [r|] eqn:E.
    + pose proof (skip_space_length _ _ E) as L.
      destruct m as [|m]; [lia|]. cbn [Js.trim_start_n]. rewrite E.
      apply IH; lia.
    + destruct m; cbn [Js.trim_start_n]; [reflexivity|now rewrite E].
Qed.

Lemma trim_start_n_enough (n : nat) (s : string) :
  (String.length s <= n)%nat -> Js.trim_start_n n s = Js.trim_start s.
Proof. intros H. apply trim_start_n_fuel; [exact H|lia]. Qed.

(** The equation of [trimStart]. *)
Lemma trim_start_eq (s : string) :
  Js.trim_start s = match Js.skip_space s with
                    | Some r => Js.trim_start r
                    | None => s
                    end.
Proof.
  unfold Js.trim_start at 1. destruct (String.length s) as [|n] eqn:L.
  - destruct s; [|discriminate]. reflexivity.
  - cbn [Js.trim_start_n]. destruct (Js.skip_space s) as [r|] eqn:E; [|reflexivity].
    apply trim_start_n_enough. apply skip_space_length in E. lia.
Qed.

Lemma trim_start_length (s : string) :
  (String.length (Js.trim_start s) <= String.length s)%nat.
Proof.
  remember (String.length s) as n eqn:Hn. revert s Hn.
  induction n as [n IH] using lt_wf_ind. intros s ->.
  rewrite trim_start_eq. destruct (Js.skip_space s) as [r|] eqn:E; [|lia].
  pose proof (skip_space_length _ _ E) as L.
  specialize (IH _ L r eq_refl). lia.
Qed.

Lemma trim_end_length (s : string) :
  (String.length (Js.trim_end s) <= String.length s)%nat.
Proof.
  induction s as [|c s IH]; [reflexivity|]. cbn [Js.trim_end]. cbv zeta.
  destruct (Js.white (String c (Js.trim_end s))); cbn [String.length]; lia.
Qed.

(** A string that [trim] leaves as it is starts and ends with no white
    space. *)
Lemma trim_fixed (s : string) :
  Js.trim s = s -> Js.trim_start s = s /\ Js.trim_end s = s.
Proof.
  unfold Js.trim. intros H.
  assert (L : String.length (Js.trim_start s) = String.length s).
  { pose proof (trim_start_length s). pose proof (trim_end_length (Js.trim_start s)).
    rewrite H in *. lia. }
  assert (S : Js.trim_start s = s).
  { rewrite trim_start_eq in L |- *.
    destruct (Js.skip_space s) as [r|] eqn:E; [|reflexivity].
    pose proof (skip_space_length _ _ E). pose proof (trim_start_length r). lia. }
  split; [exact S|]. now rewrite S in H.
Qed.

(** No white-space character holds a plain byte. *)
Lemma white_space_no_plain (w : string) (c : ascii) :
  In w Js.white_space -> In c (list_ascii_of_string w) -> Js.plain c = false.
Proof.
  intros Hw Hc.
  assert (F : forallb (fun w => forallb (fun c => negb (Js.plain c))
                                  (list_ascii_of_string w)) Js.white_space = true)
    by (vm_compute; reflexivity).
  rewrite forallb_forall in F. specialize (F w Hw).
  rewrite forallb_forall in F. specialize (F c Hc).
  now apply negb_true_iff.
Qed.

Lemma white_In (s : string) : Js.white s = true <-> In s Js.white_space.
Proof.
  unfold Js.white. rewrite existsb_exists. split.
  - intros (w & Hw & E). apply String.eqb_eq in E. now subst.
  - intros H. exists s. split; [exact H|apply String.eqb_refl].
Qed.

Lemma list_ascii_append (a b : string) :
  list_ascii_of_string (String.append a b)
  = list_ascii_of_string a ++ list_ascii_of_string b.
Proof. induction a as [|c a IH]; [reflexivity|]. cbn. now rewrite IH. Qed.

(** A string that holds a plain byte is no white-space character. *)
Lemma white_plain (a b : string) (x : ascii) :
  Js.plain x = true -> Js.white (String.append a (String x b)) = false.
Proof.
  intros Hx. destruct (Js.white _) eqn:W; [|reflexivity].
  apply white_In in W.
  assert (P : Js.plain x = false).
  { apply (white_space_no_plain _ x W). rewrite list_ascii_append.
    apply in_or_app. right. now left. }
  congruence.
Qed.

(** A plain byte stops [trimEnd]. *)
Lemma trim_end_plain (a b : string) (x : ascii) :
  Js.plain x = true ->
  Js.trim_end (String.append a (String x b))
  = String.append a (String x (Js.trim_end b)).
Proof.
  intros Hx. induction a as [|c a IH].
  - pose proof (white_plain "" (Js.trim_end b) x Hx) as W.
    cbn [String.append Js.trim_end] in *. cbv zeta. now rewrite W.
  - pose proof (white_plain (String c a) (Js.trim_end b) x Hx) as W.
    cbn [String.append Js.trim_end] in *. rewrite IH. cbv zeta. now rewrite W.
Qed.

(** What starts with a white-space character within [a ++ x ...], [x]
    plain, starts with it within [a]. *)
Lemma append_plain_split (w a b r : string) (x : ascii) :
  ~ In x (list_ascii_of_string w) ->
  String.append a (String x b) = String.append w r ->
  exists a', a = String.append w a' /\ r = String.append a' (String x b).
Proof.
  revert a. induction w as [|c w IH]; intros a Hx; cbn.
  - intros <-. now exists a.
  - destruct a as [|d a]; cbn.
    + intros [= -> _]. exfalso. apply Hx. now left.
    + intros [= -> E]. destruct (IH a) as (a' & -> & ->); [|exact E|].
      * intros H. apply Hx. now right.
      * now exists a'.
Qed.

Lemma skip_space_plain (a b : string) (x : ascii) :
  Js.plain x = true ->
  Js.skip_space (String.append a (String x b))
  = option_map (fun a' => String.append a' (String x b)) (Js.skip_space a).
Proof.
  intros Hx.
  destruct (Js.skip_space a) as [a'|] eqn:E; cbn [option_map].
  - apply skip_space_some in E as (w & Hw & ->).
    assert (X : String.append (String.append w a') (String x b)
                = String.append w (String.append a' (String x b))).
    { clear. induction w as [|c w IH]; [reflexivity|]. cbn. now rewrite IH. }
    rewrite X. now apply skip_space_intro.
  - destruct (Js.skip_space (String.append a (String x b))) as [r|] eqn:F;
      [|reflexivity].
    apply skip_space_some in F as (w & Hw & F).
    destruct (append_plain_split w a b r x) as (a' & -> & _); [|exact F|].
    + intros H. pose proof (white_space_no_plain w x Hw H). congruence.
    + rewrite (skip_space_intro w a' Hw) in E. discriminate.
Qed.

(** A plain byte stops [trimStart]. *)
Lemma trim_start_plain (a b : string) (x : ascii) :
  Js.plain x = true ->
  Js.trim_start (String.append a (String x b))
  = String.append (Js.trim_start a) (String x b).
Proof.
  intros Hx. remember (String.length a) as n eqn:Hn. revert a Hn.
  induction n as [n IH] using lt_wf_ind. intros a ->.
  rewrite (trim_start_eq (String.append a (String x b))), (trim_start_eq a).
  rewrite (skip_space_plain a b x Hx).
  destruct (Js.skip_space a) as [a'|] eqn:E; cbn [option_map]; [|reflexivity].
  apply (IH _ (skip_space_length _ _ E) a' eq_refl).
Qed.

(** [trim] around a plain byte. *)
Lemma trim_plain (a b : string) (x : ascii) :
  Js.plain x = true ->
  Js.trim (String.append a (String x b))
  = String.append (Js.trim_start a) (String x (Js.trim_end b)).
Proof.
  intros Hx. unfold Js.trim. rewrite (trim_start_plain a b x Hx).
  now apply trim_end_plain.
Qed.

(** A string of plain bytes is left as it is. *)
Lemma trim_end_clean (s : string) :
  Forall (fun c => Js.plain c = true) (list_ascii_of_string s) -> Js.trim_end s = s.
Proof.
  induction s as [|c s IH]; [reflexivity|]. intros H.
  cbn [list_ascii_of_string] in H. inversion H as [|? ? Hc Hs]; subst.
  change (String c s) with (String.append "" (String c s)).
  rewrite (trim_end_plain "" s c Hc). now rewrite (IH Hs).
Qed.

Lemma trim_clean (s : string) :
  Forall (fun c => Js.plain c = true) (list_ascii_of_string s) -> Js.trim s = s.
Proof.
  intros H. pose proof (trim_end_clean s H) as E.
  destruct s as [|c s]; [reflexivity|].
  cbn [list_ascii_of_string] in H. inversion H as [|? ? Hc Hs]; subst.
  change (String c s) with (String.append "" (String c s)).
  rewrite (trim_plain "" s c Hc). now rewrite (trim_end_clean s Hs).
Qed.

Lemma append_assoc (a b c : string) :
  String.append (String.append a b) c = String.append a (String.append b c).
Proof. induction a as [|x a IH]; [reflexivity|]. cbn. now rewrite IH. Qed.

(** The white-space characters of more than one byte hold no ASCII byte. *)
Lemma white_space_ascii (w : string) (c : ascii) :
  In w Js.white_space -> In c (list_ascii_of_string w) ->
  (nat_of_ascii c <? 128)%nat = true -> w = String c "".
Proof.
  intros Hw Hc H7.
  assert (F : forallb (fun w => forallb (fun c => negb (nat_of_ascii c <? 128)%nat
                                                  || String.eqb w (String c ""))
                                  (list_ascii_of_string w)) Js.white_space = true)
    by (vm_compute; reflexivity).
  rewrite forallb_forall in F. specialize (F w Hw).
  rewrite forallb_forall in F. specialize (F c Hc).
  rewrite H7 in F. cbn in F. now apply String.eqb_eq.
Qed.

Lemma is_space_ascii (c : ascii) :
  Js.is_space c = true -> (nat_of_ascii c <? 128)%nat = true.
Proof. destruct c as [[] [] [] [] [] [] [] []]; vm_compute; congruence. Qed.

Lemma trim_end_space (s : string) (c : ascii) :
  Js.is_space c = true ->
  Js.trim_end (String.append s (String c "")) = Js.trim_end s.
Proof.
  intros Hc. induction s as [|x s IH]; cbn [String.append Js.trim_end]; cbv zeta.
  - unfold Js.is_space in Hc. now rewrite Hc.
  - now rewrite IH.
Qed.

Lemma append_snoc_split (s w r : string) (c : ascii) :
  String.append s (String c "") = String.append w r ->
  (r = "" /\ w = String.append s (String c ""))
  \/ exists r', r = String.append r' (String c "") /\ s = String.append w r'.
Proof.
  revert s. induction w as [|a w IH]; intros s; cbn.
  - intros <-. right. now exists s.
  - destruct s as [|b s]; cbn.
    + intros [= -> E]. left. destruct w; [|discriminate]. cbn in E. now subst.
    + intros [= -> E]. destruct (IH s E) as [[-> ->]|(r' & -> & ->)].
      * now left.
      * right. now exists r'.
Qed.

Lemma skip_space_space (s : string) (c : ascii) :
  Js.is_space c = true -> s <> "" ->
  Js.skip_space (String.append s (String c ""))
  = option_map (fun r => String.append r (String c "")) (Js.skip_space s).
Proof.
  intros Hc Hs.
  destruct (Js.skip_space s) as [r|] eqn:E; cbn [option_map].
  - apply skip_space_some in E as (w & Hw & ->).
    rewrite append_assoc. now apply skip_space_intro.
  - destruct (Js.skip_space (String.append s (String c ""))) as [r|] eqn:F;
      [|reflexivity].
    apply skip_space_some in F as (w & Hw & F).
    destruct (append_snoc_split s w r c F) as [[-> ->]|(r' & -> & ->)].
    + exfalso.
      assert (W : String.append s (String c "") = String c "").
      { apply (white_space_ascii _ c Hw).
        - rewrite list_ascii_append. apply in_or_app. right. now left.
        - now apply is_space_ascii. }
      destruct s as [|b s]; [contradiction|]. cbn in W. injection W as _ W.
      now destruct s.
    + rewrite (skip_space_intro w r' Hw) in E. discriminate.
Qed.

(** White space of one byte at the end goes. *)
Lemma trim_space (s : string) (c : ascii) :
  Js.is_space c = true -> Js.trim (String.append s (String c "")) = Js.trim s.
Proof.
  intros Hc. unfold Js.trim.
  remember (String.length s) as n eqn:Hn. revert s Hn.
  induction n as [n IH] using lt_wf_ind. intros s ->.
  destruct s as [|b s].
  - cbn [String.append].
    assert (W : In (String c "") Js.white_space) by now apply white_In.
    rewrite trim_start_eq.
    change (String c "") with (String.append (String c "") "").
    now rewrite (skip_space_intro _ "" W).
  - rewrite (trim_start_eq (String.append (String b s) (String c ""))),
      (trim_start_eq (String b s)).
    rewrite (skip_space_space (String b s) c Hc) by discriminate.
    destruct (Js.skip_space (String b s)) as [r|] eqn:E; cbn [option_map].
    + apply (IH _ (skip_space_length _ _ E) r eq_refl).
    + now apply trim_end_space.
Qed.

(* ------------------------------------------------------------------ *)
(** * The phone pattern *)

Lemma is_digit_decimal (c : ascii) :
  Regex.is_digit c = Spec.decimal_digit c.
Proof.
  destruct c as [[] [] [] [] [] [] [] []]; reflexivity.
Qed.

Ltac split_if :=
  match goal with
  | |- context [if ?c then _ else _] => destruct c eqn:?
  end.

Lemma phoneRegex_national_mobile (s : string) :
  Regex.test phoneRegex s = Spec.national_mobile s.
Proof.
  unfold phoneRegex, Spec.national_mobile.
  cbn [Regex.test Regex.eat Regex.atom_matches existsb].
  destruct s as [|a s]; [reflexivity|].
  destruct s as [|b s]; [cbn; now repeat split_if|].
  cbn [list_ascii_of_string].
  destruct (a =? "0")%char; [|reflexivity].
  cbn [andb orb].
  destruct (b =? "5")%char, (b =? "6")%char, (b =? "7")%char; cbn [andb orb];
    try reflexivity;
    do 9 (destruct s as [|? s]; cbn [list_ascii_of_string forallb List.length Nat.eqb andb];
          rewrite <- ?is_digit_decimal;
          repeat split_if; cbn [andb]; try reflexivity).
Qed.

(* ------------------------------------------------------------------ *)
(** * A request that is turned down leaves the store as it was *)

Import CreateOrder.

Lemma with_orders_same (db : Db) : with_orders db (orders db) = db.
Proof. destruct db; reflexivity. Qed.

Lemma filter_app_fresh {A : Type} (f : A -> bool) (l : list A) (x : A) :
  existsb (fun y => negb (f y)) l = false -> f x = false ->
  filter f (l ++ [x]) = l.
Proof.
  intros Hl Hx. rewrite filter_app. cbn. rewrite Hx, app_nil_r.
  induction l as [|y l IH]; [reflexivity|].
  cbn in Hl |- *. apply orb_false_iff in Hl as [Hy Hl].
  apply negb_false_iff in Hy. rewrite Hy. f_equal. now apply IH.
Qed.

Lemma existsb_ext {A : Type} (f g : A -> bool) (l : list A) :
  (forall x, f x = g x) -> existsb f l = existsb g l.
Proof.
  intros H. induction l as [|x l IH]; [reflexivity|].
  cbn. now rewrite H, IH.
Qed.

(** Deleting the row that [insert_order] has just added gives back the
    store as it was before the insert, when the store carries the delete
    out. *)
Lemma delete_inserted_order (env : Env) (row : OrderRow) (db db1 : Db) :
  rollbackError env = false ->
  insert_order env row db = Some db1 ->
  delete_order env (o_id row) db1 = db.
Proof.
  unfold insert_order, delete_order. intros ->.
  destruct (orderError env || _) eqn:E; [discriminate|].
  intros [= <-]. apply orb_false_iff in E as [_ E]. cbn.
  rewrite filter_app_fresh.
  - destruct db; reflexivity.
  - rewrite <- E. apply existsb_ext. intros o. apply negb_involutive.
  - now rewrite String.eqb_refl.
Qed.

(** What an error answer leaves behind: the store as it was, unless the
    items were refused and the compensating delete after them, which
    leaves the order row. *)
Lemma create_error_store env h body db ip ph priced msg st :
  snd (fst (create env h body db ip ph priced)) = errorResponse msg st ->
  fst (fst (create env h body db ip ph priced)) = db
  \/ (itemsError env = true /\ rollbackError env = true
      /\ msg = OrderCreationFailed /\ st = 500
      /\ fst (fst (create env h body db ip ph priced))
         = with_orders db (orders db ++ [order_row env h body priced])).
Proof.
  unfold create.
  destruct (insert_order _ _ db) as [db1|] eqn:Hins; [|now left].
  destruct (itemsError env); [|discriminate].
  cbn [fst snd]. intros [= <- <-]. destruct (rollbackError env) eqn:B.
  - right. repeat split. unfold delete_order. rewrite B.
    unfold insert_order in Hins.
    destruct (orderError env || _); [discriminate|]. now injection Hins as <-.
  - left. now apply (delete_inserted_order env (order_row env h body priced)).
Qed.

Lemma serve_error_store env h body db msg st :
  response env h body db = errorResponse msg st ->
  store_after env h body db = db
  \/ (itemsError env = true /\ rollbackError env = true
      /\ msg = OrderCreationFailed /\ st = 500
      /\ exists priced,
           pricing env body db = inr priced
           /\ store_after env h body db
              = with_orders db (orders db ++ [order_row env h body priced])).
Proof.
  unfold response, store_after, serve.
  destruct (validation body db); [now left|].
  destruct (turnstile env); try (now left).
  destruct (rate_limiting _ _ _ _) as [r|[ip ph]]; [now left|].
  destruct (duplicate_detection _ _ _); [now left|].
  destruct (pricing _ _ _) as [r|priced]; [now left|].
  intros H.
  destruct (create_error_store _ _ _ _ _ _ _ _ _ H) as [E|(I & B & M & S & E)];
    [now left|right; eauto 10].
Qed.

(** An error answer leaves every table but the orders as it was. *)
Lemma serve_error_tables env h body db msg st :
  response env h body db = errorResponse msg st ->
  wilayas (store_after env h body db) = wilayas db
  /\ products (store_after env h body db) = products db
  /\ shipping_rates (store_after env h body db) = shipping_rates db
  /\ order_items (store_after env h body db) = order_items db
  /\ order_status_history (store_after env h body db) = order_status_history db
  /\ rate_limits (store_after env h body db) = rate_limits db
  /\ carts (store_after env h body db) = carts db
  /\ settings (store_after env h body db) = settings db
  /\ pending_tracking_events (store_after env h body db)
     = pending_tracking_events db.
Proof.
  intros H.
  destruct (serve_error_store _ _ _ _ _ _ H)
    as [-> | (_ & _ & _ & _ & priced & _ & ->)];
    repeat split; reflexivity.
Qed.

(** With the compensating delete carried out, or the items accepted, an
    error answer leaves the store as it was. *)
Lemma serve_error_unchanged env h body db msg st :
  itemsError env = false \/ rollbackError env = false ->
  response env h body db = errorResponse msg st ->
  store_after env h body db = db.
Proof.
  intros C H.
  destruct (serve_error_store _ _ _ _ _ _ H) as [E | (I & B & _)]; [exact E|].
  destruct C; congruence.
Qed.

Lemma serve_error_rate_limits env h body db msg st :
  response env h body db = errorResponse msg st ->
  rate_limits (store_after env h body db) = rate_limits db.
Proof. intros H. now destruct (serve_error_tables _ _ _ _ _ _ H) as (_ & _ & _ & _ & _ & R & _). Qed.

(** Only the persistence error can come with a changed store. *)
Lemma serve_error_unchanged_status env h body db msg st :
  response env h body db = errorResponse msg st -> st <> 500 ->
  store_after env h body db = db.
Proof.
  intros H N.
  destruct (serve_error_store _ _ _ _ _ _ H) as [E | (_ & _ & _ & S & _)];
    [exact E|contradiction].
Qed.

(** A request the pricing stage turns down leaves the store as it was. *)
Lemma serve_unpriced_unchanged env h body db r :
  pricing env body db = inl r -> store_after env h body db = db.
Proof.
  intros P. unfold store_after, serve.
  destruct (validation body db); [reflexivity|].
  destruct (turnstile env); try reflexivity.
  destruct (rate_limiting _ _ _ _) as [r'|[ip ph]]; [reflexivity|].
  destruct (duplicate_detection _ _ _); [reflexivity|].
  now rewrite P.
Qed.

Lemma serve_error_no_fetch env h body db msg st :
  response env h body db = errorResponse msg st ->
  snd (serve env h body db) = [].
Proof.
  unfold response, serve.
  destruct (validation body db); [reflexivity|].
  destruct (turnstile env); try reflexivity.
  destruct (rate_limiting _ _ _ _) as [r|[ip ph]]; [reflexivity|].
  destruct (duplicate_detection _ _ _); [reflexivity|].
  destruct (pricing _ _ _) as [r|priced]; [reflexivity|].
  unfold create. destruct (insert_order _ _ db); [|reflexivity].
  destruct (itemsError env); [reflexivity|discriminate].
Qed.

(* ------------------------------------------------------------------ *)
(** * Pricing from the catalog *)

Lemma includes_In (ids : list string) (x : string) :
  Js.includes ids x = true <-> In x ids.
Proof.
  unfold Js.includes. rewrite existsb_exists. split.
  - intros (y & Hy & E). apply String.eqb_eq in E. now subst.
  - intros H. exists x. split; [assumption|apply String.eqb_refl].
Qed.

(** Looking a referenced product up in the batch the query returned is
    looking it up in the catalog. *)
Lemma find_select_products (db : Db) (ids : list string) (pid : string) :
  In pid ids ->
  Js.find (fun p => p_id p =? pid) (select_products db ids)
  = List.find (fun p => p_id p =? pid) (products db).
Proof.
  intros Hin. unfold select_products, Js.find.
  induction (products db) as [|p l IH]; [reflexivity|].
  cbn. destruct (Js.includes ids (p_id p)) eqn:Hinc; cbn.
  - destruct (p_id p =? pid); [reflexivity|exact IH].
  - destruct (p_id p =? pid) eqn:E; [|exact IH].
    apply String.eqb_eq in E. rewrite E in Hinc.
    apply includes_In in Hin. congruence.
Qed.

(** The running subtotal of the handler is the sum in doubles over the
    catalog. *)
Lemma orderItems_of_total (db : Db) (ids : list string) (cart : list CartItem)
    (acc : PrimFloat.float) :
  incl (map product_id cart) ids ->
  option_map snd (orderItems_of (select_products db ids) cart acc)
  = Spec.sum_of_lines_in_doubles db cart acc.
Proof.
  revert acc. induction cart as [|item rest IH]; intros acc Hincl.
  - reflexivity.
  - cbn [orderItems_of Spec.sum_of_lines_in_doubles].
    rewrite find_select_products by (apply Hincl; now left).
    unfold Spec.server_price.
    destruct (List.find _ (products db)) as [p|]; [|reflexivity].
    cbn [option_map].
    assert (Hrest : incl (map product_id rest) ids)
      by (intros x Hx; apply Hincl; now right).
    rewrite <- (IH _ Hrest).
    now destruct (orderItems_of _ rest _) as [[items final]|].
Qed.

(** The sum in doubles is defined exactly when the exact sum is: when
    every product of the cart has a catalog row. *)
Lemma sums_defined_together (db : Db) (cart : list CartItem)
    (acc : PrimFloat.float) :
  (exists d, Spec.sum_of_lines_in_doubles db cart acc = Some d)
  <-> (exists s, Spec.sum_of_lines db cart = Some s).
Proof.
  revert acc. induction cart as [|item rest IH]; intros acc.
  - cbn. split; eauto.
  - cbn [Spec.sum_of_lines_in_doubles Spec.sum_of_lines].
    destruct (Spec.server_price db (product_id item)) as [price|].
    + rewrite IH. split.
      * intros [s ->]. eauto.
      * destruct (Spec.sum_of_lines db rest); [eauto|]. intros [s [=]].
    + split; intros [x [=]].
Qed.

Lemma single_filter_find {A : Type} (f : A -> bool) (l : list A) (r : A) :
  Js.single (filter f l) = Some r -> List.find f l = Some r.
Proof.
  induction l as [|a l IH]; [discriminate|].
  cbn. destruct (f a); [|exact IH].
  cbn. destruct (filter f l); [|discriminate]. now intros [= ->].
Qed.

(** What a successful pricing stage has computed. *)
Lemma pricing_inr (env : Env) (body : OrderRequest) (db : Db) (priced : Priced) :
  pricing env body db = inr priced ->
  Spec.sum_of_lines_in_doubles db (cart_items body) (Js.of_Z 0)
  = Some (subtotal priced)
  /\ (exists s, Spec.sum_of_lines db (cart_items body) = Some s)
  /\ Spec.shipping_rate db (wilaya body) (delivery_type body)
     = Some (shipping priced)
  /\ total priced
     = PrimFloat.add (subtotal priced) (Js.number (shipping priced)).
Proof.
  unfold pricing.
  destruct (productsError env || _); [discriminate|].
  destruct (0 <? _)%nat; [discriminate|].
  pose proof (orderItems_of_total db (productIds body) (cart_items body)
                (Js.of_Z 0) (incl_refl _)) as Htot.
  destruct (orderItems_of _ _ (Js.of_Z 0)) as [[items sub]|]; [|discriminate].
  destruct (select_shipping_rate db body) as [rate|] eqn:Hrate; [|discriminate].
  destruct (shippingError env || negb (sr_is_enabled rate)) eqn:Hen; [discriminate|].
  intros [= <-]. cbn [subtotal shipping total].
  apply orb_false_iff in Hen as [_ Hen]. apply negb_false_iff in Hen.
  cbn [option_map snd] in Htot.
  split; [now symmetry|]. split; [|split; [|reflexivity]].
  - apply (sums_defined_together db (cart_items body) (Js.of_Z 0)). eauto.
  - unfold Spec.shipping_rate. unfold select_shipping_rate in Hrate.
    apply single_filter_find in Hrate. rewrite Hrate, Hen. reflexivity.
Qed.

Lemma orderItems_of_missing (found : list ProductRow) (cart : list CartItem)
    (acc : PrimFloat.float) (item : CartItem) :
  In item cart ->
  Js.find (fun p => p_id p =? product_id item) found = None ->
  orderItems_of found cart acc = None.
Proof.
  revert acc. induction cart as [|c rest IH]; intros acc Hin Hnone; [easy|].
  cbn. destruct Hin as [->|Hin].
  - now rewrite Hnone.
  - destruct (Js.find (fun p => p_id p =? product_id c) found); [|reflexivity].
    now rewrite (IH _ Hin Hnone).
Qed.

Lemma In_select_products (db : Db) (body : OrderRequest) (p : ProductRow)
    (item : CartItem) :
  In p (products db) -> In item (cart_items body) ->
  p_id p = product_id item ->
  In p (select_products db (productIds body)).
Proof.
  intros Hp Hitem Hid. unfold select_products. apply filter_In. split; [assumption|].
  apply includes_In. rewrite Hid. unfold productIds. now apply in_map.
Qed.

Lemma length_zero_nil {A : Type} (l : list A) :
  (0 <? List.length l)%nat = false -> l = [].
Proof. destruct l; [reflexivity|discriminate]. Qed.

(** The pricing stage turns down a cart that refers to a missing or an
    inactive product. *)
Lemma pricing_rejects (env : Env) (body : OrderRequest) (db : Db) :
  Spec.missing_or_inactive db (cart_items body) ->
  exists msg st, pricing env body db = inl (errorResponse msg st).
Proof.
  intros (item & Hitem & Hbad). unfold pricing.
  destruct (productsError env || _); [eauto|].
  destruct (0 <? _)%nat eqn:Hinactive; [eauto|].
  apply length_zero_nil in Hinactive.
  destruct Hbad as [Hnone|(p & Hp & Hid & Hoff)].
  - rewrite (orderItems_of_missing _ _ (Js.of_Z 0) item Hitem); [eauto|].
    rewrite find_select_products; [assumption|].
    unfold productIds. now apply in_map.
  - exfalso.
    assert (Hin : In p (filter (fun p => negb (p_is_active p))
                               (select_products db (productIds body)))).
    { apply filter_In. split.
      - now apply (In_select_products db body p item).
      - now rewrite Hoff. }
    rewrite Hinactive in Hin. exact Hin.
Qed.

Lemma all_active_sum (db : Db) (cart : list CartItem) :
  Spec.all_active db cart -> exists s, Spec.sum_of_lines db cart = Some s.
Proof.
  induction cart as [|item rest IH]; intros Hall; [now exists 0|].
  destruct IH as [s Hs]; [intros i Hi; apply Hall; now right|].
  destruct (Hall item (or_introl eq_refl)) as [(p & Hp & Hid) _].
  cbn. rewrite Hs. unfold Spec.server_price.
  destruct (List.find _ (products db)) as [q|] eqn:Hfind; cbn; [eauto|].
  exfalso. pose proof (find_none _ _ Hfind p Hp) as Hq. cbn in Hq.
  rewrite Hid, String.eqb_refl in Hq. discriminate.
Qed.

(** The pricing stage succeeds on a non-empty cart of existing, active
    products when the one rate of the region is enabled and the store
    answers both queries. *)
Lemma pricing_succeeds (env : Env) (body : OrderRequest) (db : Db)
    (rate : ShippingRateRow) :
  Spec.all_active db (cart_items body) ->
  cart_items body <> [] ->
  productsError env = false -> shippingError env = false ->
  select_shipping_rate db body = Some rate -> sr_is_enabled rate = true ->
  exists priced, pricing env body db = inr priced.
Proof.
  intros Hall Hcart Hpe Hse Hrate Hen. unfold pricing. rewrite Hpe, Hrate, Hse, Hen.
  cbn [orb negb].
  destruct (List.length _ =? 0)%nat eqn:Hlen.
  { exfalso. destruct (cart_items body) as [|item rest] eqn:Ecart; [easy|].
    destruct (Hall item (or_introl eq_refl)) as [(p & Hp & Hid) _].
    assert (Hin : In p (select_products db (productIds body))).
    { apply (In_select_products db body p item); try assumption.
      rewrite Ecart. now left. }
    destruct (select_products db (productIds body)); [easy|discriminate]. }
  assert (Hnone : filter (fun p => negb (p_is_active p))
                         (select_products db (productIds body)) = []).
  { destruct (filter _ _) as [|q l] eqn:Hf; [reflexivity|exfalso].
    assert (Hq : In q (q :: l)) by now left.
    rewrite <- Hf in Hq. apply filter_In in Hq as [Hq Hoff].
    apply filter_In in Hq as [Hq Hinc]. apply includes_In in Hinc.
    unfold productIds in Hinc. apply in_map_iff in Hinc as (item & Hid & Hitem).
    destruct (Hall item Hitem) as [_ Hact].
    rewrite (Hact q Hq (eq_sym Hid)) in Hoff. discriminate. }
  rewrite Hnone. cbn [List.length Nat.ltb Nat.leb].
  destruct (proj2 (sums_defined_together db (cart_items body) (Js.of_Z 0))
              (all_active_sum db (cart_items body) Hall)) as [d Hd].
  pose proof (orderItems_of_total db (productIds body) (cart_items body)
                (Js.of_Z 0) (incl_refl _)) as Htot.
  rewrite Hd in Htot.
  destruct (orderItems_of _ _ (Js.of_Z 0)) as [[items sub]|]; [eauto|discriminate].
Qed.

(* ------------------------------------------------------------------ *)
(** * The shape of an accepted request *)

Lemma validation_some (body : OrderRequest) (db : Db) (r : Response) :
  validation body db = Some r -> exists msg, r = errorResponse msg 400.
Proof.
  unfold validation.
  repeat (match goal with
          | |- context [if ?c then _ else _] => destruct c
          | |- context [match ?x with _ => _ end] => destruct x
          end; try discriminate; try (intros [= <-]; eauto)).
Qed.

Lemma rate_limiting_inl (t : Z) (ip : string) (body : OrderRequest) (db : Db)
    (r : Response) :
  rate_limiting t ip body db = inl r -> exists msg, r = errorResponse msg 429.
Proof.
  unfold rate_limiting.
  destruct (reached _ 10); [intros [= <-]; eauto|].
  destruct (reached _ 3); [intros [= <-]; eauto|discriminate].
Qed.

Lemma duplicate_detection_some (t : Z) (body : OrderRequest) (db : Db)
    (r : Response) :
  duplicate_detection t body db = Some r -> r = errorResponse AlreadyRegistered 400.
Proof.
  unfold duplicate_detection.
  destruct (recentOrders t body db); [discriminate|].
  destruct (isDuplicate _ _); [now intros [= <-]|discriminate].
Qed.

Lemma pricing_inl (env : Env) (body : OrderRequest) (db : Db) (r : Response) :
  pricing env body db = inl r -> exists msg st, r = errorResponse msg st.
Proof.
  unfold pricing.
  repeat (match goal with
          | |- context [if ?c then _ else _] => destruct c
          | |- context [match ?x with _ => _ end] => destruct x
          end; try discriminate; try (intros [= <-]; eauto)).
Qed.

Lemma serve_success (env : Env) (h : Headers) (body : OrderRequest) (db : Db)
    (id tok : string) (t : PrimFloat.float) :
  response env h body db = success id tok t ->
  exists ipl phl priced db1,
    validation body db = None /\ turnstile env = Verified
    /\ rate_limiting (now env) (clientIP h) body db = inr (ipl, phl)
    /\ duplicate_detection (now env) body db = None
    /\ pricing env body db = inr priced
    /\ insert_order env (order_row env h body priced) db = Some db1
    /\ itemsError env = false
    /\ id = new_order_id env /\ tok = new_public_token env /\ t = total priced
    /\ store_after env h body db
       = delete_cart env body
           (record_rate_limit (phone body) "phone" phl (now env)
              (record_rate_limit (clientIP h) "ip" ipl (now env)
                 (insert_status_history env id
                    (insert_order_items
                       (map (item_row (cart_items body) id) (orderItems priced))
                       db1)))).
Proof.
  unfold response, store_after, serve.
  destruct (validation body db) eqn:V;
    [apply validation_some in V as (m & ->); discriminate|].
  destruct (turnstile env); try discriminate.
  destruct (rate_limiting _ _ _ _) as [r|[ipl phl]] eqn:R;
    [apply rate_limiting_inl in R as (m & ->); discriminate|].
  destruct (duplicate_detection _ _ _) eqn:D;
    [apply duplicate_detection_some in D as ->; discriminate|].
  destruct (pricing _ _ _) as [r|priced] eqn:P;
    [apply pricing_inl in P as (m & st & ->); discriminate|].
  unfold create.
  destruct (insert_order _ _ db) as [db1|] eqn:I; [|discriminate].
  destruct (itemsError env) eqn:IE; [discriminate|].
  cbv zeta. cbn [fst snd]. intros [= <- <- <-].
  exists ipl, phl, priced, db1. repeat split; try reflexivity; assumption.
Qed.

(* ------------------------------------------------------------------ *)
(** * No stage reads a price the client sent *)

Section ClientPrices.

Variable body : OrderRequest.
Let bare := Spec.without_client_prices body.

Lemma forallb_strip (f : CartItem -> bool) (cart : list CartItem) :
  (forall item, f (Spec.without_client_price item) = f item) ->
  forallb f (map Spec.without_client_price cart) = forallb f cart.
Proof.
  intros H. induction cart as [|item rest IH]; [reflexivity|].
  cbn. now rewrite H, IH.
Qed.

Lemma productIds_strip : productIds bare = productIds body.
Proof.
  unfold productIds, bare. cbn. rewrite map_map. reflexivity.
Qed.

Lemma isDuplicate_strip (recent : list OrderItemRow) :
  isDuplicate recent (cart_items bare) = isDuplicate recent (cart_items body).
Proof.
  unfold isDuplicate, bare. cbn. rewrite length_map.
  f_equal. now apply forallb_strip.
Qed.

Lemma orderItems_of_strip (found : list ProductRow) (cart : list CartItem)
    (acc : PrimFloat.float) :
  orderItems_of found (map Spec.without_client_price cart) acc
  = orderItems_of found cart acc.
Proof.
  revert acc. induction cart as [|item rest IH]; intros acc; [reflexivity|].
  cbn. destruct (Js.find _ found); [|reflexivity]. now rewrite IH.
Qed.

Lemma find_strip (f : CartItem -> bool) (cart : list CartItem) :
  (forall item, f (Spec.without_client_price item) = f item) ->
  option_map options (Js.find f (map Spec.without_client_price cart))
  = option_map options (Js.find f cart).
Proof.
  intros H. induction cart as [|item rest IH]; [reflexivity|].
  cbn. rewrite H. destruct (f item); [reflexivity|exact IH].
Qed.

Lemma optionsByProductId_strip (pid : string) :
  optionsByProductId (cart_items bare) pid
  = optionsByProductId (cart_items body) pid.
Proof.
  unfold optionsByProductId, bare. cbn. rewrite <- map_rev.
  now apply find_strip.
Qed.

Lemma validation_strip (db : Db) : validation bare db = validation body db.
Proof.
  unfold validation, bare. cbn. now destruct (cart_items body).
Qed.

Lemma duplicate_detection_strip (t : Z) (db : Db) :
  duplicate_detection t bare db = duplicate_detection t body db.
Proof.
  unfold duplicate_detection.
  change (recentOrders t bare db) with (recentOrders t body db).
  destruct (recentOrders t body db); [reflexivity|].
  now rewrite isDuplicate_strip.
Qed.

Lemma pricing_strip (env : Env) (db : Db) :
  pricing env bare db = pricing env body db.
Proof.
  unfold pricing. rewrite productIds_strip.
  change (cart_items bare) with (map Spec.without_client_price (cart_items body)).
  rewrite orderItems_of_strip. reflexivity.
Qed.

Lemma create_strip (env : Env) (h : Headers) (db : Db)
    (ipl phl : option Z) (priced : Priced) :
  create env h bare db ipl phl priced = create env h body db ipl phl priced.
Proof.
  unfold create.
  change (order_row env h bare priced) with (order_row env h body priced).
  destruct (insert_order _ _ db); [|reflexivity].
  destruct (itemsError env); [reflexivity|].
  cbv zeta. unfold trackingData, tiktokTrackingData. rewrite productIds_strip.
  assert (Hrow : forall id it,
             item_row (cart_items bare) id it = item_row (cart_items body) id it).
  { intros id it. unfold item_row. now rewrite optionsByProductId_strip. }
  rewrite (map_ext _ _ (Hrow (new_order_id env))). reflexivity.
Qed.

Lemma serve_strip (env : Env) (h : Headers) (db : Db) :
  serve env h bare db = serve env h body db.
Proof.
  unfold serve.
  rewrite validation_strip, duplicate_detection_strip, pricing_strip.
  change (rate_limiting (now env) (clientIP h) bare db)
    with (rate_limiting (now env) (clientIP h) body db).
  destruct (validation body db); [reflexivity|].
  destruct (turnstile env); try reflexivity.
  destruct (rate_limiting _ _ _ _) as [r|[ipl phl]]; [reflexivity|].
  destruct (duplicate_detection _ _ _); [reflexivity|].
  destruct (pricing _ _ _); [reflexivity|].
  apply create_strip.
Qed.

End ClientPrices.

Lemma same_but_client_prices_bare (a b : OrderRequest) :
  Spec.same_but_client_prices a b ->
  Spec.without_client_prices a = Spec.without_client_prices b.
Proof.
  intros (H1 & H2 & H3 & H4 & H5 & H6 & H7 & H8 & H9 & H10 & H11).
  unfold Spec.without_client_prices. congruence.
Qed.

Lemma serve_ignores_client_prices (env : Env) (h : Headers) (a b : OrderRequest)
    (db : Db) :
  Spec.same_but_client_prices a b -> serve env h a db = serve env h b db.
Proof.
  intros H. rewrite <- (serve_strip a), <- (serve_strip b).
  now rewrite (same_but_client_prices_bare a b H).
Qed.

(* ------------------------------------------------------------------ *)
(** * The tables of the store after an accepted request *)

Lemma insert_order_some (env : Env) (row : OrderRow) (db db1 : Db) :
  insert_order env row db = Some db1 ->
  db1 = with_orders db (orders db ++ [row])
  /\ orderError env = false
  /\ existsb (fun o => o_id o =? o_id row) (orders db) = false.
Proof.
  unfold insert_order. destruct (orderError env || _) eqn:E; [discriminate|].
  apply orb_false_iff in E as [E1 E2]. intros [= <-]. auto.
Qed.

Lemma record_rate_limit_tables (id ty : string) (l : option Z) (t : Z) (db : Db) :
  orders (record_rate_limit id ty l t db) = orders db
  /\ order_items (record_rate_limit id ty l t db) = order_items db
  /\ carts (record_rate_limit id ty l t db) = carts db.
Proof. destruct l; repeat split; reflexivity. Qed.

Lemma delete_cart_tables (env : Env) (body : OrderRequest) (db : Db) :
  orders (delete_cart env body db) = orders db
  /\ order_items (delete_cart env body db) = order_items db
  /\ rate_limits (delete_cart env body db) = rate_limits db.
Proof.
  unfold delete_cart. destruct (cart_id body) as [id|]; [|auto].
  destruct (Js.truthy id && negb (cartError env)); auto.
Qed.

Lemma record_rate_limit_rows (id ty : string) (l : option Z) (t : Z) (db : Db) :
  rate_limits (record_rate_limit id ty l t db)
  = Counters.record_rows id ty l t (rate_limits db).
Proof. now destruct l. Qed.

Lemma serve_success_tables (env : Env) (h : Headers) (body : OrderRequest)
    (db : Db) (id tok : string) (t : PrimFloat.float) :
  response env h body db = success id tok t ->
  exists ipl phl priced,
    rate_limiting (now env) (clientIP h) body db = inr (ipl, phl)
    /\ pricing env body db = inr priced
    /\ t = total priced /\ id = new_order_id env
    /\ orders (store_after env h body db)
       = orders db ++ [order_row env h body priced]
    /\ order_items (store_after env h body db)
       = order_items db ++ map (item_row (cart_items body) id) (orderItems priced)
    /\ rate_limits (store_after env h body db)
       = Counters.recorded (clientIP h) (phone body) ipl phl (now env) (rate_limits db).
Proof.
  intros H.
  destruct (serve_success _ _ _ _ _ _ _ H)
    as (ipl & phl & priced & db1 & _ & _ & R & _ & P & I & _ & Hid & _ & Ht & S).
  exists ipl, phl, priced. rewrite S.
  apply insert_order_some in I as (-> & _ & _).
  destruct (delete_cart_tables env body
              (record_rate_limit (phone body) "phone" phl (now env)
                 (record_rate_limit (clientIP h) "ip" ipl (now env)
                    (insert_status_history env id
                       (insert_order_items
                          (map (item_row (cart_items body) id) (orderItems priced))
                          (with_orders db (orders db ++ [order_row env h body priced])))))))
    as (-> & -> & ->).
  unfold insert_status_history.
  repeat split; try assumption.
  - now destruct ipl, phl, (historyError env).
  - now destruct ipl, phl, (historyError env).
  - unfold Counters.recorded. rewrite !record_rate_limit_rows.
    now destruct (historyError env).
Qed.

(* ------------------------------------------------------------------ *)
(** * The claims about pricing, rejection and rollback *)

(** C1.  The server prices the order, and it does so in doubles.  Whenever
    an order is accepted, the answered total is the sum over the cart of
    the catalog price times the quantity, plus the enabled shipping rate of
    the region and delivery type, as double arithmetic gives it: each price
    taken as the double nearest to it, every product and every sum rounded
    to a double, in cart order.  The order row holds what its DECIMAL(10,2)
    columns keep of that subtotal and of that total, and the rate itself.
    The pricing stage does succeed on a non-empty cart of existing, active
    products with an enabled rate; and two requests that differ only in
    the prices the client wrote into the cart are handled identically
    (same store, same answer, same outbound calls).

    The sum in doubles is not always the decimal sum.  One charm at 100.09
    with office delivery at 400.00 makes 500.09; the handler answers, and
    sends to both tracking functions, the next double above the one of
    500.09 (it prints as 500.09000000000003), while a column that rounds
    to the hundredth stores 500.09. *)
Theorem total_is_priced_by_the_server :
  (forall env h body db id tok t,
      response env h body db = success id tok t ->
      exists sub ship dsub row,
        Spec.sum_of_lines db (cart_items body) = Some sub
        /\ Spec.shipping_rate db (wilaya body) (delivery_type body) = Some ship
        /\ Spec.sum_of_lines_in_doubles db (cart_items body) (Js.of_Z 0)
           = Some dsub
        /\ t = PrimFloat.add dsub (Js.number ship)
        /\ orders (store_after env h body db) = orders db ++ [row]
        /\ o_id row = id /\ o_subtotal row = numeric env dsub
        /\ o_shipping row = ship /\ o_total row = numeric env t)
  /\ (forall env body db rate,
        Spec.all_active db (cart_items body) -> cart_items body <> [] ->
        productsError env = false -> shippingError env = false ->
        select_shipping_rate db body = Some rate -> sr_is_enabled rate = true ->
        exists priced,
          pricing env body db = inr priced
          /\ Spec.sum_of_lines_in_doubles db (cart_items body) (Js.of_Z 0)
             = Some (subtotal priced)
          /\ shipping priced = sr_price rate
          /\ total priced
             = PrimFloat.add (subtotal priced) (Js.number (sr_price rate)))
  /\ (forall env h a b db,
        Spec.same_but_client_prices a b -> serve env h a db = serve env h b db)
  /\ (let env := Sample.world 1000 "o1" in
      let h := Sample.from "41.0.0.1" in
      let body := Sample.order "0551234567" [Sample.line "K" 1] in
      let answered := PrimFloat.next_up (Js.number 50009) in
      Spec.sum_of_lines Sample.kiosk (cart_items body) = Some 10009
      /\ Spec.shipping_rate Sample.kiosk "16" "office" = Some 40000
      /\ response env h body Sample.kiosk = success "o1" "pub-o1" answered
      /\ PrimFloat.ltb (Js.number 50009) answered = true
      /\ answered <> Js.number 50009
      /\ map (fun f => te_value (fetch_body f)) (snd (serve env h body Sample.kiosk))
         = [Some answered; Some answered]
      /\ map o_total (orders (store_after env h body Sample.kiosk)) = [50009]).
Proof.
  split; [|split; [|split]].
  - intros env h body db id tok t H.
    destruct (serve_success_tables _ _ _ _ _ _ _ H)
      as (ipl & phl & priced & _ & P & -> & -> & Ho & _).
    destruct (pricing_inr _ _ _ _ P) as (Hd & [sub Hsub] & Hship & Htot).
    exists sub, (shipping priced), (subtotal priced), (order_row env h body priced).
    cbn [o_id o_subtotal o_shipping o_total order_row].
    repeat split; assumption || reflexivity.
  - intros env body db rate Hall Hcart Hpe Hse Hrate Hen.
    destruct (pricing_succeeds env body db rate Hall Hcart Hpe Hse Hrate Hen)
      as [priced P].
    destruct (pricing_inr _ _ _ _ P) as (Hd & _ & Hship & Htot).
    assert (Hs : shipping priced = sr_price rate).
    { unfold Spec.shipping_rate in Hship. unfold select_shipping_rate in Hrate.
      apply single_filter_find in Hrate. rewrite Hrate, Hen in Hship.
      now injection Hship. }
    exists priced. rewrite <- Hs. auto.
  - intros env h a b db. apply serve_ignores_client_prices.
  - cbv zeta. do 4 (split; [vm_compute; reflexivity|]).
    split; [|split; vm_compute; reflexivity].
    intros E.
    apply (f_equal (fun x => PrimFloat.eqb x (Js.number 50009))) in E.
    vm_compute in E. discriminate.
Qed.

(** The example of the specification: two necklaces at 2500.00 with a
    client price of 0.01 each, office delivery at 400.00, make 5400.00;
    here the doubles are exact. *)
Lemma total_is_priced_by_the_server_example :
  response (Sample.world 1000 "o1") (Sample.from "41.0.0.1")
    (Sample.order "0551234567"
       [{| product_id := "A"; quantity := 2; options := None;
           client_price := Some 1 |}])
    Sample.shop
  = success "o1" "pub-o1" (Js.number 540000)
  /\ exists sub ship dsub row,
      Spec.sum_of_lines Sample.shop
        [{| product_id := "A"; quantity := 2; options := None;
            client_price := Some 1 |}] = Some sub
      /\ Spec.shipping_rate Sample.shop "16" "office" = Some ship
      /\ Spec.sum_of_lines_in_doubles Sample.shop
           [{| product_id := "A"; quantity := 2; options := None;
               client_price := Some 1 |}] (Js.of_Z 0) = Some dsub
      /\ Js.number 540000 = PrimFloat.add dsub (Js.number ship)
      /\ orders (store_after (Sample.world 1000 "o1") (Sample.from "41.0.0.1")
                   (Sample.order "0551234567"
                      [{| product_id := "A"; quantity := 2; options := None;
                          client_price := Some 1 |}])
                   Sample.shop) = orders Sample.shop ++ [row]
      /\ o_id row = "o1"
      /\ o_subtotal row = numeric (Sample.world 1000 "o1") dsub
      /\ o_shipping row = ship
      /\ o_total row = numeric (Sample.world 1000 "o1") (Js.number 540000).
Proof.
  split; [vm_compute; reflexivity|].
  apply (proj1 total_is_priced_by_the_server
           (Sample.world 1000 "o1") (Sample.from "41.0.0.1")
           (Sample.order "0551234567"
              [{| product_id := "A"; quantity := 2; options := None;
                  client_price := Some 1 |}])
           Sample.shop "o1" "pub-o1" (Js.number 540000)).
  vm_compute. reflexivity.
Defined.

(** Against C2 as stated.  The order row goes in, the store refuses the
    items and then the delete of line 281: the request is answered with an
    error, and the orders table has one row more than before, an order
    without items. *)
Lemma rejected_request_counterexample :
  let env := Sample.items_refused true in
  let body := Sample.order "0551234567" [Sample.line "A" 2] in
  response env (Sample.from "41.0.0.1") body Sample.shop
  = errorResponse OrderCreationFailed 500
  /\ orders Sample.shop = []
  /\ map o_id (orders (store_after env (Sample.from "41.0.0.1") body Sample.shop))
     = ["o1"]
  /\ order_items (store_after env (Sample.from "41.0.0.1") body Sample.shop) = [].
Proof. repeat split; reflexivity. Qed.

(** C2, amended.  A request that is answered with an error, whatever the
    failure (validation, bot verification, rate limit, duplicate, pricing,
    persistence), adds no order item row, changes or adds no rate-limit
    row, deletes no cart and fires no tracking call.  It leaves the whole
    store exactly as it found it, the orders table included, in every case
    but one: when the order row was stored, the items were refused and the
    store refuses the compensating delete as well, the answer is the
    persistence error and that one order row stays at the end of the orders
    table. *)
Theorem rejected_request_changes_nothing
    (env : Env) (h : Headers) (body : OrderRequest) (db : Db)
    (msg : Message) (st : Z) :
  response env h body db = errorResponse msg st ->
  order_items (store_after env h body db) = order_items db
  /\ rate_limits (store_after env h body db) = rate_limits db
  /\ carts (store_after env h body db) = carts db
  /\ snd (serve env h body db) = []
  /\ (store_after env h body db = db
      \/ (itemsError env = true /\ rollbackError env = true
          /\ msg = OrderCreationFailed /\ st = 500
          /\ exists priced,
               pricing env body db = inr priced
               /\ store_after env h body db
                  = with_orders db (orders db ++ [order_row env h body priced])))
  /\ (itemsError env = false \/ rollbackError env = false ->
      store_after env h body db = db).
Proof.
  intros H.
  destruct (serve_error_tables _ _ _ _ _ _ H)
    as (_ & _ & _ & Hi & _ & Hr & Hc & _).
  split; [exact Hi|]. split; [exact Hr|]. split; [exact Hc|].
  split; [exact (serve_error_no_fetch _ _ _ _ _ _ H)|].
  split; [exact (serve_error_store _ _ _ _ _ _ H)|].
  intros C. exact (serve_error_unchanged _ _ _ _ _ _ C H).
Qed.

(** A persistence failure: the order row goes in, the items are refused,
    the delete is carried out, and the store ends as it began. *)
Lemma rejected_request_changes_nothing_witness :
  let env := Sample.items_refused false in
  let body := Sample.order "0551234567" [Sample.line "A" 2] in
  response env (Sample.from "41.0.0.1") body Sample.shop
  = errorResponse OrderCreationFailed 500
  /\ order_items (store_after env (Sample.from "41.0.0.1") body Sample.shop)
     = order_items Sample.shop
  /\ rate_limits (store_after env (Sample.from "41.0.0.1") body Sample.shop)
     = rate_limits Sample.shop
  /\ carts (store_after env (Sample.from "41.0.0.1") body Sample.shop)
     = carts Sample.shop
  /\ snd (serve env (Sample.from "41.0.0.1") body Sample.shop) = []
  /\ store_after env (Sample.from "41.0.0.1") body Sample.shop = Sample.shop.
Proof.
  cbv zeta. split; [reflexivity|].
  destruct (rejected_request_changes_nothing (Sample.items_refused false)
              (Sample.from "41.0.0.1")
              (Sample.order "0551234567" [Sample.line "A" 2])
              Sample.shop OrderCreationFailed 500 eq_refl)
    as (Hi & Hr & Hc & Hf & _ & Hs).
  exact (conj Hi (conj Hr (conj Hc (conj Hf (Hs (or_intror eq_refl)))))).
Defined.

(** Against C6 as stated.  The order row o1 goes in, the items are
    refused, and the store refuses the delete of line 281 too: the answer
    is the same error, and order o1 remains in the store without any
    item. *)
Lemma items_failure_counterexample :
  let env := Sample.items_refused true in
  let h := Sample.from "41.0.0.1" in
  let body := Sample.order "0551234567" [Sample.line "A" 2] in
  duplicate_detection (now env) body Sample.shop = None
  /\ response env h body Sample.shop = errorResponse OrderCreationFailed 500
  /\ existsb (fun o => o_id o =? "o1") (orders (store_after env h body Sample.shop))
     = true
  /\ existsb (fun it => oi_order_id it =? "o1")
       (order_items (store_after env h body Sample.shop)) = false.
Proof. repeat split; reflexivity. Qed.

(** C6, amended.  When the order row has been inserted and the insertion
    of the items is refused, the handler asks the store to delete the row
    it has just inserted and answers with the persistence error, without
    looking at what the store answers to the delete.  When the store
    carries the delete out, the store is back to what it was and no order
    with the new identifier remains.  When the store refuses it, the order
    row stays, with no item added for it, and the answer is the same. *)
Theorem items_failure_rolls_the_order_back
    (env : Env) (h : Headers) (body : OrderRequest) (db db1 : Db)
    (ipl phl : option Z) (priced : Priced) :
  validation body db = None -> turnstile env = Verified ->
  rate_limiting (now env) (clientIP h) body db = inr (ipl, phl) ->
  duplicate_detection (now env) body db = None ->
  pricing env body db = inr priced ->
  insert_order env (order_row env h body priced) db = Some db1 ->
  itemsError env = true ->
  In (order_row env h body priced) (orders db1)
  /\ serve env h body db
     = (delete_order env (new_order_id env) db1,
        errorResponse OrderCreationFailed 500, [])
  /\ (rollbackError env = false ->
      store_after env h body db = db
      /\ forall o, In o (orders (store_after env h body db)) ->
                   o_id o <> new_order_id env)
  /\ (rollbackError env = true ->
      store_after env h body db = db1
      /\ orders (store_after env h body db)
         = orders db ++ [order_row env h body priced]
      /\ order_items (store_after env h body db) = order_items db).
Proof.
  intros V T R D P I E.
  assert (S : serve env h body db
              = (delete_order env (new_order_id env) db1,
                 errorResponse OrderCreationFailed 500, [])).
  { unfold serve. rewrite V, T, R, D, P. unfold create. now rewrite I, E. }
  split; [|split; [exact S|split]].
  - destruct (insert_order_some _ _ _ _ I) as (-> & _ & _).
    cbn. apply in_or_app. right. now left.
  - intros B.
    pose proof (delete_inserted_order _ _ _ _ B I) as Hback. cbn in Hback.
    destruct (insert_order_some _ _ _ _ I) as (_ & _ & Hfresh).
    unfold store_after. rewrite S. cbn [fst]. rewrite Hback.
    split; [reflexivity|].
    intros o Ho Hid.
    assert (Hex : existsb (fun o => o_id o =? o_id (order_row env h body priced))
                          (orders db) = true).
    { apply existsb_exists. exists o. split; [assumption|].
      cbn. rewrite Hid. apply String.eqb_refl. }
    congruence.
  - intros B. unfold store_after. rewrite S. cbn [fst].
    unfold delete_order. rewrite B.
    destruct (insert_order_some _ _ _ _ I) as (-> & _ & _).
    repeat split.
Qed.

Lemma items_failure_rolls_the_order_back_witness :
  let env := Sample.items_refused false in
  let h := Sample.from "41.0.0.1" in
  let body := Sample.order "0551234567" [Sample.line "A" 2] in
  exists db1,
    insert_order env (order_row env h body
                        {| orderItems := [{| item_product_id := "A";
                                             item_product_name := "Necklace";
                                             item_price := 250000;
                                             item_quantity := 2 |}];
                           subtotal := Js.number 500000; shipping := 40000;
                           total := Js.number 540000 |}) Sample.shop = Some db1
    /\ serve env h body Sample.shop
       = (delete_order env "o1" db1, errorResponse OrderCreationFailed 500, [])
    /\ store_after env h body Sample.shop = Sample.shop
    /\ forall o, In o (orders (store_after env h body Sample.shop)) -> o_id o <> "o1".
Proof.
  cbv zeta. eexists. split; [reflexivity|].
  destruct (items_failure_rolls_the_order_back
              (Sample.items_refused false) (Sample.from "41.0.0.1")
              (Sample.order "0551234567" [Sample.line "A" 2])
              Sample.shop _ None None _
              eq_refl eq_refl eq_refl eq_refl eq_refl eq_refl eq_refl)
    as (_ & S & Hback & _).
  split; [exact S|]. exact (Hback eq_refl).
Defined.

(** C7. When a product of the cart is missing from the catalog, or is
    inactive, the request is answered with an error and neither the orders
    table nor the order_items table changes. *)
Theorem missing_or_inactive_product_fails
    (env : Env) (h : Headers) (body : OrderRequest) (db : Db) :
  Spec.missing_or_inactive db (cart_items body) ->
  exists msg st,
    response env h body db = errorResponse msg st
    /\ orders (store_after env h body db) = orders db
    /\ order_items (store_after env h body db) = order_items db.
Proof.
  intros Hbad.
  destruct (response env h body db) as [id tok t|msg st] eqn:H.
  - exfalso.
    destruct (serve_success _ _ _ _ _ _ _ H)
      as (_ & _ & priced & _ & _ & _ & _ & _ & P & _).
    destruct (pricing_rejects env body db Hbad) as (m & s & P').
    congruence.
  - exists msg, st.
    destruct (pricing_rejects env body db Hbad) as (m & s & P').
    rewrite (serve_unpriced_unchanged _ h _ _ _ P'). auto.
Qed.

Lemma missing_or_inactive_product_fails_witness :
  Spec.missing_or_inactive Sample.shop [Sample.line "A" 1; Sample.line "C" 1]
  /\ exists msg st,
      response (Sample.world 1000 "o1") (Sample.from "41.0.0.1")
        (Sample.order "0551234567" [Sample.line "A" 1; Sample.line "C" 1])
        Sample.shop = errorResponse msg st
      /\ orders (store_after (Sample.world 1000 "o1") (Sample.from "41.0.0.1")
                   (Sample.order "0551234567" [Sample.line "A" 1; Sample.line "C" 1])
                   Sample.shop) = orders Sample.shop
      /\ order_items (store_after (Sample.world 1000 "o1") (Sample.from "41.0.0.1")
                        (Sample.order "0551234567" [Sample.line "A" 1; Sample.line "C" 1])
                        Sample.shop) = order_items Sample.shop.
Proof.
  assert (Hbad : Spec.missing_or_inactive Sample.shop
                   [Sample.line "A" 1; Sample.line "C" 1]).
  { exists (Sample.line "C" 1). split; [cbn; auto|].
    right. exists Sample.retired. cbn. auto. }
  split; [exact Hbad|].
  exact (missing_or_inactive_product_fails
           (Sample.world 1000 "o1") (Sample.from "41.0.0.1")
           (Sample.order "0551234567" [Sample.line "A" 1; Sample.line "C" 1])
           Sample.shop Hbad).
Defined.

(* ------------------------------------------------------------------ *)
(** * The claim about the phone number *)

Lemma validation_phone (body : OrderRequest) (db : Db) :
  validation body db = Some (errorResponse PhoneInvalid 400)
  <-> Js.blank (Some (full_name body)) = false
      /\ Regex.test phoneRegex (phone body) = false.
Proof.
  unfold validation.
  destruct (Js.blank (Some (full_name body))); [split; [discriminate|now intros []]|].
  destruct (Regex.test phoneRegex (phone body)); cbn [negb]; [|now split].
  split; [|now intros []].
  repeat (match goal with
          | |- context [if ?c then _ else _] => destruct c
          | |- context [match ?x with _ => _ end] => destruct x
          end; try discriminate).
Qed.

(** C9. The test of the handler's pattern on a phone string is the
    national mobile pattern of the specification (a leading 0, then 5, 6 or
    7, then 8 digits, nothing else); "0551234567" passes and "0441234567",
    "055123456" and "05512345678" do not; the validator answers with the
    phone error exactly when the name check has passed and the test fails;
    and every request whose phone fails the test is answered with status
    400 and leaves the store untouched. *)
Theorem phone_is_the_national_mobile_pattern :
  (forall s, Regex.test phoneRegex s = Spec.national_mobile s)
  /\ Regex.test phoneRegex "0551234567" = true
  /\ Regex.test phoneRegex "0441234567" = false
  /\ Regex.test phoneRegex "055123456" = false
  /\ Regex.test phoneRegex "05512345678" = false
  /\ (forall body db,
        validation body db = Some (errorResponse PhoneInvalid 400)
        <-> Js.blank (Some (full_name body)) = false
            /\ Regex.test phoneRegex (phone body) = false)
  /\ (forall env h body db,
        Regex.test phoneRegex (phone body) = false ->
        status_of (response env h body db) = 400
        /\ store_after env h body db = db).
Proof.
  split; [exact phoneRegex_national_mobile|].
  do 4 (split; [reflexivity|]).
  split; [exact validation_phone|].
  intros env h body db Hbad.
  assert (H : exists msg, response env h body db = errorResponse msg 400).
  { unfold response, serve, validation. rewrite Hbad. cbn [negb].
    destruct (Js.blank _); cbn; eauto. }
  destruct H as [msg H]. rewrite H. split; [reflexivity|].
  apply (serve_error_unchanged_status _ _ _ _ _ _ H). discriminate.
Qed.

Lemma phone_is_the_national_mobile_pattern_witness :
  status_of (response (Sample.world 1000 "o1") (Sample.from "41.0.0.1")
               (Sample.order "0441234567" [Sample.line "A" 1]) Sample.shop) = 400
  /\ store_after (Sample.world 1000 "o1") (Sample.from "41.0.0.1")
       (Sample.order "0441234567" [Sample.line "A" 1]) Sample.shop = Sample.shop.
Proof.
  apply (proj2 (proj2 (proj2 (proj2 (proj2 (proj2
           phone_is_the_national_mobile_pattern))))) ).
  reflexivity.
Defined.

(* ------------------------------------------------------------------ *)
(** * The tracking dispatcher *)

Section Dispatcher.

Import MetaServerEvents.
Variable hashSHA256 : string -> string.

Lemma serve_unconfigured (env : MetaServerEvents.Env) (body : TrackingEvent)
    (db : Db) :
  missing (META_PIXEL_ID env) || missing (META_ACCESS_TOKEN env) = true ->
  MetaServerEvents.serve hashSHA256 env body db = (db, Skipped, []).
Proof. intros H. unfold MetaServerEvents.serve. now rewrite H. Qed.

Lemma send_reply (env : MetaServerEvents.Env) (pixel token : string)
    (body : TrackingEvent) (db : Db) :
  fst (fst (send hashSHA256 env pixel token body db)) = db
  /\ snd (fst (send hashSHA256 env pixel token body db)) <> Queued
  /\ snd (send hashSHA256 env pixel token body db)
     = [{| call_pixel := pixel; call_access_token := token;
           call_payload := eventPayload hashSHA256 env body |}].
Proof. unfold send. destruct (meta env); cbn; repeat split; discriminate. Qed.

Lemma serve_cases (env : MetaServerEvents.Env) (body : TrackingEvent) (db : Db) :
  (MetaServerEvents.serve hashSHA256 env body db = (db, Skipped, [])
   /\ missing (META_PIXEL_ID env) || missing (META_ACCESS_TOKEN env) = true)
  \/ (MetaServerEvents.serve hashSHA256 env body db = (db, TrackingFailed, [])
      /\ missing (META_PIXEL_ID env) = false
      /\ missing (META_ACCESS_TOKEN env) = false
      /\ te_event_name body = "Purchase"
      /\ missing (te_order_id body) = false
      /\ purchaseEventTrigger db = "delivered")
  \/ (exists pixel token,
        META_PIXEL_ID env = Some pixel /\ META_ACCESS_TOKEN env = Some token
        /\ missing (META_PIXEL_ID env) = false
        /\ missing (META_ACCESS_TOKEN env) = false
        /\ MetaServerEvents.serve hashSHA256 env body db
           = send hashSHA256 env pixel token body db
        /\ (te_event_name body <> "Purchase" \/ missing (te_order_id body) = true
            \/ purchaseEventTrigger db <> "delivered")).
Proof.
  unfold MetaServerEvents.serve.
  destruct (missing (META_PIXEL_ID env) || missing (META_ACCESS_TOKEN env)) eqn:C;
    [now left|].
  apply orb_false_iff in C as [C1 C2].
  destruct (META_PIXEL_ID env) as [pixel|] eqn:Hp; [|discriminate].
  destruct (META_ACCESS_TOKEN env) as [token|] eqn:Ht; [|discriminate].
  destruct (te_event_name body =? "Purchase") eqn:N; cbn [andb].
  - destruct (missing (te_order_id body)) eqn:O; cbn [negb].
    + right. right. exists pixel, token. repeat split; auto.
    + destruct (purchaseEventTrigger db =? "delivered") eqn:T.
      * right. left. apply String.eqb_eq in N, T. repeat split; auto.
      * right. right. exists pixel, token. apply String.eqb_neq in T.
        repeat split; auto.
  - right. right. exists pixel, token. apply String.eqb_neq in N.
    repeat split; auto.
Qed.

End Dispatcher.

(** C10. The credentials check comes first: with the pixel id or the access
    token unconfigured the dispatcher answers success at once, whatever the
    store holds (so whatever the purchase_event setting is), writes nothing
    and calls nobody, also for a Purchase event with an order id under the
    setting "delivered", which is dropped and not queued.  The deferral
    branch, the one way to the failure answer without an outbound call, is
    entered only by an event named "Purchase" that carries an order id
    (with both credentials configured and the setting "delivered"); the
    answer "queued" is given to no event at all. *)
Theorem credentials_are_checked_first (hashSHA256 : string -> string) :
  (forall env body db,
      MetaServerEvents.missing (MetaServerEvents.META_PIXEL_ID env)
      || MetaServerEvents.missing (MetaServerEvents.META_ACCESS_TOKEN env) = true ->
      MetaServerEvents.serve hashSHA256 env body db
      = (db, MetaServerEvents.Skipped, []))
  /\ (forall env body db,
        MetaServerEvents.missing (MetaServerEvents.META_PIXEL_ID env)
        || MetaServerEvents.missing (MetaServerEvents.META_ACCESS_TOKEN env) = true ->
        te_event_name body = "Purchase" ->
        MetaServerEvents.missing (te_order_id body) = false ->
        MetaServerEvents.purchaseEventTrigger db = "delivered" ->
        pending_tracking_events
          (fst (fst (MetaServerEvents.serve hashSHA256 env body db)))
        = pending_tracking_events db
        /\ snd (fst (MetaServerEvents.serve hashSHA256 env body db))
           = MetaServerEvents.Skipped
        /\ snd (MetaServerEvents.serve hashSHA256 env body db) = [])
  /\ (forall env body db,
        snd (fst (MetaServerEvents.serve hashSHA256 env body db))
        = MetaServerEvents.TrackingFailed ->
        snd (MetaServerEvents.serve hashSHA256 env body db) = [] ->
        te_event_name body = "Purchase"
        /\ MetaServerEvents.missing (te_order_id body) = false
        /\ MetaServerEvents.missing (MetaServerEvents.META_PIXEL_ID env) = false
        /\ MetaServerEvents.missing (MetaServerEvents.META_ACCESS_TOKEN env) = false
        /\ MetaServerEvents.purchaseEventTrigger db = "delivered")
  /\ (forall env body db,
        snd (fst (MetaServerEvents.serve hashSHA256 env body db))
        <> MetaServerEvents.Queued).
Proof.
  split; [|split; [|split]].
  - intros env body db. apply serve_unconfigured.
  - intros env body db H _ _ _. rewrite (serve_unconfigured _ _ _ _ H). auto.
  - intros env body db.
    destruct (serve_cases hashSHA256 env body db)
      as [[-> _] | [(-> & ? & ? & ? & ? & ?) | (pixel & token & _ & _ & _ & _ & -> & _)]].
    + discriminate.
    + auto.
    + intros _ H.
      destruct (send_reply hashSHA256 env pixel token body db) as (_ & _ & C).
      rewrite C in H. discriminate.
  - intros env body db.
    destruct (serve_cases hashSHA256 env body db)
      as [[-> _] | [(-> & _) | (pixel & token & _ & _ & _ & _ & -> & _)]];
      try discriminate.
    now destruct (send_reply hashSHA256 env pixel token body db) as (_ & Q & _).
Qed.

Lemma credentials_are_checked_first_witness :
  pending_tracking_events
    (fst (fst (MetaServerEvents.serve Sample.digest Sample.unconfigured
                 Sample.purchase Sample.shop_on_delivery)))
  = pending_tracking_events Sample.shop_on_delivery
  /\ snd (fst (MetaServerEvents.serve Sample.digest Sample.unconfigured
                 Sample.purchase Sample.shop_on_delivery))
     = MetaServerEvents.Skipped
  /\ snd (MetaServerEvents.serve Sample.digest Sample.unconfigured
            Sample.purchase Sample.shop_on_delivery) = [].
Proof.
  apply (proj1 (proj2 (credentials_are_checked_first Sample.digest)));
    reflexivity.
Defined.

(** Against C8.  With the credentials configured and the setting on
    "delivered", the Purchase event of order o1 is answered with the
    failure of line 153: no pending row is written (the store is as it
    was) and no call is made.  Besides, without credentials the same event
    writes no row under "delivered" and makes no call under the setting
    left unset (so "confirmed"). *)
Lemma purchase_timing_counterexample :
  MetaServerEvents.purchaseEventTrigger Sample.shop_on_delivery = "delivered"
  /\ MetaServerEvents.serve Sample.digest Sample.configured
       Sample.purchase Sample.shop_on_delivery
     = (Sample.shop_on_delivery, MetaServerEvents.TrackingFailed, [])
  /\ pending_tracking_events Sample.shop_on_delivery = []
  /\ pending_tracking_events
       (fst (fst (MetaServerEvents.serve Sample.digest Sample.unconfigured
                    Sample.purchase Sample.shop_on_delivery))) = []
  /\ MetaServerEvents.purchaseEventTrigger Sample.shop = "confirmed"
  /\ snd (MetaServerEvents.serve Sample.digest Sample.unconfigured
            Sample.purchase Sample.shop) = [].
Proof. repeat split; reflexivity. Qed.

(** C8.  With both credentials configured, for every event named
    "Purchase" that carries an order id: under the setting "delivered" the
    dispatcher makes no outbound call, but it writes no pending row
    either: the expression of lines 64-72 throws, the store is left as it
    was and the answer is the failure of line 153 (status 500, "Tracking
    failed").  Under any other setting, "confirmed" included, which is also
    what an absent, null or empty setting reads as, it makes exactly one
    outbound call and leaves the store, the pending table included, as it
    was. *)
Theorem purchase_timing_when_configured
    (hashSHA256 : string -> string) (env : MetaServerEvents.Env)
    (body : TrackingEvent) (db : Db) (pixel token order : string) :
  MetaServerEvents.META_PIXEL_ID env = Some pixel -> pixel <> "" ->
  MetaServerEvents.META_ACCESS_TOKEN env = Some token -> token <> "" ->
  te_event_name body = "Purchase" ->
  te_order_id body = Some order -> order <> "" ->
  (MetaServerEvents.purchaseEventTrigger db = "delivered" ->
     MetaServerEvents.serve hashSHA256 env body db
     = (db, MetaServerEvents.TrackingFailed, []))
  /\ (MetaServerEvents.purchaseEventTrigger db <> "delivered" ->
        fst (fst (MetaServerEvents.serve hashSHA256 env body db)) = db
        /\ snd (MetaServerEvents.serve hashSHA256 env body db)
           = [{| MetaServerEvents.call_pixel := pixel;
                 MetaServerEvents.call_access_token := token;
                 MetaServerEvents.call_payload :=
                   MetaServerEvents.eventPayload hashSHA256 env body |}])
  /\ (filter (fun s => s_key s =? "purchase_event") (settings db) = [] ->
        MetaServerEvents.purchaseEventTrigger db = "confirmed")
  /\ (forall row,
        filter (fun s => s_key s =? "purchase_event") (settings db) = [row] ->
        s_value row = None \/ s_value row = Some "" ->
        MetaServerEvents.purchaseEventTrigger db = "confirmed").
Proof.
  intros Hp Hpne Ht Htne Hname Horder Hone.
  assert (Ep : (pixel =? "") = false) by now apply String.eqb_neq.
  assert (Et : (token =? "") = false) by now apply String.eqb_neq.
  assert (Eo : (order =? "") = false) by now apply String.eqb_neq.
  unfold MetaServerEvents.serve, MetaServerEvents.missing, Js.truthy.
  rewrite Hp, Ht, Horder, Hname, Ep, Et, Eo, String.eqb_refl. cbn [negb orb andb].
  split; [|split; [|split]].
  - intros H. apply String.eqb_eq in H. now rewrite H.
  - intros H. apply String.eqb_neq in H. rewrite H.
    destruct (send_reply hashSHA256 env pixel token body db) as (Hdb & _ & Hcall).
    now rewrite Hdb, Hcall.
  - intros H. unfold MetaServerEvents.purchaseEventTrigger. now rewrite H.
  - intros row H Hv. unfold MetaServerEvents.purchaseEventTrigger. rewrite H. cbn.
    now destruct Hv as [-> | ->].
Qed.

Lemma purchase_timing_when_configured_witness :
  MetaServerEvents.serve Sample.digest Sample.configured
    Sample.purchase Sample.shop_on_delivery
  = (Sample.shop_on_delivery, MetaServerEvents.TrackingFailed, []).
Proof.
  refine (proj1 (purchase_timing_when_configured Sample.digest
                   Sample.configured Sample.purchase Sample.shop_on_delivery
                   "1234567890" "EAAB" "o1"
                   eq_refl _ eq_refl _ eq_refl eq_refl _) eq_refl);
    discriminate.
Defined.

(* ------------------------------------------------------------------ *)
(** * Duplicate detection *)

Lemma isDuplicate_true (recent : list OrderItemRow) (cart : list CartItem) :
  isDuplicate recent cart = true
  <-> List.length recent = List.length cart
      /\ forall item, In item cart ->
           exists ri, In ri recent
                      /\ oi_product_id ri = product_id item
                      /\ oi_quantity ri = quantity item.
Proof.
  unfold isDuplicate. rewrite andb_true_iff, Nat.eqb_eq, forallb_forall.
  split; intros [Hlen Hall]; (split; [exact Hlen|]); intros item Hitem.
  - apply Hall in Hitem. apply existsb_exists in Hitem as (ri & Hri & E).
    apply andb_true_iff in E as [E1 E2].
    apply String.eqb_eq in E1. apply Z.eqb_eq in E2. eauto.
  - destruct (Hall item Hitem) as (ri & Hri & E1 & E2).
    apply existsb_exists. exists ri. split; [assumption|].
    apply andb_true_iff. split; [now apply String.eqb_eq|now apply Z.eqb_eq].
Qed.

Lemma recentOrders_In (t : Z) (body : OrderRequest) (db : Db) (o : OrderRow) :
  In o (recentOrders t body db)
  <-> In o (orders db) /\ o_phone o = phone body
      /\ t - 5 * 60 * 1000 <= o_created_at o.
Proof.
  unfold recentOrders, fiveMinutesAgo. rewrite filter_In, andb_true_iff.
  rewrite String.eqb_eq, Z.leb_le. tauto.
Qed.

Lemma duplicate_detection_iff (t : Z) (body : OrderRequest) (db : Db) :
  duplicate_detection t body db = Some (errorResponse AlreadyRegistered 400)
  <-> exists first rest,
        recentOrders t body db = first :: rest
        /\ isDuplicate (recentItems db first) (cart_items body) = true.
Proof.
  unfold duplicate_detection.
  destruct (recentOrders t body db) as [|first rest].
  - split; [discriminate|]. now intros (f & r & H & _).
  - destruct (isDuplicate _ _) eqn:E.
    + split; [|reflexivity]. intros _. now exists first, rest.
    + split; [discriminate|]. intros (f & r & [= <- <-] & H). congruence.
Qed.

(** With pairwise different products in the prior order, changing the
    quantity of one of its lines makes the cart a different one. *)
Lemma isDuplicate_other_quantity (recent : list OrderItemRow)
    (cart : list CartItem) :
  NoDup (map oi_product_id recent) ->
  Spec.differs_in_quantity recent cart ->
  isDuplicate recent cart = false.
Proof.
  intros Hnd (ri & item & Hri & Hitem & Hpid & Hq).
  destruct (isDuplicate recent cart) eqn:E; [exfalso|reflexivity].
  apply isDuplicate_true in E as [_ Hall].
  destruct (Hall item Hitem) as (ri' & Hri' & Hpid' & Hq').
  assert (ri' = ri); [|congruence].
  clear - Hnd Hri Hri' Hpid Hpid'.
  induction recent as [|x l IH]; [easy|].
  cbn in Hnd. inversion Hnd as [|? ? Hx Hl]; subst.
  destruct Hri as [->|Hri], Hri' as [->|Hri']; try reflexivity.
  - exfalso. apply Hx. apply in_map_iff. exists ri'. split; [congruence|assumption].
  - exfalso. apply Hx. apply in_map_iff. exists ri. split; [congruence|assumption].
  - now apply IH.
Qed.

Ltac crack H :=
  repeat match type of H with
         | context [if ?c then _ else _] => destruct c
         | context [match ?x with _ => _ end] => destruct x
         end;
  try discriminate H.

Lemma serve_already_registered (env : Env) (h : Headers) (body : OrderRequest)
    (db : Db) (st : Z) :
  response env h body db = errorResponse AlreadyRegistered st
  <-> validation body db = None /\ turnstile env = Verified
      /\ (exists l, rate_limiting (now env) (clientIP h) body db = inr l)
      /\ duplicate_detection (now env) body db
         = Some (errorResponse AlreadyRegistered 400)
      /\ st = 400.
Proof.
  unfold response, serve. split.
  - destruct (validation body db) eqn:V.
    { cbn. intros ->. exfalso. unfold validation in V. crack V. }
    destruct (turnstile env); try discriminate.
    destruct (rate_limiting _ _ _ _) as [r|[ipl phl]] eqn:R.
    { cbn. intros ->. exfalso. unfold rate_limiting in R. crack R. }
    destruct (duplicate_detection _ _ _) eqn:D.
    { cbn. intros ->. pose proof (duplicate_detection_some _ _ _ _ D) as [= <-].
      repeat split; eauto. }
    destruct (pricing _ _ _) as [r|priced] eqn:P.
    { cbn. intros ->. exfalso. unfold pricing in P. crack P. }
    unfold create. destruct (insert_order _ _ db); [|discriminate].
    destruct (itemsError env); discriminate.
  - intros (V & T & [[ipl phl] R] & D & ->). now rewrite V, T, R, D.
Qed.

(** Against C4 as stated.  The phone orders a necklace, a minute later a
    ring, and a minute later a ring again: the third cart is the cart of
    the most recent order of the phone in the window, and it is accepted,
    since the comparison is with the first order the query returns, the
    necklace.  And a cart that changes the quantity of a line (one and two
    necklaces, then one and one) is turned down as a duplicate. *)
Lemma duplicate_detection_counterexample :
  let after_two :=
    fst (run (firstn 2 Sample.necklace_then_ring_twice) Sample.shop) in
  let again := Sample.order Sample.number [Sample.line "B" 1] in
  (exists latest,
      Spec.most_recent (recentOrders (2 * Sample.minute) again after_two)
      = Some latest
      /\ o_id latest = "o2"
      /\ isDuplicate (recentItems after_two latest) (cart_items again) = true)
  /\ snd (run Sample.necklace_then_ring_twice Sample.shop)
     = [success "o1" "pub-o1" (Js.number 290000); success "o2" "pub-o2" (Js.number 160000);
        success "o3" "pub-o3" (Js.number 160000)]
  /\ snd (run Sample.two_lines_then_other_quantity Sample.shop)
     = [success "o1" "pub-o1" (Js.number 790000); errorResponse AlreadyRegistered 400].
Proof.
  cbv zeta. split; [|split; reflexivity].
  eexists. split; [vm_compute; reflexivity|]. split; reflexivity.
Qed.

(** C4, amended.  Duplicate detection takes the orders of the same phone
    created within the last 5 minutes, in the order the store returns
    them, and compares the cart with the items of the first of them only
    (the most recent one when it is the only one): the request is turned
    down as a duplicate, with status 400, exactly when it has passed the
    earlier gates, such an order exists, it has as many items as the cart
    has lines, and every (product, quantity) of the cart occurs among its
    items.  When the items of that order have pairwise different products,
    a cart that gives another quantity to one of its products is not a
    duplicate. *)
Theorem duplicate_is_judged_on_the_first_recent_order :
  (forall t body db o,
      In o (recentOrders t body db)
      <-> In o (orders db) /\ o_phone o = phone body
          /\ t - 5 * 60 * 1000 <= o_created_at o)
  /\ (forall db first ri,
        In ri (recentItems db first)
        <-> In ri (order_items db) /\ oi_order_id ri = o_id first)
  /\ (forall t body db,
        duplicate_detection t body db = Some (errorResponse AlreadyRegistered 400)
        <-> exists first rest,
              recentOrders t body db = first :: rest
              /\ List.length (recentItems db first) = List.length (cart_items body)
              /\ forall item, In item (cart_items body) ->
                   exists ri, In ri (recentItems db first)
                              /\ oi_product_id ri = product_id item
                              /\ oi_quantity ri = quantity item)
  /\ (forall env h body db st,
        response env h body db = errorResponse AlreadyRegistered st
        <-> validation body db = None /\ turnstile env = Verified
            /\ (exists l, rate_limiting (now env) (clientIP h) body db = inr l)
            /\ duplicate_detection (now env) body db
               = Some (errorResponse AlreadyRegistered 400)
            /\ st = 400)
  /\ (forall recent cart,
        NoDup (map oi_product_id recent) ->
        Spec.differs_in_quantity recent cart ->
        isDuplicate recent cart = false)
  /\ (forall t body db o,
        recentOrders t body db = [o] ->
        Spec.most_recent (recentOrders t body db) = Some o).
Proof.
  split; [exact recentOrders_In|].
  split.
  { intros db first ri. unfold recentItems. rewrite filter_In, String.eqb_eq. tauto. }
  split.
  { intros t body db. rewrite duplicate_detection_iff.
    split; intros (first & rest & Hr & Hd); exists first, rest;
      (split; [exact Hr|]); now apply isDuplicate_true. }
  split; [exact serve_already_registered|].
  split; [exact isDuplicate_other_quantity|].
  intros t body db o ->. reflexivity.
Qed.

Lemma duplicate_is_judged_on_the_first_recent_order_witness :
  isDuplicate
    [{| oi_order_id := "o1"; oi_product_id := "A"; oi_product_name := "Necklace";
        oi_price := 250000; oi_quantity := 1; oi_selected_size := None;
        oi_selected_color := None; oi_options := None |}]
    [Sample.line "A" 2] = false.
Proof.
  apply (proj1 (proj2 (proj2 (proj2 (proj2
           duplicate_is_judged_on_the_first_recent_order))))).
  - cbn. repeat constructor. easy.
  - eexists _, (Sample.line "A" 2). cbn. repeat split; eauto. discriminate.
Defined.

(* ------------------------------------------------------------------ *)
(** * The rate-limit counters *)

Lemma filter_narrow {A : Type} (p q : A -> bool) (l : list A) :
  (forall x, q x = true -> p x = true) ->
  filter q l = filter q (filter p l).
Proof.
  intros H. induction l as [|a l IH]; [reflexivity|].
  cbn. destruct (p a) eqn:P, (q a) eqn:Q; cbn; rewrite ?Q; try now rewrite IH.
  apply H in Q. congruence.
Qed.

Lemma filter_map_comm {A : Type} (p : A -> bool) (g g' : A -> A) (l : list A) :
  (forall x, p (g x) = p x) -> (forall x, p x = true -> g x = g' x) ->
  filter p (map g l) = map g' (filter p l).
Proof.
  intros Hp Hg. induction l as [|a l IH]; [reflexivity|].
  cbn. rewrite Hp. destruct (p a) eqn:P; [|exact IH].
  cbn. now rewrite IH, (Hg a P).
Qed.

Lemma rate_limit_key_counter (id ty id' ty' : string) (n t : Z) :
  rate_limit_key id ty (Counters.counter id' ty' n t) = (ty' =? ty) && (id' =? id).
Proof.
  unfold rate_limit_key, Counters.counter.
  cbn [rl_identifier rl_identifier_type rl_action].
  rewrite String.eqb_refl, andb_true_r. apply andb_comm.
Qed.

Lemma rate_limit_key_true (id ty : string) (r : RateLimitRow) :
  rate_limit_key id ty r = true ->
  rl_identifier r = id /\ rl_identifier_type r = ty /\ rl_action r = "create_order".
Proof.
  unfold rate_limit_key. rewrite !andb_true_iff, !String.eqb_eq. tauto.
Qed.

Lemma rate_limit_key_with_count (id ty : string) (r : RateLimitRow) (c : Z) :
  rate_limit_key id ty (with_count r c) = rate_limit_key id ty r.
Proof. reflexivity. Qed.

(** Within its hour, the window is what the lookup finds. *)
Lemma window_now (id ty : string) (t1 n t : Z) (table : list RateLimitRow) :
  Counters.window id ty t1 n table -> Counters.in_hour t1 t ->
  Counters.active_rows id ty (windowStart t) table = [Counters.counter id ty n t1].
Proof.
  unfold Counters.window, Counters.active_rows, Counters.in_hour, windowStart. intros W Ht.
  rewrite (filter_narrow
             (fun r => rate_limit_key id ty r
                       && (t1 - 60 * 60 * 1000 <=? rl_window_start r)%Z)).
  - rewrite W. cbn [filter]. rewrite rate_limit_key_counter, !String.eqb_refl.
    cbn [andb Counters.counter rl_window_start].
    replace (t - 60 * 60 * 1000 <=? t1)%Z with true; [reflexivity|].
    symmetry. apply Z.leb_le. lia.
  - intros r. rewrite !andb_true_iff, !Z.leb_le. intros [K L]. split; [exact K|lia].
Qed.

(** A block for another key does not touch the rows of this one. *)
Lemma record_rows_other (id ty id' ty' : string) (l : option Z) (t s : Z)
    (table : list RateLimitRow) :
  (ty' =? ty) && (id' =? id) = false ->
  Counters.active_rows id ty s (Counters.record_rows id' ty' l t table)
  = Counters.active_rows id ty s table.
Proof.
  intros Hk. unfold Counters.active_rows, Counters.record_rows. destruct l as [c|].
  - rewrite (filter_map_comm _ _ (fun r => r)); [now rewrite map_id| |].
    + intros r. now destruct (rate_limit_key id' ty' r).
    + intros r Hr. apply andb_true_iff in Hr as [Hr _].
      apply rate_limit_key_true in Hr as (Hi & Hty & _).
      unfold rate_limit_key. rewrite Hi, Hty.
      rewrite (String.eqb_sym ty ty'), (String.eqb_sym id id'), (andb_comm (id' =? id)), Hk.
      reflexivity.
  - rewrite filter_app. cbn [filter].
    now rewrite rate_limit_key_counter, Hk, app_nil_r.
Qed.

(** The update sets every row of the key, whatever its window. *)
Lemma record_rows_update (id ty : string) (c t s : Z) (table : list RateLimitRow) :
  Counters.active_rows id ty s (Counters.record_rows id ty (Some c) t table)
  = map (fun r => with_count r (c + 1)) (Counters.active_rows id ty s table).
Proof.
  unfold Counters.active_rows, Counters.record_rows. apply filter_map_comm.
  - intros r. destruct (rate_limit_key id ty r) eqn:E; [|now rewrite E].
    now rewrite rate_limit_key_with_count, E.
  - intros r Hr. apply andb_true_iff in Hr as [Hr _]. now rewrite Hr.
Qed.

Lemma record_rows_insert (id ty : string) (t s : Z) (table : list RateLimitRow) :
  s <= t ->
  Counters.active_rows id ty s (Counters.record_rows id ty None t table)
  = Counters.active_rows id ty s table ++ [Counters.counter id ty 1 t].
Proof.
  intros Hs. unfold Counters.active_rows, Counters.record_rows.
  rewrite filter_app. cbn [filter].
  rewrite rate_limit_key_counter, !String.eqb_refl. cbn [andb Counters.counter rl_window_start].
  apply Z.leb_le in Hs. now rewrite Hs.
Qed.

(** One block, seen from a key with an open window. *)
Lemma record_rows_window (id ty id' ty' : string) (t1 n t : Z) (l : option Z)
    (table : list RateLimitRow) :
  Counters.window id ty t1 n table -> Counters.in_hour t1 t ->
  l = option_map rl_count
        (Js.single (Counters.active_rows id' ty' (windowStart t) table)) ->
  Counters.window id ty t1
    (n + (if (ty' =? ty) && (id' =? id) then 1 else 0))
    (Counters.record_rows id' ty' l t table).
Proof.
  intros W Ht ->. destruct ((ty' =? ty) && (id' =? id)) eqn:K.
  - apply andb_true_iff in K as [K1 K2].
    apply String.eqb_eq in K1, K2. subst id' ty'.
    rewrite (window_now _ _ _ _ _ _ W Ht). cbn [Js.single option_map Counters.counter rl_count].
    unfold Counters.window. rewrite record_rows_update, W. reflexivity.
  - unfold Counters.window. rewrite record_rows_other by exact K.
    now rewrite Z.add_0_r.
Qed.

Lemma rate_limiting_inr (t : Z) (ip : string) (body : OrderRequest) (db : Db)
    (ipl phl : option Z) :
  rate_limiting t ip body db = inr (ipl, phl) ->
  ipl = option_map rl_count
          (Js.single (Counters.active_rows ip "ip" (windowStart t) (rate_limits db)))
  /\ phl = option_map rl_count
             (Js.single (Counters.active_rows (phone body) "phone" (windowStart t)
                           (rate_limits db)))
  /\ reached ipl 10 = false /\ reached phl 3 = false.
Proof.
  unfold rate_limiting.
  destruct (reached (select_rate_limit db ip "ip" _) 10) eqn:A; [discriminate|].
  destruct (reached (select_rate_limit db (phone body) "phone" _) 3) eqn:B;
    [discriminate|].
  intros [= <- <-]. auto.
Qed.

(** Both blocks, seen from a key with an open window. *)
Lemma recorded_window (id ty ip number : string) (t1 n t : Z)
    (ipl phl : option Z) (table : list RateLimitRow) :
  Counters.window id ty t1 n table -> Counters.in_hour t1 t ->
  ipl = option_map rl_count
          (Js.single (Counters.active_rows ip "ip" (windowStart t) table)) ->
  phl = option_map rl_count
          (Js.single (Counters.active_rows number "phone" (windowStart t) table)) ->
  Counters.window id ty t1
    (n + ((if ("ip" =? ty) && (ip =? id) then 1 else 0)
          + (if ("phone" =? ty) && (number =? id) then 1 else 0)))
    (Counters.recorded ip number ipl phl t table).
Proof.
  intros W Ht Hipl Hphl. unfold Counters.recorded. rewrite Z.add_assoc.
  apply record_rows_window; [now apply record_rows_window|exact Ht|].
  now rewrite record_rows_other.
Qed.

Lemma run_cons (env : Env) (h : Headers) (body : OrderRequest)
    (rest : list (Env * Headers * OrderRequest)) (db : Db) :
  run ((env, h, body) :: rest) db
  = (fst (run rest (store_after env h body db)),
     response env h body db :: snd (run rest (store_after env h body db))).
Proof.
  cbn [run]. unfold store_after, response.
  destruct (serve env h body db) as [[db' r] f]. cbn [fst snd].
  now destruct (run rest db').
Qed.

(** One request, seen from a key with an open window. *)
Lemma serve_window (id ty : string) (t1 n : Z) (env : Env) (h : Headers)
    (body : OrderRequest) (db : Db) :
  Counters.window id ty t1 n (rate_limits db) -> Counters.in_hour t1 (now env) ->
  Counters.window id ty t1
    (n + (if Counters.is_success (response env h body db)
          then Counters.charge id ty h body else 0))
    (rate_limits (store_after env h body db)).
Proof.
  intros W Ht. destruct (response env h body db) as [oid tok t|msg st] eqn:H.
  - destruct (serve_success_tables _ _ _ _ _ _ _ H)
      as (ipl & phl & priced & R & _ & _ & _ & _ & _ & ->).
    apply rate_limiting_inr in R as (Hipl & Hphl & _ & _).
    cbn [Counters.is_success]. unfold Counters.charge.
    now apply recorded_window.
  - rewrite (serve_error_rate_limits _ _ _ _ _ _ H). cbn [Counters.is_success].
    now rewrite Z.add_0_r.
Qed.

(** A run of requests within the hour, seen from a key with an open
    window: the counter has gone up by the accepted requests that count
    for the key. *)
Lemma run_window (id ty : string) (t1 : Z)
    (reqs : list (Env * Headers * OrderRequest)) :
  forall (n : Z) (db : Db),
    Counters.window id ty t1 n (rate_limits db) -> Counters.all_in_hour t1 reqs ->
    Counters.window id ty t1
      (n + Counters.accepted id ty reqs (snd (run reqs db)))
      (rate_limits (fst (run reqs db))).
Proof.
  induction reqs as [|[[env h] body] rest IH]; intros n db W Hall.
  - cbn. now rewrite Z.add_0_r.
  - rewrite run_cons. cbn [fst snd Counters.accepted]. rewrite Z.add_assoc.
    inversion Hall as [|? ? Hnow Hrest]; subst.
    apply IH; [|exact Hrest]. now apply serve_window.
Qed.

(** An accepted request that counts for a key without an active counter
    opens the window of the key. *)
Lemma serve_opens_window (id ty : string) (env : Env) (h : Headers)
    (body : OrderRequest) (db : Db) :
  Counters.active_rows id ty (windowStart (now env)) (rate_limits db) = [] ->
  Counters.is_success (response env h body db) = true ->
  Counters.charge id ty h body = 1 ->
  Counters.window id ty (now env) 1 (rate_limits (store_after env h body db)).
Proof.
  intros Hnone Hs Hc.
  destruct (response env h body db) as [oid tok t|msg st] eqn:H; [|discriminate].
  destruct (serve_success_tables _ _ _ _ _ _ _ H)
    as (ipl & phl & priced & R & _ & _ & _ & _ & _ & ->).
  apply rate_limiting_inr in R as (Hipl & Hphl & _ & _).
  assert (Hle : windowStart (now env) <= now env) by (unfold windowStart; lia).
  unfold Counters.charge in Hc. unfold Counters.window, Counters.recorded.
  destruct (("ip" =? ty) && (clientIP h =? id)) eqn:A;
    destruct (("phone" =? ty) && (phone body =? id)) eqn:B; try lia.
  - apply andb_true_iff in A as [A1 A2]. apply String.eqb_eq in A1, A2. subst ty id.
    rewrite Hnone in Hipl. cbn in Hipl. subst ipl.
    rewrite record_rows_other by exact B.
    now rewrite record_rows_insert, Hnone.
  - apply andb_true_iff in B as [B1 B2]. apply String.eqb_eq in B1, B2. subst ty id.
    assert (Hphl' : phl = None).
    { rewrite Hphl, Hnone. reflexivity. }
    rewrite Hphl'. rewrite record_rows_insert by exact Hle.
    now rewrite record_rows_other, Hnone.
Qed.

Lemma window_reached (id ty : string) (t1 n t limit : Z) (db : Db) :
  Counters.window id ty t1 n (rate_limits db) -> Counters.in_hour t1 t -> limit <= n ->
  reached (select_rate_limit db id ty (windowStart t)) limit = true.
Proof.
  intros W Ht Hn.
  change (select_rate_limit db id ty (windowStart t))
    with (option_map rl_count
            (Js.single (Counters.active_rows id ty (windowStart t) (rate_limits db)))).
  rewrite (window_now _ _ _ _ _ _ W Ht). cbn. now apply Z.leb_le.
Qed.

Lemma serve_ip_limit (env : Env) (h : Headers) (body : OrderRequest) (db : Db) :
  validation body db = None -> turnstile env = Verified ->
  reached (select_rate_limit db (clientIP h) "ip" (windowStart (now env))) 10 = true ->
  serve env h body db = (db, errorResponse TooManyOrders 429, []).
Proof.
  intros V T R. unfold serve, rate_limiting. now rewrite V, T, R.
Qed.

Lemma serve_phone_limit (env : Env) (h : Headers) (body : OrderRequest) (db : Db) :
  validation body db = None -> turnstile env = Verified ->
  reached (select_rate_limit db (phone body) "phone" (windowStart (now env))) 3 = true ->
  exists msg, serve env h body db = (db, errorResponse msg 429, [])
              /\ (reached (select_rate_limit db (clientIP h) "ip"
                             (windowStart (now env))) 10 = false ->
                  msg = TooManyOrdersForPhone).
Proof.
  intros V T R. unfold serve, rate_limiting. rewrite V, T, R.
  destruct (reached _ 10); eauto.
  exists TooManyOrders. split; [reflexivity|discriminate].
Qed.

Lemma charge_ip (ip : string) (h : Headers) (body : OrderRequest) :
  Counters.charge ip "ip" h body = if clientIP h =? ip then 1 else 0.
Proof.
  unfold Counters.charge. rewrite String.eqb_refl.
  change ("phone" =? "ip") with false. cbn [andb]. now destruct (clientIP h =? ip).
Qed.

Lemma charge_phone (number : string) (h : Headers) (body : OrderRequest) :
  Counters.charge number "phone" h body = if phone body =? number then 1 else 0.
Proof.
  unfold Counters.charge. rewrite String.eqb_refl.
  change ("ip" =? "phone") with false. cbn [andb]. now destruct (phone body =? number).
Qed.

(** After the request that opened the window of a key and a run within the
    hour, the limit is reached once enough requests were accepted. *)
Lemma limit_reached_after_run (id ty : string) (limit : Z) (db0 : Db)
    (e1 : Env) (h1 : Headers) (b1 : OrderRequest)
    (rest : list (Env * Headers * OrderRequest)) (t : Z) :
  Counters.active_rows id ty (windowStart (now e1)) (rate_limits db0) = [] ->
  Counters.is_success (response e1 h1 b1 db0) = true ->
  Counters.charge id ty h1 b1 = 1 ->
  Counters.all_in_hour (now e1) rest ->
  limit <= 1 + Counters.accepted id ty rest (snd (run rest (store_after e1 h1 b1 db0))) ->
  Counters.in_hour (now e1) t ->
  reached (select_rate_limit (fst (run rest (store_after e1 h1 b1 db0)))
             id ty (windowStart t)) limit = true.
Proof.
  intros Hnone Hs Hc Hall Hn Ht.
  apply (window_reached id ty (now e1)
           (1 + Counters.accepted id ty rest (snd (run rest (store_after e1 h1 b1 db0)))));
    [|exact Ht|exact Hn].
  apply run_window; [|exact Hall].
  now apply serve_opens_window.
Qed.

(** Against C3 as stated.  One caller: an order, 59 minutes later nine
    more, and after the window of the first has run out two more.  All
    twelve are accepted, so the last eleven are eleven accepted orders of
    one IP within three minutes.  And when the table holds two active
    counters for the caller, each at 10, the lookup, which asks for a single
    row, finds nothing and the order is accepted. *)
Lemma rate_limit_counterexample :
  forallb Counters.is_success (snd (run Sample.across_two_windows Sample.shop)) = true
  /\ List.length (orders (fst (run Sample.across_two_windows Sample.shop))) = 12%nat
  /\ forallb (fun req => clientIP (snd (fst req)) =? "41.0.0.1")
       Sample.across_two_windows = true
  /\ forallb (fun req => (59 * Sample.minute <=? now (fst (fst req)))%Z
                         && (now (fst (fst req)) <=? 62 * Sample.minute)%Z)
       (skipn 1 Sample.across_two_windows) = true
  /\ response (Sample.world Sample.minute "o1") Sample.caller
       (Sample.order Sample.number [Sample.line "A" 1])
       (with_rate_limits Sample.shop
          [Counters.counter "41.0.0.1" "ip" 10 0; Counters.counter "41.0.0.1" "ip" 10 0])
     = success "o1" "pub-o1" (Js.number 290000).
Proof. repeat split; vm_compute; reflexivity. Qed.

(** C3, amended.  A request that has passed validation and bot verification
    meets the rate limiter before duplicate detection and pricing, the IP
    first: when the lookup for (ip, create_order) finds one active counter
    and its count is at least 10, the answer is 429 and the store is left
    as it was, whatever the cart; otherwise, when the lookup for the phone
    finds one active counter with a count of at least 3, likewise.  The
    window is fixed by the counter: when an accepted order of an IP opens
    the counter of that IP (none was active) and, of the requests handled
    in the hour that follows, nine more of that IP are accepted, every
    further request of that IP in that hour that passes validation and
    verification is answered 429 and creates nothing; the same for a phone
    with an accepted order that opens its counter and two more. *)
Theorem rate_limit_within_a_window :
  (forall env h body db r,
      validation body db = None -> turnstile env = Verified ->
      Counters.active_rows (clientIP h) "ip" (windowStart (now env)) (rate_limits db) = [r] ->
      10 <= rl_count r ->
      serve env h body db = (db, errorResponse TooManyOrders 429, []))
  /\ (forall env h body db r,
        validation body db = None -> turnstile env = Verified ->
        reached (select_rate_limit db (clientIP h) "ip" (windowStart (now env))) 10
        = false ->
        Counters.active_rows (phone body) "phone" (windowStart (now env)) (rate_limits db)
        = [r] ->
        3 <= rl_count r ->
        serve env h body db = (db, errorResponse TooManyOrdersForPhone 429, []))
  /\ (forall ip db0 e1 h1 b1 rest e h body,
        clientIP h1 = ip ->
        Counters.active_rows ip "ip" (windowStart (now e1)) (rate_limits db0) = [] ->
        Counters.is_success (response e1 h1 b1 db0) = true ->
        Counters.all_in_hour (now e1) rest ->
        9 <= Counters.accepted ip "ip" rest (snd (run rest (store_after e1 h1 b1 db0))) ->
        clientIP h = ip -> Counters.in_hour (now e1) (now e) ->
        validation body (fst (run rest (store_after e1 h1 b1 db0))) = None ->
        turnstile e = Verified ->
        serve e h body (fst (run rest (store_after e1 h1 b1 db0)))
        = (fst (run rest (store_after e1 h1 b1 db0)),
           errorResponse TooManyOrders 429, []))
  /\ (forall number db0 e1 h1 b1 rest e h body,
        phone b1 = number ->
        Counters.active_rows number "phone" (windowStart (now e1)) (rate_limits db0) = [] ->
        Counters.is_success (response e1 h1 b1 db0) = true ->
        Counters.all_in_hour (now e1) rest ->
        2 <= Counters.accepted number "phone" rest
               (snd (run rest (store_after e1 h1 b1 db0))) ->
        phone body = number -> Counters.in_hour (now e1) (now e) ->
        validation body (fst (run rest (store_after e1 h1 b1 db0))) = None ->
        turnstile e = Verified ->
        exists msg,
          serve e h body (fst (run rest (store_after e1 h1 b1 db0)))
          = (fst (run rest (store_after e1 h1 b1 db0)), errorResponse msg 429, [])).
Proof.
  split; [|split; [|split]].
  - intros env h body db r V T Hr Hc. apply serve_ip_limit; try assumption.
    unfold select_rate_limit. fold (Counters.active_rows (clientIP h) "ip"
                                      (windowStart (now env)) (rate_limits db)).
    rewrite Hr. cbn. now apply Z.leb_le.
  - intros env h body db r V T Hip Hr Hc.
    unfold serve, rate_limiting. rewrite V, T, Hip.
    unfold select_rate_limit at 1.
    fold (Counters.active_rows (phone body) "phone" (windowStart (now env)) (rate_limits db)).
    rewrite Hr. cbn [Js.single option_map reached].
    apply Z.leb_le in Hc. now rewrite Hc.
  - intros ip db0 e1 h1 b1 rest e h body H1 Hnone Hs Hall Hn Hh Ht V T.
    apply serve_ip_limit; try assumption. rewrite Hh.
    apply (limit_reached_after_run ip "ip" 10 db0 e1 h1 b1 rest (now e));
      try assumption; [|lia].
    rewrite charge_ip, H1. now rewrite String.eqb_refl.
  - intros number db0 e1 h1 b1 rest e h body H1 Hnone Hs Hall Hn Hh Ht V T.
    destruct (serve_phone_limit e h body (fst (run rest (store_after e1 h1 b1 db0))) V T)
      as (msg & Hserve & _); [|eauto].
    rewrite Hh.
    apply (limit_reached_after_run number "phone" 3 db0 e1 h1 b1 rest (now e));
      try assumption; [|lia].
    rewrite charge_phone, H1. now rewrite String.eqb_refl.
Qed.

Lemma rate_limit_within_a_window_witness :
  serve (fst (fst Sample.eleventh)) (snd (fst Sample.eleventh)) (snd Sample.eleventh)
    (fst (run (tl Sample.ten_in_an_hour)
            (store_after (fst (fst (Sample.visit 0 "00")))
               (snd (fst (Sample.visit 0 "00"))) (snd (Sample.visit 0 "00"))
               Sample.shop)))
  = (fst (run (tl Sample.ten_in_an_hour)
            (store_after (fst (fst (Sample.visit 0 "00")))
               (snd (fst (Sample.visit 0 "00"))) (snd (Sample.visit 0 "00"))
               Sample.shop)),
     errorResponse TooManyOrders 429, [])
  /\ exists msg,
      serve (fst (fst Sample.fourth)) (snd (fst Sample.fourth)) (snd Sample.fourth)
        (fst (run (tl Sample.three_for_a_phone)
                (store_after (fst (fst (Sample.call 0 "41.0.0.1" "00" "A")))
                   (snd (fst (Sample.call 0 "41.0.0.1" "00" "A")))
                   (snd (Sample.call 0 "41.0.0.1" "00" "A")) Sample.shop)))
      = (fst (run (tl Sample.three_for_a_phone)
                (store_after (fst (fst (Sample.call 0 "41.0.0.1" "00" "A")))
                   (snd (fst (Sample.call 0 "41.0.0.1" "00" "A")))
                   (snd (Sample.call 0 "41.0.0.1" "00" "A")) Sample.shop)),
         errorResponse msg 429, []).
Proof.
  split.
  - apply (proj1 (proj2 (proj2 rate_limit_within_a_window)) "41.0.0.1").
    + reflexivity.
    + reflexivity.
    + reflexivity.
    + unfold Counters.all_in_hour, Counters.in_hour.
      repeat (apply Forall_cons; [vm_compute; split; discriminate|]).
      apply Forall_nil.
    + vm_compute. discriminate.
    + reflexivity.
    + vm_compute. split; discriminate.
    + reflexivity.
    + reflexivity.
  - apply (proj2 (proj2 (proj2 rate_limit_within_a_window)) Sample.number).
    + reflexivity.
    + reflexivity.
    + reflexivity.
    + unfold Counters.all_in_hour, Counters.in_hour.
      repeat (apply Forall_cons; [vm_compute; split; discriminate|]).
      apply Forall_nil.
    + vm_compute. discriminate.
    + reflexivity.
    + vm_compute. split; discriminate.
    + reflexivity.
    + reflexivity.
Defined.

(** C5, on the input where the code departs from it.  One caller places
    two orders, and three more after the hour has passed.  Before the fifth
    request the table holds the counter of the first window (count 2,
    started at minute 0) next to the active one (count 2, started at minute
    61); the fifth request, at minute 63, for which the first window lies
    more than an hour back, is accepted, and afterwards both counters of
    the caller stand at 3: the update has set the expired one as well. *)
Theorem expired_counter_is_overwritten :
  let before := fst (run (firstn 4 Sample.into_a_second_window) Sample.shop) in
  let after := fst (run Sample.into_a_second_window Sample.shop) in
  forallb Counters.is_success (snd (run Sample.into_a_second_window Sample.shop)) = true
  /\ Counters.active_rows "41.0.0.1" "ip" 0 (rate_limits before)
     = [Counters.counter "41.0.0.1" "ip" 2 0;
        Counters.counter "41.0.0.1" "ip" 2 (61 * Sample.minute)]
  /\ Counters.active_rows "41.0.0.1" "ip" (windowStart (63 * Sample.minute))
       (rate_limits before)
     = [Counters.counter "41.0.0.1" "ip" 2 (61 * Sample.minute)]
  /\ Counters.active_rows "41.0.0.1" "ip" 0 (rate_limits after)
     = [Counters.counter "41.0.0.1" "ip" 3 0;
        Counters.counter "41.0.0.1" "ip" 3 (61 * Sample.minute)].
Proof. cbv zeta. repeat split; vm_compute; reflexivity. Qed.

(* ------------------------------------------------------------------ *)
(** * More about the create-order handler *)

Lemma filter_eqb_length (l : list string) (x : string) :
  List.length (filter (fun code => code =? x) l) = count_occ string_dec l x.
Proof.
  induction l as [|a l IH]; [reflexivity|].
  cbn. destruct (string_dec a x) as [->|N].
  - rewrite String.eqb_refl. cbn. now rewrite IH.
  - apply String.eqb_neq in N. now rewrite N.
Qed.

Lemma single_some_length {A : Type} (l : list A) :
  (exists r, Js.single l = Some r) <-> List.length l = 1%nat.
Proof.
  destruct l as [|a [|b l]]; cbn; split; try discriminate; eauto.
  - now intros [r H].
  - now intros [r H].
Qed.

Lemma blank_some (s : string) : Js.blank (Some s) = false <-> Js.trim s <> "".
Proof.
  unfold Js.blank, Js.truthy. cbn. rewrite negb_involutive.
  split; intros H; [now apply String.eqb_neq|now apply String.eqb_neq].
Qed.

(** X1. The validator lets a body through exactly when its six rules hold:
    the name is not blank, the phone matches the pattern, the region code
    occurs once in the region table, the delivery type is "office" or
    "home", a home delivery comes with an address that is not blank, and
    the cart is not empty. *)
Theorem validation_passes_iff (body : OrderRequest) (db : Db) :
  validation body db = None
  <-> Js.trim (full_name body) <> ""
      /\ Regex.test phoneRegex (phone body) = true
      /\ count_occ string_dec (wilayas db) (wilaya body) = 1%nat
      /\ (delivery_type body = "office" \/ delivery_type body = "home")
      /\ (delivery_type body = "home" ->
          exists a, address body = Some a /\ Js.trim a <> "")
      /\ cart_items body <> [].
Proof.
  unfold validation. rewrite <- blank_some, <- filter_eqb_length, <- single_some_length.
  destruct (Js.blank (Some (full_name body))).
  { split; [discriminate|]. now intros [H _]. }
  destruct (Regex.test phoneRegex (phone body)); cbn [negb].
  2:{ split; [discriminate|]. now intros (_ & H & _). }
  destruct (Js.single _) as [c|].
  2:{ split; [discriminate|]. now intros (_ & _ & [r H] & _). }
  unfold Js.includes. cbn [existsb].
  rewrite (String.eqb_sym "office"), (String.eqb_sym "home").
  destruct (delivery_type body =? "office") eqn:Eo;
    destruct (delivery_type body =? "home") eqn:Eh; cbn [orb negb andb].
  - apply String.eqb_eq in Eo, Eh. congruence.
  - apply String.eqb_eq in Eo. apply String.eqb_neq in Eh.
    destruct (cart_items body) as [|line lines].
    { split; [discriminate|]. now intros (_ & _ & _ & _ & _ & H). }
    split; [|reflexivity]. intros _.
    repeat split; eauto; try easy.
  - apply String.eqb_eq in Eh.
    destruct (Js.blank (address body)) eqn:Ea.
    + split; [discriminate|]. intros (_ & _ & _ & _ & H & _).
      destruct (H Eh) as (a & Ha & Hne). rewrite Ha in Ea.
      apply blank_some in Hne. congruence.
    + assert (Haddr : exists a, address body = Some a /\ Js.trim a <> "").
      { destruct (address body) as [a|]; [|discriminate].
        exists a. split; [reflexivity|now apply blank_some]. }
      destruct (cart_items body) as [|line lines].
      { split; [discriminate|]. now intros (_ & _ & _ & _ & _ & H). }
      split; [|reflexivity]. intros _.
      repeat split; eauto; try easy.
  - apply String.eqb_neq in Eo, Eh. split; [discriminate|].
    intros (_ & _ & _ & [H|H] & _); contradiction.
Qed.

Lemma pricing_inl_status (env : Env) (body : OrderRequest) (db : Db) (r : Response) :
  pricing env body db = inl r -> status_of r = 400 \/ status_of r = 500.
Proof.
  unfold pricing.
  repeat (match goal with
          | |- context [if ?c then _ else _] => destruct c
          | |- context [match ?x with _ => _ end] => destruct x
          end; try discriminate; try (intros [= <-]; cbn; auto)).
Qed.

Lemma create_status env h body db ipl phl priced :
  status_of (snd (fst (create env h body db ipl phl priced))) = 200
  \/ status_of (snd (fst (create env h body db ipl phl priced))) = 500.
Proof.
  unfold create. destruct (insert_order _ _ db); [|now right].
  destruct (itemsError env); cbn; auto.
Qed.

(** X2. The handler answers with status 200, 400, 429 or 500 and no other;
    and it answers 429 exactly when validation and bot verification have
    passed and the rate limiter has turned the request down. *)
Theorem status_is_200_400_429_or_500 (env : Env) (h : Headers)
    (body : OrderRequest) (db : Db) :
  In (status_of (response env h body db)) [200; 400; 429; 500]
  /\ (status_of (response env h body db) = 429
      <-> validation body db = None /\ turnstile env = Verified
          /\ exists r, rate_limiting (now env) (clientIP h) body db = inl r).
Proof.
  unfold response, serve.
  destruct (validation body db) as [r|] eqn:V.
  { apply validation_some in V as (m & ->). cbn. split; [auto|].
    split; [discriminate|]. now intros [H _]. }
  destruct (turnstile env) eqn:T.
  2:{ cbn. split; [auto|]. split; [discriminate|]. now intros (_ & H & _). }
  2:{ cbn. split; [auto 6|]. split; [discriminate|]. now intros (_ & H & _). }
  destruct (rate_limiting _ _ _ _) as [r|[ipl phl]] eqn:R.
  { pose proof (rate_limiting_inl _ _ _ _ _ R) as (m & ->). cbn.
    split; [auto|]. split; [eauto|reflexivity]. }
  destruct (duplicate_detection _ _ _) as [r|] eqn:D.
  { apply duplicate_detection_some in D as ->. cbn. split; [auto|].
    split; [discriminate|]. intros (_ & _ & [x Hx]). discriminate. }
  destruct (pricing _ _ _) as [r|priced] eqn:P.
  { cbn [fst snd]. destruct (pricing_inl_status _ _ _ _ P) as [-> | ->].
    - split; [cbn; auto|]. split; [discriminate|].
      intros (_ & _ & [x Hx]). discriminate.
    - split; [cbn; auto 6|]. split; [discriminate|].
      intros (_ & _ & [x Hx]). discriminate. }
  destruct (create_status env h body db ipl phl priced) as [-> | ->].
  - split; [cbn; auto|]. split; [discriminate|].
    intros (_ & _ & [x Hx]). discriminate.
  - split; [cbn; auto 6|]. split; [discriminate|].
    intros (_ & _ & [x Hx]). discriminate.
Qed.

Lemma orderItems_of_lines (found : list ProductRow) (cart : list CartItem)
    (acc : PrimFloat.float) (items : list OrderItem) (final : PrimFloat.float) :
  orderItems_of found cart acc = Some (items, final) ->
  Forall2 (fun line it =>
             exists p, Js.find (fun p => p_id p =? product_id line) found = Some p
                       /\ it = {| item_product_id := p_id p;
                                  item_product_name := p_name p;
                                  item_price := p_price p;
                                  item_quantity := quantity line |})
          cart items.
Proof.
  revert acc items final.
  induction cart as [|line rest IH]; intros acc items final.
  - cbn. intros [= <- _]. constructor.
  - cbn. destruct (Js.find _ found) as [p|] eqn:F; [|discriminate].
    destruct (orderItems_of found rest _) as [[its fin]|] eqn:O; [|discriminate].
    intros [= <- _]. constructor; [eauto|]. exact (IH _ _ _ O).
Qed.

Lemma pricing_inr_items (env : Env) (body : OrderRequest) (db : Db)
    (priced : Priced) :
  pricing env body db = inr priced ->
  filter (fun p => negb (p_is_active p)) (select_products db (productIds body)) = []
  /\ exists final,
      orderItems_of (select_products db (productIds body)) (cart_items body) (Js.of_Z 0)
      = Some (orderItems priced, final).
Proof.
  unfold pricing.
  destruct (productsError env || _); [discriminate|].
  destruct (0 <? _)%nat eqn:Hin; [discriminate|].
  apply length_zero_nil in Hin.
  destruct (orderItems_of _ _ (Js.of_Z 0)) as [[items sub]|]; [|discriminate].
  destruct (select_shipping_rate db body) as [rate|]; [|discriminate].
  destruct (shippingError env || _); [discriminate|].
  intros [= <-]. cbn. eauto.
Qed.

Lemma rows_of_lines (db : Db) (ids : list string) (cart : list CartItem)
    (id : string) (lines : list CartItem) (items : list OrderItem) :
  (forall line, In line lines -> In (product_id line) ids) ->
  filter (fun p => negb (p_is_active p)) (select_products db ids) = [] ->
  Forall2 (fun line it =>
             exists p, Js.find (fun p => p_id p =? product_id line)
                         (select_products db ids) = Some p
                       /\ it = {| item_product_id := p_id p;
                                  item_product_name := p_name p;
                                  item_price := p_price p;
                                  item_quantity := quantity line |})
          lines items ->
  Forall2
    (fun line row =>
       oi_order_id row = id
       /\ oi_product_id row = product_id line
       /\ oi_quantity row = quantity line
       /\ exists p,
           List.find (fun p => p_id p =? product_id line) (products db) = Some p
           /\ p_is_active p = true
           /\ oi_product_name row = p_name p
           /\ oi_price row = p_price p)
    lines (map (item_row cart id) items).
Proof.
  intros Hin Hact Ho. induction Ho as [|line it lines items (p & F & ->) _ IH];
    [constructor|].
  cbn [map]. constructor; [|apply IH; intros l Hl; apply Hin; now right].
  assert (Fdb := F). rewrite find_select_products in Fdb by (apply Hin; now left).
  apply find_some in F as [Fin Fid]. apply String.eqb_eq in Fid.
  cbn. repeat split; try assumption.
  exists p. repeat split; try assumption.
  destruct (p_is_active p) eqn:A; [reflexivity|exfalso].
  assert (Hbad : In p (filter (fun p => negb (p_is_active p))
                              (select_products db ids))).
  { apply filter_In. split; [exact Fin|now rewrite A]. }
  now rewrite Hact in Hbad.
Qed.

(** X3. An accepted order stores one item row per cart line, in cart order,
    after the rows that were there: each row carries the new order id, the
    product id and the quantity of its line, and the name and the price of
    the catalog row of that product, which is active. *)
Theorem accepted_order_snapshots_its_lines
    (env : Env) (h : Headers) (body : OrderRequest) (db : Db)
    (id tok : string) (t : PrimFloat.float) :
  response env h body db = success id tok t ->
  exists rows,
    order_items (store_after env h body db) = order_items db ++ rows
    /\ Forall2
         (fun line row =>
            oi_order_id row = id
            /\ oi_product_id row = product_id line
            /\ oi_quantity row = quantity line
            /\ exists p,
                List.find (fun p => p_id p =? product_id line) (products db) = Some p
                /\ p_is_active p = true
                /\ oi_product_name row = p_name p
                /\ oi_price row = p_price p)
         (cart_items body) rows.
Proof.
  intros H.
  destruct (serve_success_tables _ _ _ _ _ _ _ H)
    as (ipl & phl & priced & _ & P & _ & Hid & _ & Hitems & _).
  exists (map (item_row (cart_items body) id) (orderItems priced)).
  split; [exact Hitems|].
  destruct (pricing_inr_items _ _ _ _ P) as (Hact & final & Ho).
  apply orderItems_of_lines in Ho.
  apply (rows_of_lines db (productIds body)); try assumption.
  intros line Hl. unfold productIds. now apply in_map.
Qed.

Lemma accepted_order_snapshots_its_lines_witness :
  exists rows,
    order_items (store_after (Sample.world 1000 "o1") Sample.caller
                   (Sample.order Sample.number [Sample.line "A" 2; Sample.line "B" 1])
                   Sample.shop)
    = order_items Sample.shop ++ rows
    /\ Forall2
         (fun line row =>
            oi_order_id row = "o1"
            /\ oi_product_id row = product_id line
            /\ oi_quantity row = quantity line
            /\ exists p,
                List.find (fun p => p_id p =? product_id line) (products Sample.shop)
                = Some p
                /\ p_is_active p = true
                /\ oi_product_name row = p_name p
                /\ oi_price row = p_price p)
         [Sample.line "A" 2; Sample.line "B" 1] rows.
Proof.
  apply (accepted_order_snapshots_its_lines (Sample.world 1000 "o1") Sample.caller
           (Sample.order Sample.number [Sample.line "A" 2; Sample.line "B" 1])
           Sample.shop "o1" "pub-o1" (Js.number 660000)).
  reflexivity.
Defined.

Lemma find_app_none {A : Type} (f : A -> bool) (l l' : list A) :
  (forall x, In x l -> f x = false) -> Js.find f (l ++ l') = Js.find f l'.
Proof.
  intros H. induction l as [|a l IH]; [reflexivity|].
  cbn. rewrite (H a (or_introl eq_refl)). apply IH.
  intros x Hx. apply H. now right.
Qed.

(** X4. The options of an item row are those of the last cart line with
    the row's product: when the cart names a product on several lines (say
    with two sizes), every item row of that product is stored with the
    size, the color and the options of the last of these lines. *)
Theorem item_options_are_those_of_the_last_line
    (pre post : list CartItem) (c : CartItem) (id : string) (it : OrderItem) :
  (forall x, In x post -> product_id x <> product_id c) ->
  item_product_id it = product_id c ->
  oi_options (item_row (pre ++ c :: post) id it) = options c
  /\ oi_selected_size (item_row (pre ++ c :: post) id it)
     = match options c with Some o => size o | None => None end
  /\ oi_selected_color (item_row (pre ++ c :: post) id it)
     = match options c with Some o => color o | None => None end.
Proof.
  intros Hpost Hid.
  assert (Hget : optionsByProductId (pre ++ c :: post) (item_product_id it)
                 = Some (options c)).
  { unfold optionsByProductId. rewrite Hid, rev_app_distr. cbn [rev].
    rewrite <- app_assoc. rewrite find_app_none.
    - cbn. now rewrite String.eqb_refl.
    - intros x Hx. apply in_rev in Hx. apply String.eqb_neq. now apply Hpost. }
  unfold item_row. cbn. rewrite Hget. now destruct (options c).
Qed.

Lemma item_options_are_those_of_the_last_line_witness :
  let small := {| product_id := "A"; quantity := 1;
                  options := Some {| size := Some "S"; color := None |};
                  client_price := None |} in
  let medium := {| product_id := "A"; quantity := 2;
                   options := Some {| size := Some "M"; color := None |};
                   client_price := None |} in
  let first_row :=
    item_row ([small] ++ medium :: []) "o1"
      {| item_product_id := "A"; item_product_name := "Necklace";
         item_price := 250000; item_quantity := 1 |} in
  oi_options first_row = options medium
  /\ oi_selected_size first_row = Some "M"
  /\ oi_selected_color first_row = None.
Proof.
  cbv zeta.
  apply (item_options_are_those_of_the_last_line
           [{| product_id := "A"; quantity := 1;
               options := Some {| size := Some "S"; color := None |};
               client_price := None |}]
           []
           {| product_id := "A"; quantity := 2;
              options := Some {| size := Some "M"; color := None |};
              client_price := None |}).
  - intros x [].
  - reflexivity.
Defined.

Lemma record_rows_keeps_windows (id ty : string) (l : option Z) (t : Z)
    (table : list RateLimitRow) :
  exists new,
    map (fun r => (rl_identifier r, rl_identifier_type r, rl_action r,
                   rl_window_start r))
        (Counters.record_rows id ty l t table)
    = map (fun r => (rl_identifier r, rl_identifier_type r, rl_action r,
                     rl_window_start r))
          (table ++ new)
    /\ (List.length new <= 1)%nat.
Proof.
  destruct l as [c|]; cbn.
  - exists []. rewrite app_nil_r, map_map. split; [|cbn; lia].
    apply map_ext. intros r. now destruct (rate_limit_key id ty r).
  - exists [Counters.counter id ty 1 t]. split; [reflexivity|cbn; lia].
Qed.

(** X5. Whatever the outcome, the handler leaves the region, product,
    shipping-rate, settings and pending-event tables as they were; orders,
    order items and status history only grow at their end, orders and
    status history by at most one row; an accepted order adds one history
    row, with status "new" and its id, when the store takes the row, and
    none when the store refuses it, and a rejected request adds none; no
    cart appears that was not there; and every rate-limit row keeps its key
    and its window start, with at most two rows added after them. *)
Theorem create_order_touches_only_its_tables
    (env : Env) (h : Headers) (body : OrderRequest) (db : Db) :
  wilayas (store_after env h body db) = wilayas db
  /\ products (store_after env h body db) = products db
  /\ shipping_rates (store_after env h body db) = shipping_rates db
  /\ settings (store_after env h body db) = settings db
  /\ pending_tracking_events (store_after env h body db)
     = pending_tracking_events db
  /\ (exists new, orders (store_after env h body db) = orders db ++ new
                  /\ (List.length new <= 1)%nat)
  /\ (exists new, order_items (store_after env h body db) = order_items db ++ new)
  /\ (exists new,
        order_status_history (store_after env h body db)
        = order_status_history db ++ new
        /\ (List.length new <= 1)%nat
        /\ (forall id tok t,
              response env h body db = success id tok t ->
              new = if historyError env then []
                    else [{| sh_order_id := id; sh_status := "new" |}])
        /\ (forall msg st,
              response env h body db = errorResponse msg st -> new = []))
  /\ (forall c, In c (carts (store_after env h body db)) -> In c (carts db))
  /\ (exists new,
        map (fun r => (rl_identifier r, rl_identifier_type r, rl_action r,
                       rl_window_start r))
            (rate_limits (store_after env h body db))
        = map (fun r => (rl_identifier r, rl_identifier_type r, rl_action r,
                         rl_window_start r))
              (rate_limits db ++ new)
        /\ (List.length new <= 2)%nat).
Proof.
  destruct (response env h body db) as [id tok t|msg st] eqn:H.
  2:{ destruct (serve_error_tables _ _ _ _ _ _ H)
        as (T1 & T2 & T3 & T4 & T5 & T6 & T7 & T8 & T9).
      rewrite T1, T2, T3, T4, T5, T6, T7, T8, T9.
      do 5 (split; [reflexivity|]).
      split.
      { destruct (serve_error_store _ _ _ _ _ _ H)
          as [-> | (_ & _ & _ & _ & priced & _ & ->)].
        - exists []. rewrite app_nil_r. split; [reflexivity|cbn; lia].
        - eexists. split; [reflexivity|cbn; lia]. }
      split; [exists []; now rewrite app_nil_r|].
      split.
      { exists []. rewrite app_nil_r. split; [reflexivity|]. split; [cbn; lia|].
        split; [intros; discriminate|reflexivity]. }
      split; [auto|].
      exists []. rewrite app_nil_r. split; [reflexivity|cbn; lia]. }
  destruct (serve_success _ _ _ _ _ _ _ H)
    as (ipl & phl & priced & db1 & _ & _ & _ & _ & _ & I & _ & Hid & _ & _ & S).
  apply insert_order_some in I as (-> & _ & _).
  assert (Hrl : rate_limits (store_after env h body db)
                = Counters.recorded (clientIP h) (phone body) ipl phl (now env)
                    (rate_limits db)).
  { rewrite S. destruct (delete_cart_tables env body
      (record_rate_limit (phone body) "phone" phl (now env)
         (record_rate_limit (clientIP h) "ip" ipl (now env)
            (insert_status_history env id
               (insert_order_items
                  (map (item_row (cart_items body) id) (orderItems priced))
                  (with_orders db (orders db ++ [order_row env h body priced])))))))
      as (_ & _ & ->).
    unfold Counters.recorded. rewrite !record_rate_limit_rows.
    unfold insert_status_history. now destruct (historyError env). }
  assert (Hrest :
    wilayas (store_after env h body db) = wilayas db
    /\ products (store_after env h body db) = products db
    /\ shipping_rates (store_after env h body db) = shipping_rates db
    /\ settings (store_after env h body db) = settings db
    /\ pending_tracking_events (store_after env h body db)
       = pending_tracking_events db
    /\ orders (store_after env h body db)
       = orders db ++ [order_row env h body priced]
    /\ order_items (store_after env h body db)
       = order_items db ++ map (item_row (cart_items body) id) (orderItems priced)
    /\ order_status_history (store_after env h body db)
       = order_status_history db
         ++ (if historyError env then []
             else [{| sh_order_id := id; sh_status := "new" |}])
    /\ (forall c, In c (carts (store_after env h body db)) -> In c (carts db))).
  { rewrite S. unfold delete_cart, insert_status_history.
    destruct (cart_id body) as [cid|];
      [destruct (Js.truthy cid && negb (cartError env))|];
      destruct ipl, phl, (historyError env); cbn; rewrite ?app_nil_r;
      repeat split; auto.
    all: intros c Hc; apply filter_In in Hc; tauto. }
  destruct Hrest as (H1 & H2 & H3 & H4 & H5 & H6 & H7 & H8 & H9).
  do 5 (split; [assumption|]).
  split; [eexists; split; [exact H6|cbn; lia]|].
  split; [eexists; exact H7|].
  split.
  { eexists. split; [exact H8|]. split; [destruct (historyError env); cbn; lia|].
    split; [|intros; discriminate]. now intros id' tok' t' [= <- _ _]. }
  split; [exact H9|].
  rewrite Hrl. unfold Counters.recorded.
  destruct (record_rows_keeps_windows (clientIP h) "ip" ipl (now env) (rate_limits db))
    as (n1 & E1 & L1).
  destruct (record_rows_keeps_windows (phone body) "phone" phl (now env)
              (Counters.record_rows (clientIP h) "ip" ipl (now env) (rate_limits db)))
    as (n2 & E2 & L2).
  exists (n1 ++ n2). split.
  - rewrite E2, map_app, E1, app_assoc, <- !map_app. reflexivity.
  - rewrite length_app. lia.
Qed.

(** X6. After an accepted order whose cart delete the store carries out,
    the carts table holds exactly the carts it held, less those whose id
    is the [cart_id] of the request when that is a non-empty string.  When
    the store refuses the delete, whose answer the handler does not look
    at, or the request has no [cart_id] or an empty one, the carts table is
    as it was. *)
Theorem accepted_order_deletes_its_cart
    (env : Env) (h : Headers) (body : OrderRequest) (db : Db)
    (id tok : string) (t : PrimFloat.float) :
  response env h body db = success id tok t ->
  (cartError env = false ->
   forall c,
     In c (carts (store_after env h body db))
     <-> In c (carts db) /\ ~ (cart_id body = Some (c_id c) /\ c_id c <> ""))
  /\ (cartError env = true \/ cart_id body = None \/ cart_id body = Some "" ->
      carts (store_after env h body db) = carts db).
Proof.
  intros H.
  destruct (serve_success _ _ _ _ _ _ _ H)
    as (ipl & phl & priced & db1 & _ & _ & _ & _ & _ & I & _ & _ & _ & _ & ->).
  apply insert_order_some in I as (-> & _ & _).
  assert (C : carts (delete_cart env body
                (record_rate_limit (phone body) "phone" phl (now env)
                   (record_rate_limit (clientIP h) "ip" ipl (now env)
                      (insert_status_history env id
                         (insert_order_items
                            (map (item_row (cart_items body) id) (orderItems priced))
                            (with_orders db
                               (orders db ++ [order_row env h body priced])))))))
              = match cart_id body with
                | Some cid =>
                    if Js.truthy cid && negb (cartError env)
                    then filter (fun c => negb (c_id c =? cid)) (carts db)
                    else carts db
                | None => carts db
                end).
  { unfold delete_cart, insert_status_history.
    destruct (cart_id body) as [cid|];
      [destruct (Js.truthy cid && negb (cartError env))|];
      now destruct ipl, phl, (historyError env). }
  rewrite C. clear C. split.
  - intros -> c. cbn [negb].
    destruct (cart_id body) as [cid|].
    + rewrite andb_true_r. unfold Js.truthy. destruct (cid =? "") eqn:E; cbn [negb].
      * apply String.eqb_eq in E. subst cid. split; [|tauto].
        intros Hc. split; [exact Hc|]. intros [[= Hid] Hne]. congruence.
      * apply String.eqb_neq in E.
        rewrite filter_In, negb_true_iff, String.eqb_neq. split.
        -- intros [Hc Hn]. split; [exact Hc|]. intros [[= Hid] _]. congruence.
        -- intros [Hc Hn]. split; [exact Hc|]. intros Hid. apply Hn.
           split; congruence.
    + split; [|tauto]. intros Hc. split; [exact Hc|]. now intros [? _].
  - intros [-> | [-> | ->]]; [|reflexivity|reflexivity].
    destruct (cart_id body) as [cid|]; [|reflexivity].
    now rewrite andb_false_r.
Qed.

Lemma accepted_order_deletes_its_cart_witness :
  let draft := {| c_id := "k1"; c_phone := Some "0551234567" |} in
  let other := {| c_id := "k2"; c_phone := None |} in
  let body := {| full_name := "Amina B."; phone := "0551234567"; wilaya := "16";
                 commune := None; delivery_type := "office"; address := None;
                 note := None; cart_items := [Sample.line "A" 1];
                 turnstile_token := "token"; event_id := "evt_1";
                 cart_id := Some "k1" |} in
  carts (store_after (Sample.world 1000 "o1") Sample.caller body
           (with_carts Sample.shop [draft; other])) = [other]
  /\ (In other (carts (store_after (Sample.world 1000 "o1") Sample.caller body
                         (with_carts Sample.shop [draft; other])))
      <-> In other (carts (with_carts Sample.shop [draft; other]))
          /\ ~ (cart_id body = Some (c_id other) /\ c_id other <> "")).
Proof.
  cbv zeta. split; [reflexivity|].
  refine (proj1 (accepted_order_deletes_its_cart (Sample.world 1000 "o1")
                   Sample.caller _ _ "o1" "pub-o1" (Js.number 290000) _) eq_refl _).
  reflexivity.
Defined.

Lemma serve_success_fetches (env : Env) (h : Headers) (body : OrderRequest)
    (db : Db) (id tok : string) (t : PrimFloat.float) :
  response env h body db = success id tok t ->
  exists priced,
    pricing env body db = inr priced /\ t = total priced
    /\ snd (serve env h body db)
       = [ {| fetch_function := "meta-server-events";
              fetch_body := trackingData body id priced |};
           {| fetch_function := "tiktok-server-events";
              fetch_body := tiktokTrackingData body id priced |} ].
Proof.
  unfold response, serve.
  destruct (validation body db) eqn:V;
    [apply validation_some in V as (m & ->); discriminate|].
  destruct (turnstile env); try discriminate.
  destruct (rate_limiting _ _ _ _) as [r|[ipl phl]] eqn:R;
    [apply rate_limiting_inl in R as (m & ->); discriminate|].
  destruct (duplicate_detection _ _ _) eqn:D;
    [apply duplicate_detection_some in D as ->; discriminate|].
  destruct (pricing _ _ _) as [r|priced] eqn:P;
    [apply pricing_inl in P as (m & st & ->); discriminate|].
  unfold create.
  destruct (insert_order _ _ db) as [db1|]; [|discriminate].
  destruct (itemsError env); [discriminate|].
  cbv zeta. cbn [fst snd]. intros [= <- <- <-]. exists priced. auto.
Qed.

(** X7. An accepted order fires exactly two tracking calls, the first to
    meta-server-events and the second to tiktok-server-events.  Both carry
    a Purchase event with the event id and the phone of the request, the
    answered total as value, the currency DZD, the id of the new order and
    the product ids of the cart in cart order; the second also lists one
    content per cart line, with the product id and quantity of the line
    and the catalog name and price. *)
Theorem accepted_order_fires_two_purchase_events
    (env : Env) (h : Headers) (body : OrderRequest) (db : Db)
    (id tok : string) (t : PrimFloat.float) :
  response env h body db = success id tok t ->
  exists meta tiktok contents,
    snd (serve env h body db)
    = [ {| fetch_function := "meta-server-events"; fetch_body := meta |};
        {| fetch_function := "tiktok-server-events"; fetch_body := tiktok |} ]
    /\ (forall e, e = meta \/ e = tiktok ->
          te_event_name e = "Purchase"
          /\ te_event_id e = event_id body
          /\ te_phone e = Some (phone body)
          /\ te_value e = Some t
          /\ te_currency e = Some "DZD"
          /\ te_order_id e = Some id
          /\ te_content_ids e = Some (map product_id (cart_items body))
          /\ te_user_data e = None)
    /\ te_contents meta = None
    /\ te_contents tiktok = Some contents
    /\ Forall2
         (fun line c =>
            content_id c = product_id line
            /\ content_quantity c = quantity line
            /\ exists p,
                List.find (fun p => p_id p =? product_id line) (products db) = Some p
                /\ content_name c = p_name p /\ content_price c = p_price p)
         (cart_items body) contents.
Proof.
  intros H.
  destruct (serve_success_fetches _ _ _ _ _ _ _ H) as (priced & P & -> & F).
  exists (trackingData body id priced), (tiktokTrackingData body id priced).
  eexists. split; [exact F|].
  split; [intros e [-> | ->]; cbn; repeat split; reflexivity|].
  split; [reflexivity|]. split; [reflexivity|].
  destruct (pricing_inr_items _ _ _ _ P) as (Hact & final & Ho).
  apply orderItems_of_lines in Ho.
  assert (Hin : forall line, In line (cart_items body) ->
                             In (product_id line) (productIds body)).
  { intros line Hl. unfold productIds. now apply in_map. }
  revert Hin. induction Ho as [|line it lines items (p & Fp & ->) _ IH];
    intros Hin; [constructor|].
  cbn [map]. constructor; [|apply IH; intros l Hl; apply Hin; now right].
  assert (Fdb := Fp). rewrite find_select_products in Fdb by (apply Hin; now left).
  apply find_some in Fp as [_ Fid]. apply String.eqb_eq in Fid.
  cbn. repeat split; try assumption. eauto.
Qed.

Lemma accepted_order_fires_two_purchase_events_witness :
  exists meta tiktok contents,
    snd (serve (Sample.world 1000 "o1") Sample.caller
           (Sample.order Sample.number [Sample.line "A" 2]) Sample.shop)
    = [ {| fetch_function := "meta-server-events"; fetch_body := meta |};
        {| fetch_function := "tiktok-server-events"; fetch_body := tiktok |} ]
    /\ (forall e, e = meta \/ e = tiktok ->
          te_event_name e = "Purchase"
          /\ te_event_id e = "evt_1"
          /\ te_phone e = Some Sample.number
          /\ te_value e = Some (Js.number 540000)
          /\ te_currency e = Some "DZD"
          /\ te_order_id e = Some "o1"
          /\ te_content_ids e = Some ["A"]
          /\ te_user_data e = None)
    /\ te_contents meta = None
    /\ te_contents tiktok = Some contents
    /\ Forall2
         (fun line c =>
            content_id c = product_id line
            /\ content_quantity c = quantity line
            /\ exists p,
                List.find (fun p => p_id p =? product_id line) (products Sample.shop)
                = Some p
                /\ content_name c = p_name p /\ content_price c = p_price p)
         [Sample.line "A" 2] contents.
Proof.
  apply (accepted_order_fires_two_purchase_events (Sample.world 1000 "o1")
           Sample.caller (Sample.order Sample.number [Sample.line "A" 2])
           Sample.shop "o1" "pub-o1" (Js.number 540000)).
  reflexivity.
Defined.

Lemma split_comma_head_spec (s : string) :
  String.prefix (Js.split_comma_head s) s = true
  /\ ~ In ","%char (list_ascii_of_string (Js.split_comma_head s)).
Proof.
  induction s as [|c s [IHp IHc]]; [split; [reflexivity|easy]|].
  cbn. destruct (c =? ",")%char eqn:E.
  - split; [reflexivity|easy].
  - cbn. destruct (ascii_dec c c) as [_|N]; [|contradiction].
    split; [exact IHp|]. intros [Hc|Hc]; [|contradiction].
    apply Ascii.eqb_neq in E. congruence.
Qed.

Lemma or_else_truthy (x y : option string) (s : string) :
  Js.or_else x y = Some s -> y = None \/ (exists t, y = Some t /\ t <> "") -> s <> "".
Proof.
  unfold Js.or_else, Js.truthy. intros H Hy.
  destruct x as [a|].
  - destruct (a =? "") eqn:E; cbn in H.
    + destruct Hy as [-> | (t & -> & Ht)]; [discriminate|congruence].
    + apply String.eqb_neq in E. congruence.
  - destruct Hy as [-> | (t & -> & Ht)]; [discriminate|congruence].
Qed.

(** X8. The caller's address the handler works with is never the empty
    string.  A non-empty cf-connecting-ip header is taken as it is;
    without one, the part of x-forwarded-for before its first comma is
    taken when it is not empty, and it contains no comma; failing both, the
    address is "unknown". *)
Theorem client_ip_is_never_empty :
  (forall h, clientIP h <> "")
  /\ (forall h ip, cf_connecting_ip h = Some ip -> ip <> "" -> clientIP h = ip)
  /\ (forall h s,
        cf_connecting_ip h = None \/ cf_connecting_ip h = Some "" ->
        x_forwarded_for h = Some s -> Js.split_comma_head s <> "" ->
        clientIP h = Js.split_comma_head s
        /\ String.prefix (clientIP h) s = true
        /\ ~ In ","%char (list_ascii_of_string (clientIP h)))
  /\ (forall h,
        cf_connecting_ip h = None \/ cf_connecting_ip h = Some "" ->
        x_forwarded_for h = None
        \/ (exists s, x_forwarded_for h = Some s /\ Js.split_comma_head s = "") ->
        clientIP h = "unknown").
Proof.
  repeat split.
  - intros h. unfold clientIP.
    destruct (Js.or_else (cf_connecting_ip h) _) as [ip|] eqn:E; [|discriminate].
    apply (or_else_truthy _ _ _ E). right.
    destruct (Js.or_else (option_map Js.split_comma_head (x_forwarded_for h))
                (Some "unknown")) as [t|] eqn:E2.
    + exists t. split; [reflexivity|]. apply (or_else_truthy _ _ _ E2).
      right. exists "unknown". split; [reflexivity|discriminate].
    + unfold Js.or_else in E2.
      destruct (option_map _ _) as [a|]; [destruct (Js.truthy a)|]; discriminate.
  - intros h ip Hcf Hne. unfold clientIP, Js.or_else, Js.truthy. rewrite Hcf.
    apply String.eqb_neq in Hne. now rewrite Hne.
  - unfold clientIP, Js.or_else, Js.truthy. rewrite H0. cbn.
    apply String.eqb_neq in H1. rewrite H1. cbn.
    now destruct H as [-> | ->].
  - assert (E : clientIP h = Js.split_comma_head s).
    { unfold clientIP, Js.or_else, Js.truthy. rewrite H0. cbn.
      apply String.eqb_neq in H1. rewrite H1. cbn.
      now destruct H as [-> | ->]. }
    rewrite E. apply split_comma_head_spec.
  - assert (E : clientIP h = Js.split_comma_head s).
    { unfold clientIP, Js.or_else, Js.truthy. rewrite H0. cbn.
      apply String.eqb_neq in H1. rewrite H1. cbn.
      now destruct H as [-> | ->]. }
    rewrite E. apply split_comma_head_spec.
  - intros h Hcf Hx. unfold clientIP, Js.or_else, Js.truthy.
    destruct Hx as [-> | (s & -> & Hs)]; cbn; rewrite ?Hs; cbn;
      now destruct Hcf as [-> | ->].
Qed.

(* ------------------------------------------------------------------ *)
(** * One open window for a key *)

Lemma filter_length_at_most {A : Type} (f : A -> bool) (l : list A) :
  (List.length (filter f l) <= List.length l)%nat.
Proof.
  induction l as [|a l IH]; [cbn; lia|]. cbn. destruct (f a); cbn; lia.
Qed.

Lemma one_active_later (t t' : Z) (table : list RateLimitRow) :
  Bookkeeping.one_active t table -> t <= t' -> Bookkeeping.one_active t' table.
Proof.
  intros H Ht id ty. specialize (H id ty).
  unfold Counters.active_rows in *.
  rewrite (filter_narrow
             (fun r => rate_limit_key id ty r
                       && (windowStart t <=? rl_window_start r)%Z)).
  - etransitivity; [apply filter_length_at_most|exact H].
  - intros r. rewrite !andb_true_iff, !Z.leb_le. unfold windowStart.
    intros [K L]. split; [exact K|lia].
Qed.

Lemma record_rows_one_active (id ty id' ty' : string) (l : option Z) (t s : Z)
    (table : list RateLimitRow) :
  (List.length (Counters.active_rows id ty s table) <= 1)%nat ->
  l = option_map rl_count (Js.single (Counters.active_rows id' ty' s table)) ->
  s <= t ->
  (List.length (Counters.active_rows id ty s (Counters.record_rows id' ty' l t table))
   <= 1)%nat.
Proof.
  intros H Hl Hs. destruct ((ty' =? ty) && (id' =? id)) eqn:K.
  - apply andb_true_iff in K as [K1 K2]. apply String.eqb_eq in K1, K2. subst id' ty'.
    destruct (Counters.active_rows id ty s table) as [|r [|r' rest]] eqn:E.
    + cbn in Hl. subst l. rewrite record_rows_insert, E by exact Hs. cbn. lia.
    + cbn in Hl. subst l. rewrite record_rows_update, E. cbn. lia.
    + cbn in H. lia.
  - now rewrite record_rows_other.
Qed.

Lemma serve_one_active (env : Env) (h : Headers) (body : OrderRequest) (db : Db) :
  Bookkeeping.one_active (now env) (rate_limits db) ->
  Bookkeeping.one_active (now env) (rate_limits (store_after env h body db)).
Proof.
  intros H. destruct (response env h body db) as [oid tok t|msg st] eqn:R.
  - destruct (serve_success_tables _ _ _ _ _ _ _ R)
      as (ipl & phl & priced & RL & _ & _ & _ & _ & _ & ->).
    apply rate_limiting_inr in RL as (Hipl & Hphl & _ & _).
    assert (Hle : windowStart (now env) <= now env) by (unfold windowStart; lia).
    intros id ty. unfold Counters.recorded.
    apply record_rows_one_active; [|now rewrite record_rows_other|exact Hle].
    apply record_rows_one_active; [apply H|exact Hipl|exact Hle].
  - now rewrite (serve_error_rate_limits _ _ _ _ _ _ R).
Qed.

(** X9. Requests handled one after the other with a clock that never goes
    back keep at most one active counter per key: when no identifier and
    type has two counters whose window is open at the start, none has two
    whose window is open at the instant of the last request. *)
Theorem sequential_requests_keep_one_active_counter
    (reqs : list (Env * Headers * OrderRequest)) (db : Db) (t0 : Z) :
  Bookkeeping.one_active t0 (rate_limits db) ->
  Bookkeeping.clock_from t0 reqs ->
  Bookkeeping.one_active (Bookkeeping.last_clock t0 reqs)
    (rate_limits (fst (run reqs db))).
Proof.
  revert db t0. induction reqs as [|[[env h] body] rest IH]; intros db t0 H Hc.
  - exact H.
  - destruct Hc as [Ht Hc]. rewrite run_cons. cbn [fst Bookkeeping.last_clock].
    apply IH; [|exact Hc]. apply serve_one_active.
    now apply (one_active_later t0).
Qed.

Lemma sequential_requests_keep_one_active_counter_witness :
  Bookkeeping.one_active
    (Bookkeeping.last_clock 0 Sample.into_a_second_window)
    (rate_limits (fst (run Sample.into_a_second_window Sample.shop))).
Proof.
  apply sequential_requests_keep_one_active_counter.
  - intros id ty. cbn. lia.
  - cbn. unfold Sample.minute. lia.
Defined.

Lemma single_some_inv {A : Type} (l : list A) (r : A) :
  Js.single l = Some r -> l = [r].
Proof. destruct l as [|a [|b l]]; try discriminate. now intros [= ->]. Qed.

(* ------------------------------------------------------------------ *)
(** * More about the meta-server-events handler *)

Section DispatcherFootprint.

Import MetaServerEvents.
Variable hashSHA256 : string -> string.

Lemma send_shape (env : MetaServerEvents.Env) (pixel token : string)
    (body : TrackingEvent) (db : Db) :
  send hashSHA256 env pixel token body db
  = (db,
     match meta env with
     | Received n => Sent n
     | Declined => MetaError
     | NoAnswer => TrackingFailed
     end,
     [{| call_pixel := pixel; call_access_token := token;
         call_payload := eventPayload hashSHA256 env body |}]).
Proof. unfold send. now destruct (meta env). Qed.

End DispatcherFootprint.

(** X11. The dispatcher never changes the store.  It makes at most one
    outbound call, and none exactly when a credential is missing or the
    event is named "Purchase" and carries an order id while the setting is
    "delivered".  It never answers "queued". *)
Theorem dispatcher_writes_nothing_and_calls_at_most_once
    (hashSHA256 : string -> string) (env : MetaServerEvents.Env)
    (body : TrackingEvent) (db : Db) :
  fst (fst (MetaServerEvents.serve hashSHA256 env body db)) = db
  /\ (List.length (snd (MetaServerEvents.serve hashSHA256 env body db)) <= 1)%nat
  /\ (snd (MetaServerEvents.serve hashSHA256 env body db) = []
      <-> MetaServerEvents.missing (MetaServerEvents.META_PIXEL_ID env)
          || MetaServerEvents.missing (MetaServerEvents.META_ACCESS_TOKEN env) = true
          \/ (te_event_name body = "Purchase"
              /\ MetaServerEvents.missing (te_order_id body) = false
              /\ MetaServerEvents.purchaseEventTrigger db = "delivered"))
  /\ snd (fst (MetaServerEvents.serve hashSHA256 env body db))
     <> MetaServerEvents.Queued.
Proof.
  destruct (serve_cases hashSHA256 env body db)
    as [[-> C] | [(-> & _ & _ & N & O & T)
                 | (pixel & token & _ & _ & C1 & C2 & -> & Hn)]].
  - cbn. repeat split; auto; try lia; discriminate.
  - cbn. repeat split; auto; try lia; discriminate.
  - rewrite send_shape. cbn [fst snd].
    split; [reflexivity|]. split; [cbn; lia|]. split.
    + split; [discriminate|]. rewrite C1, C2. cbn [orb].
      intros [H | (N & O & T)]; [discriminate|].
      destruct Hn as [Hn | [Hn | Hn]]; [contradiction|congruence|contradiction].
    + now destruct (MetaServerEvents.meta env).
Qed.

(** X12. Every outbound call of the dispatcher goes to the configured
    pixel with the configured access token, and its payload carries the
    event id, the event name, the value and the content ids of the request
    unchanged, the action source "website", the content type "product" and,
    as currency, that of the request or "DZD" when the request has none or
    an empty one. *)
Theorem dispatcher_payload_carries_the_event
    (hashSHA256 : string -> string) (env : MetaServerEvents.Env)
    (body : TrackingEvent) (db : Db) :
  forall call,
    In call (snd (MetaServerEvents.serve hashSHA256 env body db)) ->
    MetaServerEvents.META_PIXEL_ID env = Some (MetaServerEvents.call_pixel call)
    /\ MetaServerEvents.META_ACCESS_TOKEN env
       = Some (MetaServerEvents.call_access_token call)
    /\ MetaServerEvents.ep_event_id (MetaServerEvents.call_payload call)
       = te_event_id body
    /\ MetaServerEvents.ep_event_name (MetaServerEvents.call_payload call)
       = te_event_name body
    /\ MetaServerEvents.ep_event_time (MetaServerEvents.call_payload call)
       = MetaServerEvents.eventTime env
    /\ MetaServerEvents.ep_action_source (MetaServerEvents.call_payload call)
       = "website"
    /\ MetaServerEvents.cd_value
         (MetaServerEvents.ep_custom_data (MetaServerEvents.call_payload call))
       = te_value body
    /\ MetaServerEvents.cd_content_ids
         (MetaServerEvents.ep_custom_data (MetaServerEvents.call_payload call))
       = te_content_ids body
    /\ MetaServerEvents.cd_content_type
         (MetaServerEvents.ep_custom_data (MetaServerEvents.call_payload call))
       = "product"
    /\ MetaServerEvents.cd_currency
         (MetaServerEvents.ep_custom_data (MetaServerEvents.call_payload call))
       = match te_currency body with
         | Some c => if c =? "" then "DZD" else c
         | None => "DZD"
         end.
Proof.
  intros call.
  destruct (serve_cases hashSHA256 env body db)
    as [[-> _] | [(-> & _) | (pixel & token & Hp & Ht & _ & _ & -> & _)]];
    try easy.
  rewrite send_shape. cbn [snd]. intros [<- | []]. cbn.
  repeat split; try assumption.
  unfold Js.or_else, Js.truthy.
  destruct (te_currency body) as [c|]; [|reflexivity].
  now destruct (c =? "").
Qed.

(** X13. With both credentials configured, an event that is not named
    "Purchase", or that carries no order id, is sent at once whatever the
    store holds, the purchase-event setting included: the store is left as
    it is, one call is made, and the answer says what the platform
    answered. *)
Theorem other_events_are_sent_at_once
    (hashSHA256 : string -> string) (env : MetaServerEvents.Env)
    (body : TrackingEvent) (db : Db) (pixel token : string) :
  MetaServerEvents.META_PIXEL_ID env = Some pixel -> pixel <> "" ->
  MetaServerEvents.META_ACCESS_TOKEN env = Some token -> token <> "" ->
  te_event_name body <> "Purchase"
  \/ te_order_id body = None \/ te_order_id body = Some "" ->
  MetaServerEvents.serve hashSHA256 env body db
  = (db,
     match MetaServerEvents.meta env with
     | MetaServerEvents.Received n => MetaServerEvents.Sent n
     | MetaServerEvents.Declined => MetaServerEvents.MetaError
     | MetaServerEvents.NoAnswer => MetaServerEvents.TrackingFailed
     end,
     [{| MetaServerEvents.call_pixel := pixel;
         MetaServerEvents.call_access_token := token;
         MetaServerEvents.call_payload :=
           MetaServerEvents.eventPayload hashSHA256 env body |}]).
Proof.
  intros Hp Hpne Ht Htne Hev.
  apply String.eqb_neq in Hpne, Htne.
  unfold MetaServerEvents.serve, MetaServerEvents.missing, Js.truthy.
  rewrite Hp, Ht, Hpne, Htne. cbn [negb orb].
  rewrite <- send_shape.
  destruct Hev as [Hn | [Ho | Ho]].
  - apply String.eqb_neq in Hn. now rewrite Hn.
  - rewrite Ho. cbn. now rewrite andb_false_r.
  - rewrite Ho. cbn. now rewrite andb_false_r.
Qed.

Lemma other_events_are_sent_at_once_witness :
  let view := {| te_event_name := "ViewContent"; te_event_id := "evt_7";
                 te_phone := None; te_value := Some (Js.number 250000);
                 te_currency := None; te_order_id := None;
                 te_content_ids := Some ["A"]; te_contents := None;
                 te_user_data := None |} in
  MetaServerEvents.serve Sample.digest Sample.configured view Sample.shop_on_delivery
  = (Sample.shop_on_delivery, MetaServerEvents.Sent 1,
     [{| MetaServerEvents.call_pixel := "1234567890";
         MetaServerEvents.call_access_token := "EAAB";
         MetaServerEvents.call_payload :=
           MetaServerEvents.eventPayload Sample.digest Sample.configured view |}]).
Proof.
  cbv zeta.
  apply (other_events_are_sent_at_once Sample.digest Sample.configured _
           Sample.shop_on_delivery "1234567890" "EAAB");
    try reflexivity; try discriminate.
  left. discriminate.
Defined.

Lemma store_after_settings (env : Env) (h : Headers) (body : OrderRequest) (db : Db) :
  settings (store_after env h body db) = settings db
  /\ pending_tracking_events (store_after env h body db)
     = pending_tracking_events db.
Proof.
  destruct (response env h body db) as [id tok t|msg st] eqn:H.
  - destruct (serve_success _ _ _ _ _ _ _ H)
      as (ipl & phl & priced & db1 & _ & _ & _ & _ & _ & I & _ & _ & _ & _ & ->).
    apply insert_order_some in I as (-> & _ & _).
    unfold delete_cart, insert_status_history.
    destruct (cart_id body) as [cid|];
      [destruct (Js.truthy cid && negb (cartError env))|];
      destruct ipl, phl, (historyError env); cbn; auto.
  - now destruct (serve_error_tables _ _ _ _ _ _ H)
      as (_ & _ & _ & _ & _ & _ & _ & -> & ->).
Qed.

(** X14. From checkout to the dispatcher under "delivered".  When an order
    is accepted, its id is not empty, the purchase event is tied to
    delivery and the dispatcher has its credentials, then the first
    tracking call of the order, a Purchase event for that order, handed to
    the dispatcher on the store the order left, is neither queued nor
    sent: the dispatcher answers with the failure of line 153 and leaves
    the store as it is, with the pending events the store had before the
    order, and no call goes out.  The order is in the orders table with
    status "new". *)
Theorem accepted_purchase_is_neither_queued_nor_sent
    (hashSHA256 : string -> string) (env : Env) (h : Headers)
    (body : OrderRequest) (db : Db) (id tok : string) (t : PrimFloat.float)
    (menv : MetaServerEvents.Env) (pixel token : string) :
  response env h body db = success id tok t -> id <> "" ->
  MetaServerEvents.META_PIXEL_ID menv = Some pixel -> pixel <> "" ->
  MetaServerEvents.META_ACCESS_TOKEN menv = Some token -> token <> "" ->
  MetaServerEvents.purchaseEventTrigger db = "delivered" ->
  exists event rest,
    snd (serve env h body db)
    = {| fetch_function := "meta-server-events"; fetch_body := event |} :: rest
    /\ te_event_name event = "Purchase"
    /\ te_order_id event = Some id
    /\ te_value event = Some t
    /\ MetaServerEvents.serve hashSHA256 menv event (store_after env h body db)
       = (store_after env h body db, MetaServerEvents.TrackingFailed, [])
    /\ pending_tracking_events (store_after env h body db)
       = pending_tracking_events db
    /\ exists o, In o (orders (store_after env h body db))
                 /\ o_id o = id /\ o_status o = "new".
Proof.
  intros H Hid Hp Hpne Ht Htne Htr.
  destruct (serve_success_fetches _ _ _ _ _ _ _ H) as (priced & P & -> & F).
  destruct (serve_success_tables _ _ _ _ _ _ _ H)
    as (ipl & phl & priced' & _ & P' & _ & Hnew & Ho & _).
  rewrite P in P'. injection P' as <-.
  destruct (store_after_settings env h body db) as [Hs Hpend].
  eexists _, _. split; [exact F|].
  split; [reflexivity|]. split; [reflexivity|]. split; [reflexivity|]. split; [|split].
  - apply String.eqb_neq in Hid, Hpne, Htne.
    unfold MetaServerEvents.serve, MetaServerEvents.missing, Js.truthy.
    rewrite Hp, Ht, Hpne, Htne. cbn [negb orb trackingData te_event_name te_order_id].
    rewrite Hid, String.eqb_refl. cbn [negb andb].
    unfold MetaServerEvents.purchaseEventTrigger in *. rewrite Hs, Htr.
    now rewrite String.eqb_refl.
  - exact Hpend.
  - exists (order_row env h body priced). rewrite Ho. split.
    + apply in_or_app. right. now left.
    + cbn. auto.
Qed.

Lemma accepted_purchase_is_neither_queued_nor_sent_witness :
  exists event rest,
    snd (serve (Sample.world 1000 "o1") Sample.caller
           (Sample.order Sample.number [Sample.line "A" 2]) Sample.shop_on_delivery)
    = {| fetch_function := "meta-server-events"; fetch_body := event |} :: rest
    /\ te_event_name event = "Purchase"
    /\ te_order_id event = Some "o1"
    /\ te_value event = Some (Js.number 540000)
    /\ MetaServerEvents.serve Sample.digest Sample.configured event
         (store_after (Sample.world 1000 "o1") Sample.caller
            (Sample.order Sample.number [Sample.line "A" 2]) Sample.shop_on_delivery)
       = (store_after (Sample.world 1000 "o1") Sample.caller
            (Sample.order Sample.number [Sample.line "A" 2]) Sample.shop_on_delivery,
          MetaServerEvents.TrackingFailed, [])
    /\ pending_tracking_events
         (store_after (Sample.world 1000 "o1") Sample.caller
            (Sample.order Sample.number [Sample.line "A" 2]) Sample.shop_on_delivery)
       = pending_tracking_events Sample.shop_on_delivery
    /\ exists o, In o (orders (store_after (Sample.world 1000 "o1") Sample.caller
                                 (Sample.order Sample.number [Sample.line "A" 2])
                                 Sample.shop_on_delivery))
                 /\ o_id o = "o1" /\ o_status o = "new".
Proof.
  apply (accepted_purchase_is_neither_queued_nor_sent Sample.digest
           (Sample.world 1000 "o1") Sample.caller
           (Sample.order Sample.number [Sample.line "A" 2]) Sample.shop_on_delivery
           "o1" "pub-o1" (Js.number 540000) Sample.configured "1234567890" "EAAB");
    try reflexivity; discriminate.
Defined.

(* ------------------------------------------------------------------ *)
(** * The tiktok-server-events handler *)

Lemma substring_all (s : string) : String.substring 0 (String.length s) s = s.
Proof. induction s as [|c s IH]; [reflexivity|]. cbn. now rewrite IH. Qed.

Lemma substring_drop (a b : string) :
  String.substring (String.length a) (String.length (String.append a b) - String.length a)
    (String.append a b) = b.
Proof.
  induction a as [|c a IH]; cbn.
  - rewrite Nat.sub_0_r. apply substring_all.
  - exact IH.
Qed.

Lemma prefix_append (a b : string) : String.prefix a (String.append a b) = true.
Proof.
  induction a as [|c a IH]; cbn; [now destruct b|].
  destruct (ascii_dec c c); [exact IH|contradiction].
Qed.

Lemma remove_first_prefix (pat rest : string) :
  TikTokServerEvents.remove_first pat (String.append pat rest) = rest.
Proof.
  destruct (String.append pat rest) eqn:E.
  - destruct pat; [|discriminate]. cbn in E. subst rest. reflexivity.
  - rewrite <- E. cbn [TikTokServerEvents.remove_first].
    assert (H : TikTokServerEvents.remove_first pat (String.append pat rest)
                = if String.prefix pat (String.append pat rest)
                  then String.substring (String.length pat)
                         (String.length (String.append pat rest) - String.length pat)
                         (String.append pat rest)
                  else match String.append pat rest with
                       | EmptyString => EmptyString
                       | String c s' =>
                           String c (TikTokServerEvents.remove_first pat s')
                       end).
    { now destruct (String.append pat rest). }
    rewrite H, prefix_append. apply substring_drop.
Qed.

Lemma decimal_digit_plain (c : ascii) :
  Spec.decimal_digit c = true -> Js.plain c = true.
Proof. destruct c as [[] [] [] [] [] [] [] []]; vm_compute; congruence. Qed.

(** A phone the validator accepts consists of digits. *)
Lemma phone_digits (p : string) :
  Regex.test phoneRegex p = true ->
  Forall (fun c => Spec.decimal_digit c = true) (list_ascii_of_string p).
Proof.
  rewrite phoneRegex_national_mobile. unfold Spec.national_mobile.
  destruct (list_ascii_of_string p) as [|a [|b rest]]; try discriminate.
  rewrite !andb_true_iff. intros [[[Ha Hb] _] Hr].
  apply Ascii.eqb_eq in Ha. subst a.
  constructor; [reflexivity|]. constructor.
  - cbn in Hb. rewrite !orb_true_iff in Hb.
    destruct Hb as [Hb|[Hb|[Hb|Hb]]]; try discriminate;
      apply Ascii.eqb_eq in Hb; subst b; reflexivity.
  - now apply Forall_forall, forallb_forall.
Qed.

Lemma phone_trim (p : string) : Regex.test phoneRegex p = true -> Js.trim p = p.
Proof.
  intros H. apply trim_clean.
  eapply Forall_impl; [|exact (phone_digits p H)].
  intros c. apply decimal_digit_plain.
Qed.

Lemma put_extends (key : string) (v : option string)
    (m : MetaServerEvents.UserDataOut) :
  exists more, MetaServerEvents.put key v m = m ++ more.
Proof.
  unfold MetaServerEvents.put. destruct v as [s|]; [destruct (Js.truthy s)|];
    eauto; exists []; now rewrite app_nil_r.
Qed.

Lemma or_empty_truthy (p : string) :
  p <> "" -> TikTokServerEvents.or_empty (Some p) = p.
Proof.
  intros H. unfold TikTokServerEvents.or_empty, Js.or_else, Js.truthy.
  apply String.eqb_neq in H. now rewrite H.
Qed.

Lemma phone_not_empty (p : string) : Regex.test phoneRegex p = true -> p <> "".
Proof. now destruct p. Qed.

Lemma test_lit (c c' : ascii) (re : Regex.anchored) (s : string) :
  Regex.test ((Regex.Lit c, 1%nat) :: re) (String c' s)
  = (c' =? c)%char && Regex.test re s.
Proof.
  cbn [Regex.test Regex.eat Regex.atom_matches]. now destruct (c' =? c)%char.
Qed.

Lemma international_of_national (p : string) :
  Regex.test phoneRegex p = true ->
  Regex.test TikTokServerEvents.internationalRegex
    (String.append "213" (Js.substring1 p)) = true.
Proof.
  destruct p as [|a q]; [discriminate|].
  unfold phoneRegex. rewrite test_lit. intros [->%Ascii.eqb_eq H]%andb_true_iff.
  change (Js.substring1 (String "0" q)) with q.
  unfold TikTokServerEvents.internationalRegex.
  cbn [String.append]. rewrite !test_lit, !Ascii.eqb_refl. exact H.
Qed.

(** Of a phone the validator accepts, [substring(1)] drops the one byte of
    the leading 0. *)
Lemma phone_substring1 (p : string) :
  Regex.test phoneRegex p = true ->
  Js.substring1 p = String.substring 1 (String.length p - 1) p.
Proof.
  destruct p as [|a q]; [discriminate|].
  unfold phoneRegex. rewrite test_lit. intros [->%Ascii.eqb_eq _]%andb_true_iff.
  replace (String.length (String "0" q) - 1)%nat with (String.length q)
    by (cbn; lia).
  cbn [String.substring]. now rewrite substring_all.
Qed.

(** X15. [normalizeDzPhone] answers exactly for the strings that, once
    trimmed of the white space of ECMAScript, match the national mobile
    pattern, with "213" followed by the trimmed string less its leading 0.  For a phone the create-order
    validator accepts nothing is trimmed, the result matches
    213[567] and 8 digits, and it is the very string the Meta dispatcher
    hashes: both platforms get the digest of the same text. *)
Theorem both_platforms_hash_the_same_phone :
  (forall phone n,
      TikTokServerEvents.normalizeDzPhone phone = Some n
      <-> Regex.test phoneRegex (Js.trim (TikTokServerEvents.or_empty phone)) = true
          /\ n = String.append "213"
                   (Js.substring1 (Js.trim (TikTokServerEvents.or_empty phone))))
  /\ (forall p,
        Regex.test phoneRegex p = true ->
        let n := String.append "213" (Js.substring1 p) in
        TikTokServerEvents.normalizeDzPhone (Some p) = Some n
        /\ Regex.test TikTokServerEvents.internationalRegex n = true
        /\ (forall hash h body,
              TikTokServerEvents.tt_phone body = Some p ->
              TikTokServerEvents.u_phone (TikTokServerEvents.user_of hash h body)
              = Some [hash n])
        /\ (forall hash event,
              te_phone event = Some p ->
              exists rest,
                MetaServerEvents.userData hash event = ("ph", hash n) :: rest)).
Proof.
  split.
  - intros phone n. unfold TikTokServerEvents.normalizeDzPhone.
    destruct (Regex.test phoneRegex _); split.
    + intros [= <-]. auto.
    + now intros [_ ->].
    + discriminate.
    + now intros [H _].
  - intros p Hp. cbv zeta.
    assert (Hne := phone_not_empty p Hp).
    assert (Hnorm : TikTokServerEvents.normalizeDzPhone (Some p)
                    = Some (String.append "213"
                              (Js.substring1 p))).
    { unfold TikTokServerEvents.normalizeDzPhone.
      rewrite (or_empty_truthy p Hne), (phone_trim p Hp), Hp. reflexivity. }
    split; [exact Hnorm|]. split; [now apply international_of_national|]. split.
    + intros hash h body Hb. unfold TikTokServerEvents.user_of. cbn.
      rewrite Hb. unfold Js.or_else, Js.truthy.
      apply String.eqb_neq in Hne. rewrite Hne. cbn [negb].
      now rewrite Hnorm.
    + intros hash event He. unfold MetaServerEvents.userData. rewrite He.
      unfold Js.truthy. apply String.eqb_neq in Hne. rewrite Hne. cbn [negb].
      destruct (put_extends "client_ip_address"
                  match te_user_data event with
                  | Some u => client_ip_address u | None => None end
                  [("ph", hash (String.append "213"
                                  (Js.substring1 p)))])
        as [m1 ->].
      destruct (put_extends "client_user_agent"
                  match te_user_data event with
                  | Some u => client_user_agent u | None => None end
                  ([("ph", hash (String.append "213"
                                   (Js.substring1 p)))]
                     ++ m1)) as [m2 ->].
      destruct (put_extends "fbc"
                  match te_user_data event with
                  | Some u => fbc u | None => None end
                  (([("ph", hash (String.append "213"
                                    (Js.substring1 p)))]
                      ++ m1) ++ m2)) as [m3 ->].
      destruct (put_extends "fbp"
                  match te_user_data event with
                  | Some u => fbp u | None => None end
                  ((([("ph", hash (String.append "213"
                                     (Js.substring1 p)))]
                       ++ m1) ++ m2) ++ m3)) as [m4 ->].
      cbn. eauto.
Qed.

Lemma both_platforms_hash_the_same_phone_witness :
  TikTokServerEvents.normalizeDzPhone (Some "0551234567") = Some "213551234567"
  /\ Regex.test TikTokServerEvents.internationalRegex "213551234567" = true
  /\ (forall hash h body,
        TikTokServerEvents.tt_phone body = Some "0551234567" ->
        TikTokServerEvents.u_phone (TikTokServerEvents.user_of hash h body)
        = Some [hash "213551234567"])
  /\ (forall hash event,
        te_phone event = Some "0551234567" ->
        exists rest,
          MetaServerEvents.userData hash event = ("ph", hash "213551234567") :: rest).
Proof.
  exact (proj2 both_platforms_hash_the_same_phone "0551234567" eq_refl).
Defined.

Lemma authorize_none (env : TikTokServerEvents.Env)
    (h : TikTokServerEvents.CallHeaders)
    (roles : list TikTokServerEvents.AdminRoleRow) :
  TikTokServerEvents.authorize env h roles = None ->
  TikTokServerEvents.bearer
    (TikTokServerEvents.or_empty (TikTokServerEvents.authorization h))
  = TikTokServerEvents.SUPABASE_SERVICE_ROLE_KEY env
  \/ exists token uid role,
       token = TikTokServerEvents.bearer
                 (TikTokServerEvents.or_empty
                    (Js.or_else
                       (Some (TikTokServerEvents.or_empty
                                (TikTokServerEvents.x_admin_token h)))
                       (Some (TikTokServerEvents.or_empty
                                (TikTokServerEvents.authorization h)))))
       /\ token <> ""
       /\ TikTokServerEvents.getUser env token = Some uid
       /\ filter (fun r => TikTokServerEvents.ar_user_id r =? uid) roles = [role].
Proof.
  unfold TikTokServerEvents.authorize.
  destruct (_ =? TikTokServerEvents.SUPABASE_SERVICE_ROLE_KEY env) eqn:S.
  { intros _. left. now apply String.eqb_eq. }
  destruct (Js.truthy _) eqn:T; [|discriminate]. cbn [negb].
  destruct (TikTokServerEvents.getUser env _) as [uid|] eqn:U; [|discriminate].
  destruct (Js.single _) as [role|] eqn:R; [|discriminate].
  intros _. right. eexists _, uid, role. split; [reflexivity|].
  split; [|split; [exact U|now apply single_some_inv]].
  unfold Js.truthy in T. apply negb_true_iff, String.eqb_neq in T. exact T.
Qed.

(** X16. The handler calls the platform at most once, and only with the
    access token and a pixel code configured and for a caller it has
    authorized: one whose Authorization header, less "Bearer " and trimmed,
    is the service-role key, or one whose token the auth service resolves
    to a user with exactly one admin_roles row.  An answer 401 or 403 comes
    with no call. *)
Theorem tiktok_calls_need_credentials_and_authorization
    (sha256 : string -> string) (env : TikTokServerEvents.Env)
    (h : TikTokServerEvents.CallHeaders) (body : TikTokServerEvents.TikTokEventRequest)
    (db : Db) (roles : list TikTokServerEvents.AdminRoleRow) :
  (List.length (snd (TikTokServerEvents.serve sha256 env h body db roles)) <= 1)%nat
  /\ (forall call,
        In call (snd (TikTokServerEvents.serve sha256 env h body db roles)) ->
        TikTokServerEvents.TIKTOK_ACCESS_TOKEN env
        = Some (TikTokServerEvents.access_token call)
        /\ TikTokServerEvents.access_token call <> ""
        /\ TikTokServerEvents.pixel_code (TikTokServerEvents.payload call) <> ""
        /\ (TikTokServerEvents.TIKTOK_PIXEL_ID env
            = Some (TikTokServerEvents.pixel_code (TikTokServerEvents.payload call))
            \/ TikTokServerEvents.TIKTOK_PIXEL_CODE env
               = Some (TikTokServerEvents.pixel_code (TikTokServerEvents.payload call)))
        /\ (TikTokServerEvents.bearer
              (TikTokServerEvents.or_empty (TikTokServerEvents.authorization h))
            = TikTokServerEvents.SUPABASE_SERVICE_ROLE_KEY env
            \/ exists token uid role,
                 token = TikTokServerEvents.bearer
                           (TikTokServerEvents.or_empty
                              (Js.or_else
                                 (Some (TikTokServerEvents.or_empty
                                          (TikTokServerEvents.x_admin_token h)))
                                 (Some (TikTokServerEvents.or_empty
                                          (TikTokServerEvents.authorization h)))))
                 /\ token <> ""
                 /\ TikTokServerEvents.getUser env token = Some uid
                 /\ filter (fun r => TikTokServerEvents.ar_user_id r =? uid) roles
                    = [role]))
  /\ (TikTokServerEvents.status_of
        (fst (TikTokServerEvents.serve sha256 env h body db roles)) = 401
      \/ TikTokServerEvents.status_of
           (fst (TikTokServerEvents.serve sha256 env h body db roles)) = 403 ->
      snd (TikTokServerEvents.serve sha256 env h body db roles) = []
      /\ TikTokServerEvents.bearer
           (TikTokServerEvents.or_empty (TikTokServerEvents.authorization h))
         <> TikTokServerEvents.SUPABASE_SERVICE_ROLE_KEY env).
Proof.
  unfold TikTokServerEvents.serve.
  destruct (negb (Js.truthy (TikTokServerEvents.or_empty
                               (TikTokServerEvents.TIKTOK_ACCESS_TOKEN env)))
            || negb (Js.truthy (TikTokServerEvents.or_empty
                                  (Js.or_else (TikTokServerEvents.TIKTOK_PIXEL_ID env)
                                     (TikTokServerEvents.TIKTOK_PIXEL_CODE env)))))
    eqn:C.
  { cbn. repeat split; try lia; try easy. all: intros [H|H]; discriminate. }
  apply orb_false_iff in C as [C1 C2].
  apply negb_false_iff in C1, C2.
  assert (Htok : TikTokServerEvents.TIKTOK_ACCESS_TOKEN env
                 = Some (TikTokServerEvents.or_empty
                           (TikTokServerEvents.TIKTOK_ACCESS_TOKEN env))
                 /\ TikTokServerEvents.or_empty
                      (TikTokServerEvents.TIKTOK_ACCESS_TOKEN env) <> "").
  { unfold TikTokServerEvents.or_empty, Js.or_else in *.
    destruct (TikTokServerEvents.TIKTOK_ACCESS_TOKEN env) as [a|]; [|discriminate].
    destruct (Js.truthy a) eqn:Ta; [|discriminate].
    split; [reflexivity|]. unfold Js.truthy in Ta.
    now apply negb_true_iff, String.eqb_neq in Ta. }
  assert (Hpix : (TikTokServerEvents.TIKTOK_PIXEL_ID env
                  = Some (TikTokServerEvents.or_empty
                            (Js.or_else (TikTokServerEvents.TIKTOK_PIXEL_ID env)
                               (TikTokServerEvents.TIKTOK_PIXEL_CODE env)))
                  \/ TikTokServerEvents.TIKTOK_PIXEL_CODE env
                     = Some (TikTokServerEvents.or_empty
                               (Js.or_else (TikTokServerEvents.TIKTOK_PIXEL_ID env)
                                  (TikTokServerEvents.TIKTOK_PIXEL_CODE env))))
                 /\ TikTokServerEvents.or_empty
                      (Js.or_else (TikTokServerEvents.TIKTOK_PIXEL_ID env)
                         (TikTokServerEvents.TIKTOK_PIXEL_CODE env)) <> "").
  { unfold TikTokServerEvents.or_empty, Js.or_else in *.
    destruct (TikTokServerEvents.TIKTOK_PIXEL_ID env) as [a|];
      [destruct (Js.truthy a) eqn:Ta|].
    - rewrite Ta. split; [now left|]. unfold Js.truthy in Ta.
      now apply negb_true_iff, String.eqb_neq in Ta.
    - destruct (TikTokServerEvents.TIKTOK_PIXEL_CODE env) as [b|]; [|discriminate].
      destruct (Js.truthy b) eqn:Tb; [|discriminate].
      split; [now right|]. unfold Js.truthy in Tb.
      now apply negb_true_iff, String.eqb_neq in Tb.
    - destruct (TikTokServerEvents.TIKTOK_PIXEL_CODE env) as [b|]; [|discriminate].
      destruct (Js.truthy b) eqn:Tb; [|discriminate].
      split; [now right|]. unfold Js.truthy in Tb.
      now apply negb_true_iff, String.eqb_neq in Tb. }
  destruct Htok as [Htok Htne]. destruct Hpix as [Hpix Hpne].
  destruct (TikTokServerEvents.authorize env h roles) as [refusal|] eqn:A.
  { cbn [fst snd List.length]. split; [lia|]. split; [intros call []|].
    intros _. split; [reflexivity|].
    unfold TikTokServerEvents.authorize in A.
    destruct (_ =? TikTokServerEvents.SUPABASE_SERVICE_ROLE_KEY env) eqn:S;
      [discriminate|]. now apply String.eqb_neq. }
  apply authorize_none in A.
  destruct (_ && _ && _ && _).
  { cbn. split; [lia|]. split; [intros call []|]. intros [H|H]; discriminate. }
  assert (Hv : forall ok code,
             TikTokServerEvents.status_of (TikTokServerEvents.verdict ok code) <> 401
             /\ TikTokServerEvents.status_of (TikTokServerEvents.verdict ok code) <> 403).
  { intros ok code. unfold TikTokServerEvents.verdict.
    destruct (negb ok || _); [destruct (match code with Some _ => _ | None => _ end)|];
      cbn; split; discriminate. }
  destruct (TikTokServerEvents.tiktok env) as [ok code|]; cbn [fst snd List.length].
  - split; [lia|]. split.
    + intros call [<- | []]. cbn. auto.
    + intros [H|H]; exfalso; now apply (Hv ok code) in H.
  - split; [lia|]. split.
    + intros call [<- | []]. cbn. auto.
    + intros [H|H]; discriminate.
Qed.

(** X17. Purchase timing on the TikTok side.  The handler answers that the
    event is deferred exactly when it is configured, the caller is
    authorized, the event is a Purchase with an order id, [force_send] is
    not set and the purchase_event setting reads "delivered"; then it makes
    no call.  With [force_send] set, a configured handler called by an
    authorized caller always makes its one call, whatever the setting. *)
Theorem tiktok_purchase_waits_unless_forced
    (sha256 : string -> string) (env : TikTokServerEvents.Env)
    (h : TikTokServerEvents.CallHeaders) (body : TikTokServerEvents.TikTokEventRequest)
    (db : Db) (roles : list TikTokServerEvents.AdminRoleRow) :
  let configured :=
    Js.truthy (TikTokServerEvents.or_empty (TikTokServerEvents.TIKTOK_ACCESS_TOKEN env))
    = true
    /\ Js.truthy (TikTokServerEvents.or_empty
                    (Js.or_else (TikTokServerEvents.TIKTOK_PIXEL_ID env)
                       (TikTokServerEvents.TIKTOK_PIXEL_CODE env))) = true in
  (fst (TikTokServerEvents.serve sha256 env h body db roles) = TikTokServerEvents.Deferred
   <-> configured
       /\ TikTokServerEvents.authorize env h roles = None
       /\ TikTokServerEvents.tt_event_name body = "Purchase"
       /\ MetaServerEvents.missing (TikTokServerEvents.tt_order_id body) = false
       /\ TikTokServerEvents.tt_force_send body = false
       /\ MetaServerEvents.purchaseEventTrigger db = "delivered")
  /\ (fst (TikTokServerEvents.serve sha256 env h body db roles)
      = TikTokServerEvents.Deferred ->
      snd (TikTokServerEvents.serve sha256 env h body db roles) = [])
  /\ (configured ->
      TikTokServerEvents.authorize env h roles = None ->
      TikTokServerEvents.tt_force_send body = true ->
      exists call,
        snd (TikTokServerEvents.serve sha256 env h body db roles) = [call]
        /\ TikTokServerEvents.p_order_id (TikTokServerEvents.payload call)
           = TikTokServerEvents.tt_order_id body
        /\ TikTokServerEvents.event (TikTokServerEvents.payload call)
           = TikTokServerEvents.tt_event_name body).
Proof.
  cbv zeta. unfold TikTokServerEvents.serve.
  destruct (Js.truthy (TikTokServerEvents.or_empty
                         (TikTokServerEvents.TIKTOK_ACCESS_TOKEN env))) eqn:C1;
    cbn [negb orb fst snd];
    [|split; [split; [discriminate|now intros [[? _] _]]|];
      split; [discriminate|now intros [? _]]].
  destruct (Js.truthy (TikTokServerEvents.or_empty
                         (Js.or_else (TikTokServerEvents.TIKTOK_PIXEL_ID env)
                            (TikTokServerEvents.TIKTOK_PIXEL_CODE env)))) eqn:C2;
    cbn [negb fst snd];
    [|split; [split; [discriminate|now intros [[_ ?] _]]|];
      split; [discriminate|now intros [_ ?]]].
  destruct (TikTokServerEvents.authorize env h roles) as [refusal|] eqn:A.
  { cbn [fst snd]. split; [|split; [reflexivity|discriminate]].
    split; [|now intros (_ & ? & _)].
    intros ->. unfold TikTokServerEvents.authorize in A.
    repeat (match type of A with
            | context [if ?c then _ else _] => destruct c
            | context [match ?x with _ => _ end] => destruct x
            end; try discriminate). }
  assert (Hv : forall ok code,
             TikTokServerEvents.verdict ok code <> TikTokServerEvents.Deferred).
  { intros ok code. unfold TikTokServerEvents.verdict.
    destruct (negb ok || _); [destruct (match code with Some _ => _ | None => _ end)|];
      discriminate. }
  destruct (TikTokServerEvents.tt_event_name body =? "Purchase") eqn:E; cbn [andb].
  2:{ apply String.eqb_neq in E.
      split; [|split].
      - split; [|now intros (_ & _ & ? & _)].
        destruct (TikTokServerEvents.tiktok env); cbn [fst]; intros F;
          [now apply Hv in F|discriminate].
      - destruct (TikTokServerEvents.tiktok env); cbn [fst]; intros F;
          [now apply Hv in F|discriminate].
      - intros _ _ _. destruct (TikTokServerEvents.tiktok env); cbn [snd]; eauto. }
  apply String.eqb_eq in E.
  destruct (MetaServerEvents.missing (TikTokServerEvents.tt_order_id body)) eqn:M;
    cbn [negb andb].
  { split; [|split].
    - split; [|now intros (_ & _ & _ & ? & _)].
      destruct (TikTokServerEvents.tiktok env); cbn [fst]; intros F;
        [now apply Hv in F|discriminate].
    - destruct (TikTokServerEvents.tiktok env); cbn [fst]; intros F;
        [now apply Hv in F|discriminate].
    - intros _ _ _. destruct (TikTokServerEvents.tiktok env); cbn [snd]; eauto. }
  destruct (TikTokServerEvents.tt_force_send body) eqn:Fs; cbn [negb andb].
  { split; [|split].
    - split; [|now intros (_ & _ & _ & _ & ? & _)].
      destruct (TikTokServerEvents.tiktok env); cbn [fst]; intros F;
        [now apply Hv in F|discriminate].
    - destruct (TikTokServerEvents.tiktok env); cbn [fst]; intros F;
        [now apply Hv in F|discriminate].
    - intros _ _ _. destruct (TikTokServerEvents.tiktok env); cbn [snd]; eauto. }
  destruct (MetaServerEvents.purchaseEventTrigger db =? "delivered") eqn:T.
  - apply String.eqb_eq in T. cbn [fst snd].
    split; [|split; [reflexivity|discriminate]].
    split; [|reflexivity]. intros _. repeat split; assumption.
  - apply String.eqb_neq in T.
    split; [|split; [|discriminate]].
    + split; [|now intros (_ & _ & _ & _ & _ & ?)].
      destruct (TikTokServerEvents.tiktok env); cbn [fst]; intros F;
        [now apply Hv in F|discriminate].
    + destruct (TikTokServerEvents.tiktok env); cbn [fst]; intros F;
        [now apply Hv in F|discriminate].
Qed.

(** X18. How an answer of the platform is judged (lines 207-216).  It is
    taken for a success exactly when its code is 0, whatever the HTTP
    status, or when the HTTP status is a success and the body has no code;
    everything else is answered with status 500.  So an HTTP error whose
    body says code 0 counts as sent, and an HTTP success with a non-zero
    code does not. *)
Theorem tiktok_answer_is_judged_by_its_code (ok : bool) (code : option Z) :
  (TikTokServerEvents.verdict ok code = TikTokServerEvents.Sent
   <-> code = Some 0 \/ (ok = true /\ code = None))
  /\ (TikTokServerEvents.verdict ok code = TikTokServerEvents.ApiError
      <-> code <> Some 0 /\ (ok = false \/ code <> None))
  /\ (TikTokServerEvents.status_of (TikTokServerEvents.verdict ok code) = 200
      \/ TikTokServerEvents.status_of (TikTokServerEvents.verdict ok code) = 500).
Proof.
  unfold TikTokServerEvents.verdict.
  destruct ok, code as [n|]; cbn [negb orb];
    try (destruct (Z.eqb_spec n 0) as [->|Hn]; cbn [negb]);
    cbn [TikTokServerEvents.status_of];
    (split; [|split]); try tauto;
    split; intros H; try discriminate; try reflexivity;
    intuition (congruence || discriminate).
Qed.

Lemma validation_none_phone (body : OrderRequest) (db : Db) :
  validation body db = None -> Regex.test phoneRegex (phone body) = true.
Proof.
  unfold validation.
  destruct (Js.blank (Some (full_name body))); [discriminate|].
  now destruct (Regex.test phoneRegex (phone body)).
Qed.

Lemma service_call_authorized (tenv : TikTokServerEvents.Env)
    (roles : list TikTokServerEvents.AdminRoleRow) :
  Js.trim (TikTokServerEvents.SUPABASE_SERVICE_ROLE_KEY tenv)
  = TikTokServerEvents.SUPABASE_SERVICE_ROLE_KEY tenv ->
  TikTokServerEvents.authorize tenv
    (TikTokServerEvents.service_call (TikTokServerEvents.SUPABASE_SERVICE_ROLE_KEY tenv))
    roles = None.
Proof.
  intros Hk. unfold TikTokServerEvents.authorize, TikTokServerEvents.service_call.
  cbn [TikTokServerEvents.authorization].
  rewrite or_empty_truthy by discriminate.
  unfold TikTokServerEvents.bearer.
  rewrite remove_first_prefix, Hk, String.eqb_refl. reflexivity.
Qed.

Lemma priced_lines (env : Env) (body : OrderRequest) (db : Db) (priced : Priced) :
  pricing env body db = inr priced ->
  Forall2
    (fun line it =>
       item_product_id it = product_id line
       /\ item_quantity it = quantity line
       /\ exists p,
           List.find (fun p => p_id p =? product_id line) (products db) = Some p
           /\ item_product_name it = p_name p /\ item_price it = p_price p)
    (cart_items body) (orderItems priced).
Proof.
  intros P. destruct (pricing_inr_items _ _ _ _ P) as (Hact & final & Ho).
  apply orderItems_of_lines in Ho.
  assert (Hin : forall line, In line (cart_items body) ->
                             In (product_id line) (productIds body)).
  { intros line Hl. unfold productIds. now apply in_map. }
  revert Hin. induction Ho as [|line it lines items (p & Fp & ->) _ IH];
    intros Hin; [constructor|].
  constructor; [|apply IH; intros l Hl; apply Hin; now right].
  assert (Fdb := Fp). rewrite find_select_products in Fdb by (apply Hin; now left).
  apply find_some in Fp as [_ Fid]. apply String.eqb_eq in Fid.
  cbn. repeat split; try assumption. eauto.
Qed.

(** X19. From checkout to the TikTok handler.  When an order is accepted
    with a non-empty id and the handler is configured with an access token
    and a pixel id, the second tracking call of the order, sent with the
    service-role key as bearer (a key without surrounding white space), is
    authorized without any admin role.  If the purchase_event setting reads
    "delivered" the handler defers and calls nobody; otherwise it makes one
    call with the configured token and pixel, carrying a Purchase event
    with the event id of the request, the answered total, DZD, the new
    order id, the first product of the cart as content id, the hash of the
    international form of the phone, and one content per cart line with
    its product and quantity and the catalog name and price. *)
Theorem accepted_order_reaches_the_tiktok_handler
    (sha256 : string -> string) (env : Env) (h : Headers) (body : OrderRequest)
    (db : Db) (id tok : string) (t : PrimFloat.float)
    (tenv : TikTokServerEvents.Env) (token pixel : string)
    (roles : list TikTokServerEvents.AdminRoleRow) :
  response env h body db = success id tok t -> id <> "" ->
  Js.trim (TikTokServerEvents.SUPABASE_SERVICE_ROLE_KEY tenv)
  = TikTokServerEvents.SUPABASE_SERVICE_ROLE_KEY tenv ->
  TikTokServerEvents.TIKTOK_ACCESS_TOKEN tenv = Some token -> token <> "" ->
  TikTokServerEvents.TIKTOK_PIXEL_ID tenv = Some pixel -> pixel <> "" ->
  exists first event,
    snd (serve env h body db)
    = [first; {| fetch_function := "tiktok-server-events"; fetch_body := event |}]
    /\ let answer :=
         TikTokServerEvents.serve sha256 tenv
           (TikTokServerEvents.service_call
              (TikTokServerEvents.SUPABASE_SERVICE_ROLE_KEY tenv))
           (TikTokServerEvents.of_tracking_event event)
           (store_after env h body db) roles in
       (MetaServerEvents.purchaseEventTrigger db = "delivered" ->
        answer = (TikTokServerEvents.Deferred, []))
       /\ (MetaServerEvents.purchaseEventTrigger db <> "delivered" ->
           exists call,
             snd answer = [call]
             /\ TikTokServerEvents.access_token call = token
             /\ let p := TikTokServerEvents.payload call in
                TikTokServerEvents.pixel_code p = pixel
                /\ TikTokServerEvents.event p = "Purchase"
                /\ TikTokServerEvents.p_event_id p = event_id body
                /\ TikTokServerEvents.p_value p = Some t
                /\ TikTokServerEvents.p_currency p = "DZD"
                /\ TikTokServerEvents.p_order_id p = Some id
                /\ TikTokServerEvents.p_content_id p
                   = option_map product_id (List.head (cart_items body))
                /\ TikTokServerEvents.u_phone (TikTokServerEvents.user p)
                   = Some [sha256 (String.append "213"
                                     (String.substring 1
                                        (String.length (phone body) - 1)
                                        (phone body)))]
                /\ Forall2
                     (fun line c =>
                        TikTokServerEvents.tc_content_id c = product_id line
                        /\ TikTokServerEvents.tc_quantity c = Some (quantity line)
                        /\ exists row,
                            List.find (fun r => p_id r =? product_id line)
                              (products db) = Some row
                            /\ TikTokServerEvents.tc_content_name c = Some (p_name row)
                            /\ TikTokServerEvents.tc_price c = Some (p_price row))
                     (cart_items body) (TikTokServerEvents.p_contents p)).
Proof.
  intros H Hid Hk Ht Htne Hp Hpne.
  destruct (serve_success_fetches _ _ _ _ _ _ _ H) as (priced & P & -> & F).
  destruct (serve_success _ _ _ _ _ _ _ H) as (_ & _ & _ & _ & V & _).
  apply validation_none_phone in V.
  destruct (store_after_settings env h body db) as [Hs _].
  eexists _, _. split; [exact F|]. cbv zeta.
  assert (Ea : TikTokServerEvents.or_empty (TikTokServerEvents.TIKTOK_ACCESS_TOKEN tenv)
               = token) by (rewrite Ht; now apply or_empty_truthy).
  assert (Ep : TikTokServerEvents.or_empty
                 (Js.or_else (TikTokServerEvents.TIKTOK_PIXEL_ID tenv)
                    (TikTokServerEvents.TIKTOK_PIXEL_CODE tenv)) = pixel).
  { rewrite Hp. unfold TikTokServerEvents.or_empty, Js.or_else, Js.truthy.
    apply String.eqb_neq in Hpne. rewrite Hpne. cbn [negb]. now rewrite Hpne. }
  assert (Hta : Js.truthy token = true)
    by (unfold Js.truthy; apply String.eqb_neq in Htne; now rewrite Htne).
  assert (Hpa : Js.truthy pixel = true)
    by (unfold Js.truthy; apply String.eqb_neq in Hpne; now rewrite Hpne).
  assert (Hm : MetaServerEvents.missing (Some id) = false).
  { unfold MetaServerEvents.missing, Js.truthy.
    apply String.eqb_neq in Hid. now rewrite Hid. }
  assert (Htr : MetaServerEvents.purchaseEventTrigger (store_after env h body db)
                = MetaServerEvents.purchaseEventTrigger db)
    by (unfold MetaServerEvents.purchaseEventTrigger; now rewrite Hs).
  unfold TikTokServerEvents.serve.
  rewrite Ea, Ep, Hta, Hpa, (service_call_authorized tenv roles Hk), Htr.
  cbn [negb orb TikTokServerEvents.of_tracking_event tiktokTrackingData
       TikTokServerEvents.tt_event_name TikTokServerEvents.tt_order_id
       TikTokServerEvents.tt_force_send te_event_name te_order_id].
  rewrite String.eqb_refl, Hm. cbn [negb andb].
  split.
  - intros ->. now rewrite String.eqb_refl.
  - intros Hn. apply String.eqb_neq in Hn. rewrite Hn.
    assert (Hu : TikTokServerEvents.normalizeDzPhone (Some (phone body))
                 = Some (String.append "213"
                           (String.substring 1 (String.length (phone body) - 1)
                              (phone body)))).
    { unfold TikTokServerEvents.normalizeDzPhone.
      rewrite (or_empty_truthy _ (phone_not_empty _ V)), (phone_trim _ V), V.
      now rewrite (phone_substring1 _ V). }
    assert (Ho : Js.or_else (Some (phone body)) None = Some (phone body)).
    { unfold Js.or_else, Js.truthy.
      destruct (phone body =? "") eqn:E; [|reflexivity].
      apply String.eqb_eq in E. now apply phone_not_empty in V. }
    eexists. split; [destruct (TikTokServerEvents.tiktok tenv); reflexivity|].
    unfold TikTokServerEvents.of_tracking_event, tiktokTrackingData.
    cbn [TikTokServerEvents.access_token TikTokServerEvents.payload
         TikTokServerEvents.payload_of TikTokServerEvents.pixel_code
         TikTokServerEvents.event TikTokServerEvents.p_event_id
         TikTokServerEvents.p_value TikTokServerEvents.p_currency
         TikTokServerEvents.p_order_id TikTokServerEvents.p_content_id
         TikTokServerEvents.p_contents TikTokServerEvents.user
         TikTokServerEvents.user_of TikTokServerEvents.u_phone
         TikTokServerEvents.tt_event_name TikTokServerEvents.tt_event_id
         TikTokServerEvents.tt_value TikTokServerEvents.tt_currency
         TikTokServerEvents.tt_order_id TikTokServerEvents.tt_content_ids
         TikTokServerEvents.tt_contents TikTokServerEvents.tt_phone
         te_event_id te_phone te_value te_currency te_content_ids te_contents
         option_map].
    rewrite Ho, Hu.
    repeat (split; [reflexivity|]).
    split; [unfold productIds; now destruct (cart_items body)|].
    split; [reflexivity|].
    assert (L := priced_lines _ _ _ _ P).
    induction L as [|line it lines items (Hi & Hq & row & Fr & Hn' & Hpr) _ IH];
      [constructor|].
    cbn [map]. constructor; [|exact IH].
    cbn. rewrite Hi, Hq, Hn', Hpr. repeat split. exists row. auto.
Qed.

Lemma accepted_order_reaches_the_tiktok_handler_witness :
  exists first event,
    snd (serve (Sample.world 1000 "o1") Sample.caller
           (Sample.order Sample.number [Sample.line "A" 2]) Sample.shop)
    = [first; {| fetch_function := "tiktok-server-events"; fetch_body := event |}]
    /\ let answer :=
         TikTokServerEvents.serve Sample.digest Visit.pixel
           (TikTokServerEvents.service_call "service-role-key")
           (TikTokServerEvents.of_tracking_event event) Visit.placed [] in
       (MetaServerEvents.purchaseEventTrigger Sample.shop = "delivered" ->
        answer = (TikTokServerEvents.Deferred, []))
       /\ (MetaServerEvents.purchaseEventTrigger Sample.shop <> "delivered" ->
           exists call,
             snd answer = [call]
             /\ TikTokServerEvents.access_token call = "tt-token"
             /\ let p := TikTokServerEvents.payload call in
                TikTokServerEvents.pixel_code p = "C0PIXEL"
                /\ TikTokServerEvents.event p = "Purchase"
                /\ TikTokServerEvents.p_event_id p = "evt_1"
                /\ TikTokServerEvents.p_value p = Some (Js.number 540000)
                /\ TikTokServerEvents.p_currency p = "DZD"
                /\ TikTokServerEvents.p_order_id p = Some "o1"
                /\ TikTokServerEvents.p_content_id p = Some "A"
                /\ TikTokServerEvents.u_phone (TikTokServerEvents.user p)
                   = Some [Sample.digest "213551234567"]
                /\ Forall2
                     (fun line c =>
                        TikTokServerEvents.tc_content_id c = product_id line
                        /\ TikTokServerEvents.tc_quantity c = Some (quantity line)
                        /\ exists row,
                            List.find (fun r => p_id r =? product_id line)
                              (products Sample.shop) = Some row
                            /\ TikTokServerEvents.tc_content_name c = Some (p_name row)
                            /\ TikTokServerEvents.tc_price c = Some (p_price row))
                     [Sample.line "A" 2] (TikTokServerEvents.p_contents p)).
Proof.
  apply (accepted_order_reaches_the_tiktok_handler Sample.digest
           (Sample.world 1000 "o1") Sample.caller
           (Sample.order Sample.number [Sample.line "A" 2]) Sample.shop
           "o1" "pub-o1" (Js.number 540000) Visit.pixel "tt-token" "C0PIXEL" []);
    try reflexivity; discriminate.
Defined.

Lemma dispatcher_payload_carries_the_event_witness :
  exists call,
    In call (snd (MetaServerEvents.serve Sample.digest Sample.configured
                    Sample.purchase Sample.shop))
    /\ (MetaServerEvents.META_PIXEL_ID Sample.configured
        = Some (MetaServerEvents.call_pixel call)
        /\ MetaServerEvents.META_ACCESS_TOKEN Sample.configured
           = Some (MetaServerEvents.call_access_token call)
        /\ MetaServerEvents.ep_event_id (MetaServerEvents.call_payload call)
           = "evt_1"
        /\ MetaServerEvents.ep_event_name (MetaServerEvents.call_payload call)
           = "Purchase"
        /\ MetaServerEvents.ep_event_time (MetaServerEvents.call_payload call)
           = 1700000000
        /\ MetaServerEvents.ep_action_source (MetaServerEvents.call_payload call)
           = "website"
        /\ MetaServerEvents.cd_value
             (MetaServerEvents.ep_custom_data (MetaServerEvents.call_payload call))
           = Some (Js.number 540000)
        /\ MetaServerEvents.cd_content_ids
             (MetaServerEvents.ep_custom_data (MetaServerEvents.call_payload call))
           = Some ["A"]
        /\ MetaServerEvents.cd_content_type
             (MetaServerEvents.ep_custom_data (MetaServerEvents.call_payload call))
           = "product"
        /\ MetaServerEvents.cd_currency
             (MetaServerEvents.ep_custom_data (MetaServerEvents.call_payload call))
           = "DZD").
Proof.
  eexists.
  refine ((fun H => conj H
             (dispatcher_payload_carries_the_event Sample.digest Sample.configured
                Sample.purchase Sample.shop _ H)) _).
  left. reflexivity.
Defined.

(* ------------------------------------------------------------------ *)
(** * The get-order-public handler *)

Lemma filter_none {A : Type} (f : A -> bool) (l : list A) :
  (forall x, In x l -> f x = false) -> filter f l = [].
Proof.
  induction l as [|a l IH]; [reflexivity|]. intros H. cbn.
  rewrite (H a) by now left. apply IH. intros x Hx. apply H. now right.
Qed.

Lemma filter_all {A : Type} (f : A -> bool) (l : list A) :
  (forall x, In x l -> f x = true) -> filter f l = l.
Proof.
  induction l as [|a l IH]; [reflexivity|]. intros H. cbn.
  rewrite (H a) by now left. f_equal. apply IH. intros x Hx. apply H. now right.
Qed.

Lemma filter_one {A : Type} (f : A -> bool) (l : list A) (x y : A) :
  filter f l = [x] -> In y l -> f y = true -> y = x.
Proof.
  intros H Hy Fy. assert (I : In y (filter f l)) by now apply filter_In.
  rewrite H in I. now destruct I as [<- | []].
Qed.

Lemma field_blank (x : option string) :
  Js.truthy (GetOrderPublic.field x) = false <-> GetOrderPublic.field x = "".
Proof.
  unfold Js.truthy. rewrite negb_false_iff. apply String.eqb_eq.
Qed.

Lemma field_clean (s : string) :
  s <> "" -> Js.trim s = s -> GetOrderPublic.field (Some s) = s.
Proof.
  intros Hs Ht. unfold GetOrderPublic.field, Js.or_else, Js.truthy.
  apply String.eqb_neq in Hs. now rewrite Hs.
Qed.

Lemma serve_found (env : GetOrderPublic.Env) (body : GetOrderPublic.Body)
    (db : Db) (images : list GetOrderPublic.ProductImagesRow)
    (order : GetOrderPublic.PublicOrder) (items : list GetOrderPublic.PublicItem) :
  GetOrderPublic.serve env body db images = GetOrderPublic.Found order items ->
  exists o,
    filter (fun o => (o_id o =? GetOrderPublic.field (GetOrderPublic.order_id body))
                     && (o_public_token o
                         =? GetOrderPublic.field (GetOrderPublic.public_token body)))
           (orders db) = [o]
    /\ GetOrderPublic.orderErr env = false
    /\ GetOrderPublic.field (GetOrderPublic.order_id body) <> ""
    /\ GetOrderPublic.field (GetOrderPublic.public_token body) <> ""
    /\ order = GetOrderPublic.public_order o
    /\ let rows :=
         if GetOrderPublic.itemsFailed env then []
         else filter (fun it => oi_order_id it =? o_id o) (order_items db) in
       let productIds := filter Js.truthy (map oi_product_id rows) in
       let prods :=
         match productIds with
         | [] => []
         | _ :: _ =>
             if GetOrderPublic.prodsFailed env then []
             else filter (fun p => Js.includes productIds (GetOrderPublic.img_id p))
                    images
         end in
       items
       = map (fun it =>
                {| GetOrderPublic.pi_product_id := oi_product_id it;
                   GetOrderPublic.pi_product_name := oi_product_name it;
                   GetOrderPublic.pi_price := oi_price it;
                   GetOrderPublic.pi_quantity := oi_quantity it;
                   GetOrderPublic.pi_selected_size := oi_selected_size it;
                   GetOrderPublic.pi_selected_color := oi_selected_color it;
                   GetOrderPublic.pi_options := oi_options it;
                   GetOrderPublic.pi_image :=
                     GetOrderPublic.first_image prods (oi_product_id it) |})
             rows.
Proof.
  unfold GetOrderPublic.serve.
  destruct (Js.truthy (GetOrderPublic.field (GetOrderPublic.order_id body))) eqn:Ti;
    [|discriminate].
  destruct (Js.truthy (GetOrderPublic.field (GetOrderPublic.public_token body))) eqn:Tt;
    [|discriminate].
  cbn [negb orb].
  destruct (Js.single _) as [o|] eqn:S; [|discriminate].
  destruct (GetOrderPublic.orderErr env) eqn:E; [discriminate|].
  intros [= <- <-]. apply single_some_inv in S.
  exists o. split; [exact S|]. split; [reflexivity|].
  split; [intros C; apply field_blank in C; congruence|].
  split; [intros C; apply field_blank in C; congruence|].
  split; reflexivity.
Qed.

Lemma fetched_products (failed : bool) (ids : list string)
    (images : list GetOrderPublic.ProductImagesRow)
    (p : GetOrderPublic.ProductImagesRow) :
  In p match ids with
       | [] => []
       | _ :: _ =>
           if failed then []
           else filter (fun p => Js.includes ids (GetOrderPublic.img_id p)) images
       end
  <-> failed = false /\ In p images /\ In (GetOrderPublic.img_id p) ids.
Proof.
  destruct ids as [|i ids]; [cbn; tauto|].
  destruct failed; [cbn; split; [tauto|now intros [? _]]|].
  rewrite filter_In, includes_In. tauto.
Qed.

Lemma find_rev_unique {A : Type} (f : A -> bool) (l : list A) (x : A) :
  In x l -> f x = true ->
  (forall y, In y l -> f y = true -> y = x) ->
  List.find f (rev l) = Some x.
Proof.
  intros Hx Fx U.
  destruct (List.find f (rev l)) as [y|] eqn:F.
  - apply find_some in F as [Hy Fy]. apply in_rev in Hy. f_equal. now apply U.
  - rewrite (find_none _ _ F x) in Fx; [discriminate|]. now apply in_rev in Hx.
Qed.

Lemma Forall2_map_self {A B : Type} (R : A -> B -> Prop) (g : A -> B)
    (l : list A) :
  (forall x, In x l -> R x (g x)) -> Forall2 R l (map g l).
Proof.
  induction l as [|a l IH]; [constructor|]. intros H. cbn. constructor.
  - apply H. now left.
  - apply IH. intros x Hx. apply H. now right.
Qed.

Lemma nodup_map_inj {A B : Type} (f : A -> B) (l : list A) (a b : A) :
  NoDup (map f l) -> In a l -> In b l -> f a = f b -> a = b.
Proof.
  induction l as [|x l IH]; [intros _ []|].
  cbn. intros N. inversion N as [|? ? Hn N']; subst.
  intros [->|Ha] [->|Hb] E; auto.
  - exfalso. apply Hn. rewrite E. now apply in_map.
  - exfalso. apply Hn. rewrite <- E. now apply in_map.
Qed.

Lemma Forall2_map_impl {A B C : Type} (R' : A -> B -> Prop) (R : A -> C -> Prop)
    (g : B -> C) (l : list A) (l' : list B) :
  (forall a b, R' a b -> R a (g b)) -> Forall2 R' l l' -> Forall2 R l (map g l').
Proof.
  intros H L. induction L as [|a b l l' Hab _ IH]; [constructor|].
  cbn. constructor; [now apply H|exact IH].
Qed.

(** X20. The public lookup answers 400 exactly when the order id or the
    token is empty after trimming.  It hands out an order only when the
    store answered without error and exactly one order has both the
    trimmed id and the trimmed token; the answer shows that order, and its
    items are, in table order, the order_items rows of that order with the
    columns copied (none when the items query fails). *)
Theorem public_lookup_needs_id_and_token
    (env : GetOrderPublic.Env) (body : GetOrderPublic.Body) (db : Db)
    (images : list GetOrderPublic.ProductImagesRow) :
  (GetOrderPublic.serve env body db images = GetOrderPublic.BadRequest
   <-> GetOrderPublic.field (GetOrderPublic.order_id body) = ""
       \/ GetOrderPublic.field (GetOrderPublic.public_token body) = "")
  /\ (forall order items,
        GetOrderPublic.serve env body db images = GetOrderPublic.Found order items ->
        GetOrderPublic.orderErr env = false
        /\ exists o,
             In o (orders db)
             /\ order = GetOrderPublic.public_order o
             /\ o_id o = GetOrderPublic.field (GetOrderPublic.order_id body)
             /\ o_public_token o
                = GetOrderPublic.field (GetOrderPublic.public_token body)
             /\ (forall o', In o' (orders db) -> o_id o' = o_id o ->
                            o_public_token o' = o_public_token o -> o' = o)
             /\ (GetOrderPublic.itemsFailed env = true -> items = [])
             /\ (GetOrderPublic.itemsFailed env = false ->
                 Forall2
                   (fun row it =>
                      GetOrderPublic.pi_product_id it = oi_product_id row
                      /\ GetOrderPublic.pi_product_name it = oi_product_name row
                      /\ GetOrderPublic.pi_price it = oi_price row
                      /\ GetOrderPublic.pi_quantity it = oi_quantity row
                      /\ GetOrderPublic.pi_selected_size it = oi_selected_size row
                      /\ GetOrderPublic.pi_selected_color it = oi_selected_color row
                      /\ GetOrderPublic.pi_options it = oi_options row)
                   (filter (fun r => oi_order_id r =? o_id o) (order_items db))
                   items)).
Proof.
  split.
  - unfold GetOrderPublic.serve.
    destruct (Js.truthy (GetOrderPublic.field (GetOrderPublic.order_id body))) eqn:Ti;
      cbn [negb orb].
    + destruct (Js.truthy (GetOrderPublic.field (GetOrderPublic.public_token body)))
        eqn:Tt; cbn [negb].
      * split.
        -- destruct (Js.single _); [destruct (GetOrderPublic.orderErr env)|];
             discriminate.
        -- intros [C|C]; apply field_blank in C; congruence.
      * split; [|reflexivity]. intros _. right. now apply field_blank.
    + split; [|reflexivity]. intros _. left. now apply field_blank.
  - intros order items F.
    apply serve_found in F as (o & S & E & _ & _ & -> & ->).
    split; [exact E|]. exists o.
    assert (I : In o (filter (fun o => (o_id o
                                        =? GetOrderPublic.field
                                             (GetOrderPublic.order_id body))
                                       && (o_public_token o
                                           =? GetOrderPublic.field
                                                (GetOrderPublic.public_token body)))
                        (orders db))) by (rewrite S; now left).
    apply filter_In in I as [Hin Hm]. apply andb_true_iff in Hm as [Hi Ht].
    apply String.eqb_eq in Hi, Ht.
    split; [exact Hin|]. split; [reflexivity|]. split; [exact Hi|].
    split; [exact Ht|]. split.
    { intros o' Hin' Hi' Ht'. apply (filter_one _ _ _ _ S Hin').
      rewrite Hi', Ht', Hi, Ht, !String.eqb_refl. reflexivity. }
    split.
    { intros ->. reflexivity. }
    intros ->. cbv zeta. apply Forall2_map_self. intros row _. cbn. auto 10.
Qed.

(** X21. The image attached to an item of the public answer.  When an item
    shows an image, the products query did not fail, and the image is the
    non-empty first image of a products row with the product id of the
    item.  When the products query fails, no item shows an image.  When it does not fail, product ids
    are unique and the product of the item has a non-empty first image,
    the item shows it. *)
Theorem attached_image_is_the_first_of_the_product
    (env : GetOrderPublic.Env) (body : GetOrderPublic.Body) (db : Db)
    (images : list GetOrderPublic.ProductImagesRow)
    (order : GetOrderPublic.PublicOrder) (items : list GetOrderPublic.PublicItem)
    (it : GetOrderPublic.PublicItem) :
  GetOrderPublic.serve env body db images = GetOrderPublic.Found order items ->
  In it items ->
  (forall img,
      GetOrderPublic.pi_image it = Some img ->
      img <> "" /\ GetOrderPublic.prodsFailed env = false
      /\ exists p rest,
          In p images
          /\ GetOrderPublic.img_id p = GetOrderPublic.pi_product_id it
          /\ GetOrderPublic.img_images p = Some (img :: rest))
  /\ (GetOrderPublic.prodsFailed env = true -> GetOrderPublic.pi_image it = None)
  /\ (GetOrderPublic.prodsFailed env = false ->
      NoDup (map GetOrderPublic.img_id images) ->
      GetOrderPublic.pi_product_id it <> "" ->
      forall p img rest,
        In p images ->
        GetOrderPublic.img_id p = GetOrderPublic.pi_product_id it ->
        GetOrderPublic.img_images p = Some (img :: rest) -> img <> "" ->
        GetOrderPublic.pi_image it = Some img).
Proof.
  intros F Hit.
  apply serve_found in F as (o & _ & _ & _ & _ & _ & Hitems). cbv zeta in Hitems.
  set (rows := if GetOrderPublic.itemsFailed env then []
               else filter (fun it => oi_order_id it =? o_id o) (order_items db))
    in Hitems.
  set (ids := filter Js.truthy (map oi_product_id rows)) in Hitems.
  set (prods := match ids with
                | [] => []
                | _ :: _ =>
                    if GetOrderPublic.prodsFailed env then []
                    else filter (fun p => Js.includes ids (GetOrderPublic.img_id p))
                           images
                end) in Hitems.
  assert (Hprods : forall p,
             In p prods
             <-> GetOrderPublic.prodsFailed env = false /\ In p images
                 /\ In (GetOrderPublic.img_id p) ids)
    by (intros p; apply fetched_products).
  clearbody prods. subst items. apply in_map_iff in Hit as (row & <- & Hrow).
  cbn [GetOrderPublic.pi_image GetOrderPublic.pi_product_id].
  unfold GetOrderPublic.first_image, GetOrderPublic.productsById, Js.find.
  split; [|split].
  - intros img.
    destruct (List.find _ (rev prods)) as [p|] eqn:Fp; [|discriminate].
    apply find_some in Fp as [Hp Hid]. apply in_rev in Hp.
    apply Hprods in Hp as (Hf & Hp & _). apply String.eqb_eq in Hid.
    destruct (GetOrderPublic.img_images p) as [[|first rest]|] eqn:Im;
      try discriminate.
    unfold Js.or_else, Js.truthy.
    destruct (first =? "") eqn:E; [discriminate|]. cbn [negb].
    intros [= <-]. apply String.eqb_neq in E.
    split; [exact E|]. split; [exact Hf|]. exists p, rest. auto.
  - intros Hf.
    destruct (List.find _ (rev prods)) as [p|] eqn:Fp; [|reflexivity].
    apply find_some in Fp as [Hp _]. apply in_rev in Hp.
    apply Hprods in Hp as (Hf' & _). congruence.
  - intros Hf Hn Hne p img rest Hp Hid Him Hine.
    assert (Hin : In p prods).
    { apply Hprods. split; [exact Hf|]. split; [exact Hp|].
      rewrite Hid. unfold ids. apply filter_In. split.
      - now apply in_map.
      - unfold Js.truthy. apply String.eqb_neq in Hne. now rewrite Hne. }
    rewrite (find_rev_unique _ prods p Hin).
    + rewrite Him. unfold Js.or_else, Js.truthy.
      apply String.eqb_neq in Hine. now rewrite Hine.
    + rewrite Hid. apply String.eqb_refl.
    + intros y Hy Fy. apply String.eqb_eq in Fy.
      apply Hprods in Hy as (_ & Hy & _).
      apply (nodup_map_inj GetOrderPublic.img_id images y p Hn Hy Hp). congruence.
Qed.

Lemma attached_image_is_the_first_of_the_product_witness :
  exists order items it,
    GetOrderPublic.serve Visit.reader Visit.receipt Visit.placed Visit.gallery
    = GetOrderPublic.Found order items
    /\ In it items
    /\ GetOrderPublic.pi_image it = Some "a.jpg"
    /\ (forall img,
          GetOrderPublic.pi_image it = Some img ->
          img <> "" /\ GetOrderPublic.prodsFailed Visit.reader = false
          /\ exists p rest,
              In p Visit.gallery
              /\ GetOrderPublic.img_id p = GetOrderPublic.pi_product_id it
              /\ GetOrderPublic.img_images p = Some (img :: rest)).
Proof.
  eexists _, _, _.
  split; [vm_compute; reflexivity|].
  split; [left; reflexivity|].
  split; [reflexivity|].
  refine (proj1 (attached_image_is_the_first_of_the_product
                   Visit.reader Visit.receipt Visit.placed Visit.gallery
                   _ _ _ _ _)).
  - vm_compute. reflexivity.
  - left. reflexivity.
Defined.

(** X22. From checkout to the order page.  After an accepted order whose
    id and public token are non-empty and free of surrounding white space,
    on a store whose item rows all belong to stored orders, the public
    lookup with that id and that token finds the order when the store
    answers its queries: it shows the id, the token, as total what the
    DECIMAL(10,2) column has kept of the answered total (which need not be
    that number), the status "new", the phone and the event id of the
    request, and one
    item per cart line, in cart order, with the product and quantity of
    the line and the catalog name and price.  With the same id and any
    other token the lookup never answers 200. *)
Theorem accepted_order_can_be_looked_up
    (env : Env) (h : Headers) (body : OrderRequest) (db : Db)
    (id tok : string) (t : PrimFloat.float)
    (genv : GetOrderPublic.Env) (images : list GetOrderPublic.ProductImagesRow) :
  response env h body db = success id tok t ->
  id <> "" -> Js.trim id = id -> tok <> "" -> Js.trim tok = tok ->
  (forall r, In r (order_items db) ->
             exists o, In o (orders db) /\ o_id o = oi_order_id r) ->
  (GetOrderPublic.orderErr genv = false ->
   GetOrderPublic.itemsFailed genv = false ->
   exists order items,
     GetOrderPublic.serve genv
       {| GetOrderPublic.order_id := Some id;
          GetOrderPublic.public_token := Some tok |}
       (store_after env h body db) images
     = GetOrderPublic.Found order items
     /\ GetOrderPublic.po_id order = id
     /\ GetOrderPublic.po_public_token order = tok
     /\ GetOrderPublic.po_total order = numeric env t
     /\ GetOrderPublic.po_status order = "new"
     /\ GetOrderPublic.po_phone order = phone body
     /\ GetOrderPublic.po_event_id order = event_id body
     /\ Forall2
          (fun line it =>
             GetOrderPublic.pi_product_id it = product_id line
             /\ GetOrderPublic.pi_quantity it = quantity line
             /\ exists row,
                 List.find (fun r => p_id r =? product_id line) (products db)
                 = Some row
                 /\ GetOrderPublic.pi_product_name it = p_name row
                 /\ GetOrderPublic.pi_price it = p_price row)
          (cart_items body) items)
  /\ (forall guess,
        GetOrderPublic.field guess <> tok ->
        GetOrderPublic.status_of
          (GetOrderPublic.serve genv
             {| GetOrderPublic.order_id := Some id;
                GetOrderPublic.public_token := guess |}
             (store_after env h body db) images) <> 200).
Proof.
  intros H Hid Hidt Htok Htokt Hfk.
  destruct (serve_success_tables _ _ _ _ _ _ _ H)
    as (ipl & phl & priced & _ & P & Ht & Hnew & Ho & Hitems & _).
  destruct (serve_success _ _ _ _ _ _ _ H)
    as (_ & _ & priced' & db1 & _ & _ & _ & _ & P' & I & _ & _ & Hpub & _ & _).
  rewrite P in P'. injection P' as <-.
  apply insert_order_some in I as (_ & _ & Hfresh).
  cbn [order_row o_id] in Hfresh. rewrite <- Hnew in Hfresh.
  assert (Hprior : forall o, In o (orders db) -> (o_id o =? id) = false).
  { intros o Hin. destruct (o_id o =? id) eqn:E; [|reflexivity].
    assert (X : existsb (fun o => o_id o =? id) (orders db) = true)
      by (apply existsb_exists; eauto).
    congruence. }
  assert (Hrow : o_id (order_row env h body priced) = id
                 /\ o_public_token (order_row env h body priced) = tok)
    by (cbn; auto).
  destruct Hrow as [Hrid Hrtok].
  split.
  - intros He Hi. unfold GetOrderPublic.serve.
    cbn [GetOrderPublic.order_id GetOrderPublic.public_token].
    rewrite (field_clean id Hid Hidt), (field_clean tok Htok Htokt).
    assert (Ti : Js.truthy id = true)
      by (unfold Js.truthy; apply String.eqb_neq in Hid; now rewrite Hid).
    assert (Tt : Js.truthy tok = true)
      by (unfold Js.truthy; apply String.eqb_neq in Htok; now rewrite Htok).
    rewrite Ti, Tt, Ho, filter_app. cbn [negb orb].
    rewrite (filter_none _ (orders db))
      by (intros o Hin; now rewrite (Hprior o Hin)).
    cbn [filter app]. rewrite Hrid, Hrtok, !String.eqb_refl. cbn [andb Js.single].
    rewrite He, Hi, Hitems, filter_app, Hrid.
    rewrite (filter_none _ (order_items db)).
    2:{ intros r Hr. destruct (Hfk r Hr) as (o & Hin & <-). now apply Hprior. }
    rewrite (filter_all (fun it => oi_order_id it =? id)).
    2:{ intros r (it & <- & _)%in_map_iff. cbn. apply String.eqb_refl. }
    cbn [app]. eexists _, _. split; [reflexivity|].
    cbn [GetOrderPublic.public_order GetOrderPublic.po_id
         GetOrderPublic.po_public_token GetOrderPublic.po_total
         GetOrderPublic.po_status GetOrderPublic.po_phone
         GetOrderPublic.po_event_id].
    split; [assumption|]. split; [assumption|].
    split; [cbn [order_row o_total]; now rewrite Ht|].
    repeat (split; [reflexivity|]).
    rewrite map_map. refine (Forall2_map_impl _ _ _ _ _ _ (priced_lines _ _ _ _ P)).
    intros line it (Hi' & Hq & row & Fr & Hn & Hpr). cbn.
    rewrite Hi', Hq, Hn, Hpr. repeat split. exists row. auto.
  - intros guess Hg F.
    destruct (GetOrderPublic.serve genv _ _ images) as [| |order items] eqn:S;
      try discriminate.
    apply serve_found in S as (o & S & _).
    cbn [GetOrderPublic.order_id GetOrderPublic.public_token] in S.
    rewrite (field_clean id Hid Hidt) in S.
    assert (I : In o (filter (fun o => (o_id o =? id)
                                       && (o_public_token o
                                           =? GetOrderPublic.field guess))
                        (orders (store_after env h body db))))
      by (rewrite S; now left).
    apply filter_In in I as [Hin Hm]. apply andb_true_iff in Hm as [Hi' Ht'].
    rewrite Ho in Hin. apply in_app_or in Hin as [Hin | [<- | []]].
    + rewrite (Hprior o Hin) in Hi'. discriminate.
    + apply String.eqb_eq in Ht'. rewrite Hrtok in Ht'. congruence.
Qed.

Lemma accepted_order_can_be_looked_up_witness :
  (exists order items,
      GetOrderPublic.serve Visit.reader Visit.receipt Visit.placed Visit.gallery
      = GetOrderPublic.Found order items
      /\ GetOrderPublic.po_id order = "o1"
      /\ GetOrderPublic.po_public_token order = "pub-o1"
      /\ GetOrderPublic.po_total order = 540000
      /\ GetOrderPublic.po_status order = "new"
      /\ GetOrderPublic.po_phone order = Sample.number
      /\ GetOrderPublic.po_event_id order = "evt_1"
      /\ Forall2
           (fun line it =>
              GetOrderPublic.pi_product_id it = product_id line
              /\ GetOrderPublic.pi_quantity it = quantity line
              /\ exists row,
                  List.find (fun r => p_id r =? product_id line)
                    (products Sample.shop) = Some row
                  /\ GetOrderPublic.pi_product_name it = p_name row
                  /\ GetOrderPublic.pi_price it = p_price row)
           [Sample.line "A" 2] items)
  /\ GetOrderPublic.status_of
       (GetOrderPublic.serve Visit.reader
          {| GetOrderPublic.order_id := Some "o1";
             GetOrderPublic.public_token := Some "pub-o2" |}
          Visit.placed Visit.gallery) <> 200.
Proof.
  destruct (accepted_order_can_be_looked_up
              (Sample.world 1000 "o1") Sample.caller
              (Sample.order Sample.number [Sample.line "A" 2]) Sample.shop
              "o1" "pub-o1" (Js.number 540000) Visit.reader Visit.gallery)
    as [Hfound Hother];
    try reflexivity; try discriminate.
  - intros r [].
  - split.
    + apply Hfound; reflexivity.
    + apply (Hother (Some "pub-o2")). discriminate.
Defined.

(* ------------------------------------------------------------------ *)
(** * The cloudflare-images-upload handler *)

Lemma authenticate_inr (env : CloudflareImagesUpload.Env)
    (h : TikTokServerEvents.CallHeaders)
    (roles : list TikTokServerEvents.AdminRoleRow) (uid : string) :
  CloudflareImagesUpload.authenticate env h roles = inr uid
  <-> exists source role,
        Js.or_else (TikTokServerEvents.x_admin_token h)
                   (TikTokServerEvents.authorization h) = Some source
        /\ source <> ""
        /\ CloudflareImagesUpload.getUser env (TikTokServerEvents.bearer source)
           = Some uid
        /\ filter (fun r => TikTokServerEvents.ar_user_id r =? uid) roles = [role].
Proof.
  unfold CloudflareImagesUpload.authenticate. split.
  - destruct (Js.or_else _ _) as [source|]; [|discriminate].
    destruct (Js.truthy source) eqn:T; [|discriminate]. cbn [negb].
    destruct (CloudflareImagesUpload.getUser env _) as [u|] eqn:U; [|discriminate].
    destruct (Js.single _) as [role|] eqn:S; [|discriminate].
    intros [= <-]. exists source, role. apply single_some_inv in S.
    unfold Js.truthy in T. apply negb_true_iff, String.eqb_neq in T. auto.
  - intros (source & role & -> & Hne & -> & ->).
    unfold Js.truthy. apply String.eqb_neq in Hne. now rewrite Hne.
Qed.

Lemma authenticate_inl (env : CloudflareImagesUpload.Env)
    (h : TikTokServerEvents.CallHeaders)
    (roles : list TikTokServerEvents.AdminRoleRow)
    (refusal : CloudflareImagesUpload.Reply) :
  CloudflareImagesUpload.authenticate env h roles = inl refusal ->
  refusal = CloudflareImagesUpload.Unauthorized
  \/ refusal = CloudflareImagesUpload.Forbidden.
Proof.
  unfold CloudflareImagesUpload.authenticate.
  repeat (match goal with
          | |- context [if ?c then _ else _] => destruct c
          | |- context [match ?x with _ => _ end] => destruct x
          end; try discriminate);
    intros [= <-]; auto.
Qed.

Lemma conclude_cases (env : CloudflareImagesUpload.Env) (uid : string)
    (body : CloudflareImagesUpload.Body)
    (result : option CloudflareImagesUpload.CfResult)
    (calls : list CloudflareImagesUpload.CfCall)
    (logs : list CloudflareImagesUpload.AuditLogRow) :
  (CloudflareImagesUpload.succeeded result = false
   /\ CloudflareImagesUpload.conclude env uid body result calls logs
      = (CloudflareImagesUpload.CloudflareError
           (CloudflareImagesUpload.msg_of result), calls, logs))
  \/ (exists res,
        result = Some res /\ CloudflareImagesUpload.cf_success res = true
        /\ CloudflareImagesUpload.conclude env uid body result calls logs
           = (match CloudflareImagesUpload.cf_result res with
              | Some up =>
                  CloudflareImagesUpload.Created
                    (CloudflareImagesUpload.uploadURL up)
                    (CloudflareImagesUpload.id up)
              | None => CloudflareImagesUpload.InternalError
              end, calls,
              CloudflareImagesUpload.insert_audit env uid body logs)).
Proof.
  unfold CloudflareImagesUpload.conclude.
  destruct (CloudflareImagesUpload.succeeded result) eqn:S; cbn [negb];
    [right|left; auto].
  destruct result as [res|]; [|discriminate]. cbn in S.
  exists res. split; [reflexivity|]. split; [exact S|].
  now destruct res as [? ? ? [up|]].
Qed.

Lemma or_else_chain (x y : option string) (s : string) :
  (forall t, y = Some t -> t <> "") -> Js.or_else x y = Some s -> s <> "".
Proof.
  intros Hy. unfold Js.or_else. destruct x as [a|]; [|apply Hy].
  destruct (Js.truthy a) eqn:T; [|apply Hy].
  intros [= <-]. unfold Js.truthy in T. now apply negb_true_iff, String.eqb_neq in T.
Qed.

Lemma msg_of_not_empty (result : option CloudflareImagesUpload.CfResult) :
  CloudflareImagesUpload.msg_of result <> "".
Proof.
  unfold CloudflareImagesUpload.msg_of. cbv zeta.
  destruct (Js.or_else _ (Js.or_else _ None)) as [m|] eqn:E; [|discriminate].
  revert E. apply or_else_chain. intros t. apply or_else_chain. discriminate.
Qed.

(** X23. The upload handler works for admins only.  Whenever it calls
    Cloudflare, writes to audit_logs or answers 200, the token taken from
    the x-admin-token header (or, when that is absent or empty, from
    Authorization), less "Bearer " and trimmed, was resolved by the auth
    service to a user with exactly one admin_roles row; every call then
    carries the configured account and API token, that user as uploader
    and the file name of the request.  An answer 401 or 403 comes with no
    call and no audit row.  No token opens the handler by itself, the
    service-role key included: a token that the auth service resolves to
    no user is answered 401, with no call and no audit row. *)
Theorem upload_is_for_admins_only
    (env : CloudflareImagesUpload.Env) (h : TikTokServerEvents.CallHeaders)
    (body : option CloudflareImagesUpload.Body)
    (roles : list TikTokServerEvents.AdminRoleRow)
    (logs : list CloudflareImagesUpload.AuditLogRow) :
  let answer := CloudflareImagesUpload.serve env h body roles logs in
  (snd (fst answer) <> [] \/ snd answer <> logs
   \/ CloudflareImagesUpload.status_of (fst (fst answer)) = 200 ->
   exists uid b,
     CloudflareImagesUpload.authenticate env h roles = inr uid
     /\ body = Some b
     /\ forall call, In call (snd (fst answer)) ->
          CloudflareImagesUpload.account call
          = CloudflareImagesUpload.CLOUDFLARE_ACCOUNT_ID env
          /\ CloudflareImagesUpload.api_token call
             = CloudflareImagesUpload.CLOUDFLARE_IMAGES_API_TOKEN env
          /\ CloudflareImagesUpload.uploaded_by call = uid
          /\ CloudflareImagesUpload.call_filename call
             = CloudflareImagesUpload.filename b)
  /\ (CloudflareImagesUpload.status_of (fst (fst answer)) = 401
      \/ CloudflareImagesUpload.status_of (fst (fst answer)) = 403 ->
      snd (fst answer) = [] /\ snd answer = logs
      /\ exists refusal, CloudflareImagesUpload.authenticate env h roles = inl refusal)
  /\ (forall source,
        Js.or_else (TikTokServerEvents.x_admin_token h)
                   (TikTokServerEvents.authorization h) = Some source ->
        CloudflareImagesUpload.getUser env (TikTokServerEvents.bearer source)
        = None ->
        answer = (CloudflareImagesUpload.Unauthorized, [], logs)).
Proof.
  cbv zeta.
  assert (Hkey : forall source,
             Js.or_else (TikTokServerEvents.x_admin_token h)
                        (TikTokServerEvents.authorization h) = Some source ->
             CloudflareImagesUpload.getUser env (TikTokServerEvents.bearer source)
             = None ->
             CloudflareImagesUpload.serve env h body roles logs
             = (CloudflareImagesUpload.Unauthorized, [], logs)).
  { intros source Hs Hu.
    unfold CloudflareImagesUpload.serve, CloudflareImagesUpload.authenticate.
    rewrite Hs, Hu. now destruct (negb (Js.truthy source)). }
  match goal with
  | |- ?A /\ ?B /\ _ =>
      cut (A /\ B); [intros [HA HB]; exact (conj HA (conj HB Hkey))|]
  end.
  clear Hkey.
  unfold CloudflareImagesUpload.serve.
  destruct (CloudflareImagesUpload.authenticate env h roles) as [refusal|uid] eqn:A.
  { cbn [fst snd]. split; [|eauto].
    intros [C|[C|C]]; try now contradiction C.
    apply authenticate_inl in A as [-> | ->]; discriminate. }
  destruct body as [b|].
  2:{ cbn [fst snd]. split; [|intros [C|C]; discriminate].
      intros [C|[C|C]]; try now contradiction C. discriminate. }
  assert (Hcalls : forall calls,
             (forall c, In c calls ->
                        exists form, c = CloudflareImagesUpload.call_of env form uid b) ->
             forall call, In call calls ->
               CloudflareImagesUpload.account call
               = CloudflareImagesUpload.CLOUDFLARE_ACCOUNT_ID env
               /\ CloudflareImagesUpload.api_token call
                  = CloudflareImagesUpload.CLOUDFLARE_IMAGES_API_TOKEN env
               /\ CloudflareImagesUpload.uploaded_by call = uid
               /\ CloudflareImagesUpload.call_filename call
                  = CloudflareImagesUpload.filename b).
  { intros calls Hc call Hin. destruct (Hc call Hin) as [form ->]. cbn. auto. }
  assert (Hone : forall c, In c [CloudflareImagesUpload.call_of env false uid b] ->
                           exists form, c = CloudflareImagesUpload.call_of env form uid b)
    by (intros c [<- | []]; eauto).
  assert (Htwo : forall c, In c [CloudflareImagesUpload.call_of env false uid b;
                                 CloudflareImagesUpload.call_of env true uid b] ->
                           exists form, c = CloudflareImagesUpload.call_of env form uid b)
    by (intros c [<- | [<- | []]]; eauto).
  assert (Hconclude : forall result calls,
             (forall c, In c calls ->
                        exists form, c = CloudflareImagesUpload.call_of env form uid b) ->
             let answer := CloudflareImagesUpload.conclude env uid b result calls logs in
             (forall call, In call (snd (fst answer)) ->
                CloudflareImagesUpload.account call
                = CloudflareImagesUpload.CLOUDFLARE_ACCOUNT_ID env
                /\ CloudflareImagesUpload.api_token call
                   = CloudflareImagesUpload.CLOUDFLARE_IMAGES_API_TOKEN env
                /\ CloudflareImagesUpload.uploaded_by call = uid
                /\ CloudflareImagesUpload.call_filename call
                   = CloudflareImagesUpload.filename b)
             /\ CloudflareImagesUpload.status_of (fst (fst answer)) <> 401
             /\ CloudflareImagesUpload.status_of (fst (fst answer)) <> 403).
  { intros result calls Hc. cbv zeta.
    destruct (conclude_cases env uid b result calls logs)
      as [(_ & ->) | (res & _ & _ & ->)]; cbn [fst snd].
    - split; [now apply Hcalls|]. split; discriminate.
    - split; [now apply Hcalls|].
      destruct (CloudflareImagesUpload.cf_result res); split; discriminate. }
  destruct (CloudflareImagesUpload.first_answer env) as [|result1].
  { cbn [fst snd]. split; [|intros [C|C]; discriminate].
    intros _. exists uid, b. split; [reflexivity|]. split; [reflexivity|].
    now apply Hcalls. }
  destruct (negb (CloudflareImagesUpload.succeeded result1)
            && CloudflareImagesUpload.needsForm result1).
  - destruct (CloudflareImagesUpload.second_answer env) as [|result2].
    + cbn [fst snd]. split; [|intros [C|C]; discriminate].
      intros _. exists uid, b. split; [reflexivity|]. split; [reflexivity|].
      now apply Hcalls.
    + destruct (Hconclude result2 _ Htwo) as (H1 & H2 & H3).
      split; [|intros [C|C]; contradiction].
      intros _. exists uid, b. auto.
  - destruct (Hconclude result1 _ Hone) as (H1 & H2 & H3).
    split; [|intros [C|C]; contradiction].
    intros _. exists uid, b. auto.
Qed.

(** X24. The second attempt is the fallback for error 5415 and nothing
    else.  The handler calls Cloudflare at most twice, first with a JSON
    body; it makes a second call, as a form, exactly when the admin is
    authenticated, the body of the request is JSON, and the first answer
    came back without success and lists an error whose code reads 5415.
    Both calls carry the same account, token, uploader and file name. *)
Theorem second_attempt_only_on_5415
    (env : CloudflareImagesUpload.Env) (h : TikTokServerEvents.CallHeaders)
    (body : option CloudflareImagesUpload.Body)
    (roles : list TikTokServerEvents.AdminRoleRow)
    (logs : list CloudflareImagesUpload.AuditLogRow) :
  let calls := snd (fst (CloudflareImagesUpload.serve env h body roles logs)) in
  (calls = []
   \/ (exists uid b, calls = [CloudflareImagesUpload.call_of env false uid b])
   \/ (exists uid b, calls = [CloudflareImagesUpload.call_of env false uid b;
                              CloudflareImagesUpload.call_of env true uid b]))
  /\ (List.length calls = 2%nat
      <-> exists uid b result1 e,
            CloudflareImagesUpload.authenticate env h roles = inr uid
            /\ body = Some b
            /\ CloudflareImagesUpload.first_answer env
               = CloudflareImagesUpload.Parsed (Some result1)
            /\ CloudflareImagesUpload.cf_success result1 = false
            /\ (exists errs, CloudflareImagesUpload.cf_errors result1 = Some errs
                             /\ In e errs)
            /\ CloudflareImagesUpload.err_code e = "5415").
Proof.
  cbv zeta. unfold CloudflareImagesUpload.serve.
  destruct (CloudflareImagesUpload.authenticate env h roles) as [refusal|uid] eqn:A.
  { cbn [fst snd]. split; [now left|]. split; [discriminate|].
    intros (? & ? & ? & ? & ? & _). discriminate. }
  destruct body as [b|].
  2:{ cbn [fst snd]. split; [now left|]. split; [discriminate|].
      intros (? & ? & ? & ? & _ & ? & _). discriminate. }
  assert (Hc : forall result calls,
             snd (fst (CloudflareImagesUpload.conclude env uid b result calls logs))
             = calls).
  { intros result calls.
    now destruct (conclude_cases env uid b result calls logs)
      as [(_ & ->) | (res & _ & _ & ->)]. }
  destruct (CloudflareImagesUpload.first_answer env) as [|result1] eqn:F.
  { cbn [fst snd]. split; [right; left; eauto|]. split; [discriminate|].
    intros (? & ? & ? & ? & _ & _ & ? & _). discriminate. }
  destruct (CloudflareImagesUpload.succeeded result1) eqn:S; cbn [negb andb].
  { rewrite Hc. split; [right; left; eauto|]. split; [discriminate|].
    intros (? & ? & r & ? & _ & _ & [= ->] & S' & _). cbn in S. congruence. }
  destruct (CloudflareImagesUpload.needsForm result1) eqn:N.
  - assert (Hlen : List.length
                     (snd (fst match CloudflareImagesUpload.second_answer env with
                               | CloudflareImagesUpload.Threw =>
                                   (CloudflareImagesUpload.InternalError,
                                    [CloudflareImagesUpload.call_of env false uid b;
                                     CloudflareImagesUpload.call_of env true uid b],
                                    logs)
                               | CloudflareImagesUpload.Parsed result2 =>
                                   CloudflareImagesUpload.conclude env uid b result2
                                     [CloudflareImagesUpload.call_of env false uid b;
                                      CloudflareImagesUpload.call_of env true uid b]
                                     logs
                               end))
                   = 2%nat
                   /\ snd (fst match CloudflareImagesUpload.second_answer env with
                               | CloudflareImagesUpload.Threw =>
                                   (CloudflareImagesUpload.InternalError,
                                    [CloudflareImagesUpload.call_of env false uid b;
                                     CloudflareImagesUpload.call_of env true uid b],
                                    logs)
                               | CloudflareImagesUpload.Parsed result2 =>
                                   CloudflareImagesUpload.conclude env uid b result2
                                     [CloudflareImagesUpload.call_of env false uid b;
                                      CloudflareImagesUpload.call_of env true uid b]
                                     logs
                               end)
                      = [CloudflareImagesUpload.call_of env false uid b;
                         CloudflareImagesUpload.call_of env true uid b]).
    { destruct (CloudflareImagesUpload.second_answer env); [now cbn|].
      now rewrite Hc. }
    destruct Hlen as [Hlen Heq]. split; [right; right; eauto|].
    split; [|intros _; exact Hlen]. intros _.
    unfold CloudflareImagesUpload.needsForm in N.
    destruct result1 as [res|]; [|discriminate].
    destruct (CloudflareImagesUpload.cf_errors res) as [errs|] eqn:E; [|discriminate].
    apply existsb_exists in N as (e & He & Hcode). apply String.eqb_eq in Hcode.
    exists uid, b, res, e. repeat split; eauto.
  - rewrite Hc. split; [right; left; eauto|]. split; [discriminate|].
    intros (? & ? & r & e & _ & _ & [= ->] & _ & (errs & E & He) & Hcode).
    unfold CloudflareImagesUpload.needsForm in N. rewrite E in N.
    assert (X : existsb (fun e => CloudflareImagesUpload.err_code e =? "5415") errs
                = true).
    { apply existsb_exists. exists e. split; [exact He|]. now apply String.eqb_eq. }
    congruence.
Qed.

Lemma upload_cases (env : CloudflareImagesUpload.Env)
    (h : TikTokServerEvents.CallHeaders)
    (body : option CloudflareImagesUpload.Body)
    (roles : list TikTokServerEvents.AdminRoleRow)
    (logs : list CloudflareImagesUpload.AuditLogRow) :
  (exists refusal,
      CloudflareImagesUpload.authenticate env h roles = inl refusal
      /\ CloudflareImagesUpload.serve env h body roles logs = (refusal, [], logs))
  \/ (exists calls,
        CloudflareImagesUpload.serve env h body roles logs
        = (CloudflareImagesUpload.InternalError, calls, logs))
  \/ (exists uid b result calls,
        CloudflareImagesUpload.authenticate env h roles = inr uid
        /\ body = Some b
        /\ (CloudflareImagesUpload.first_answer env
            = CloudflareImagesUpload.Parsed result
            \/ CloudflareImagesUpload.second_answer env
               = CloudflareImagesUpload.Parsed result)
        /\ CloudflareImagesUpload.serve env h body roles logs
           = CloudflareImagesUpload.conclude env uid b result calls logs).
Proof.
  unfold CloudflareImagesUpload.serve.
  destruct (CloudflareImagesUpload.authenticate env h roles) as [refusal|uid] eqn:A;
    [left; eauto|].
  destruct body as [b|]; [|right; left; eauto].
  destruct (CloudflareImagesUpload.first_answer env) as [|result1] eqn:F;
    [right; left; eauto|].
  destruct (negb _ && _).
  - destruct (CloudflareImagesUpload.second_answer env) as [|result2] eqn:G;
      [right; left; eauto|].
    right; right. exists uid, b, result2. eauto 10.
  - right; right. exists uid, b, result1. eauto 10.
Qed.

(** X25. What the audit log and the answer say.  The handler adds at most
    one row to audit_logs, at its end.  An answer 200 hands out the upload
    URL and the image id of a Cloudflare answer that reported success, and
    the row of the admin and the file name is then in the log unless the
    store refused it.  A Cloudflare failure is answered 500 with a message
    that is never empty and leaves the log untouched.  But a Cloudflare
    answer that reports success without a [result] is answered 500 after
    the audit row has been written. *)
Theorem audit_row_follows_cloudflare_success
    (env : CloudflareImagesUpload.Env) (h : TikTokServerEvents.CallHeaders)
    (body : option CloudflareImagesUpload.Body)
    (roles : list TikTokServerEvents.AdminRoleRow)
    (logs : list CloudflareImagesUpload.AuditLogRow) :
  let answer := CloudflareImagesUpload.serve env h body roles logs in
  (snd answer = logs
   \/ exists uid b,
        CloudflareImagesUpload.authenticate env h roles = inr uid /\ body = Some b
        /\ CloudflareImagesUpload.auditRefused env = false
        /\ snd answer
           = logs ++ [{| CloudflareImagesUpload.al_user_id := uid;
                         CloudflareImagesUpload.al_action := "create_image_upload_url";
                         CloudflareImagesUpload.al_filename :=
                           CloudflareImagesUpload.filename b |}])
  /\ (forall url image,
        fst (fst answer) = CloudflareImagesUpload.Created url image ->
        exists uid b res up,
          CloudflareImagesUpload.authenticate env h roles = inr uid /\ body = Some b
          /\ (CloudflareImagesUpload.first_answer env
              = CloudflareImagesUpload.Parsed (Some res)
              \/ CloudflareImagesUpload.second_answer env
                 = CloudflareImagesUpload.Parsed (Some res))
          /\ CloudflareImagesUpload.cf_success res = true
          /\ CloudflareImagesUpload.cf_result res = Some up
          /\ url = CloudflareImagesUpload.uploadURL up
          /\ image = CloudflareImagesUpload.id up
          /\ snd answer = CloudflareImagesUpload.insert_audit env uid b logs)
  /\ (forall msg,
        fst (fst answer) = CloudflareImagesUpload.CloudflareError msg ->
        msg <> "" /\ snd answer = logs)
  /\ (forall uid b res,
        CloudflareImagesUpload.authenticate env h roles = inr uid ->
        body = Some b ->
        CloudflareImagesUpload.first_answer env
        = CloudflareImagesUpload.Parsed (Some res) ->
        CloudflareImagesUpload.cf_success res = true ->
        CloudflareImagesUpload.cf_result res = None ->
        CloudflareImagesUpload.auditRefused env = false ->
        answer
        = (CloudflareImagesUpload.InternalError,
           [CloudflareImagesUpload.call_of env false uid b],
           logs ++ [{| CloudflareImagesUpload.al_user_id := uid;
                       CloudflareImagesUpload.al_action := "create_image_upload_url";
                       CloudflareImagesUpload.al_filename :=
                         CloudflareImagesUpload.filename b |}])).
Proof.
  cbv zeta. split; [|split; [|split]].
  - destruct (upload_cases env h body roles logs)
      as [(r & _ & ->) | [(calls & ->) | (uid & b & result & calls & A & -> & _ & ->)]];
      try now left.
    destruct (conclude_cases env uid b result calls logs)
      as [(_ & ->) | (res & _ & _ & ->)]; [now left|].
    cbn [snd]. unfold CloudflareImagesUpload.insert_audit.
    destruct (CloudflareImagesUpload.auditRefused env) eqn:Q; [now left|right].
    exists uid, b. auto.
  - intros url image.
    destruct (upload_cases env h body roles logs)
      as [(r & A & ->) | [(calls & ->) | (uid & b & result & calls & A & -> & F & ->)]].
    + cbn [fst]. intros ->. apply authenticate_inl in A as [A | A]; discriminate.
    + discriminate.
    + destruct (conclude_cases env uid b result calls logs)
        as [(_ & ->) | (res & -> & S & ->)]; [discriminate|].
      cbn [fst snd].
      destruct (CloudflareImagesUpload.cf_result res) as [up|] eqn:R;
        [|discriminate].
      intros [= <- <-]. exists uid, b, res, up. auto 10.
  - intros msg.
    destruct (upload_cases env h body roles logs)
      as [(r & A & ->) | [(calls & ->) | (uid & b & result & calls & A & -> & F & ->)]].
    + cbn [fst]. intros ->. apply authenticate_inl in A as [A | A]; discriminate.
    + discriminate.
    + destruct (conclude_cases env uid b result calls logs)
        as [(_ & ->) | (res & -> & S & ->)]; cbn [fst snd].
      * intros [= <-]. split; [apply msg_of_not_empty|reflexivity].
      * destruct (CloudflareImagesUpload.cf_result res); discriminate.
  - intros uid b res A -> F S R Q.
    unfold CloudflareImagesUpload.serve. rewrite A, F.
    cbn [CloudflareImagesUpload.succeeded]. rewrite S. cbn [negb andb].
    unfold CloudflareImagesUpload.conclude, CloudflareImagesUpload.insert_audit.
    cbn [CloudflareImagesUpload.succeeded]. rewrite S, Q. cbn [negb].
    destruct res as [s0 e m r]. cbn in R. now subst r.
Qed.

(* ------------------------------------------------------------------ *)
(** * The generate-config script *)

Lemma index_of_spec (c : ascii) (s : string) (n : nat) :
  GenerateConfig.index_of c s = Some n
  <-> exists a b, s = String.append a (String c b)
                  /\ GenerateConfig.index_of c a = None /\ n = String.length a.
Proof.
  revert n. induction s as [|x s IH]; intros n; cbn.
  - split; [discriminate|]. intros (a & b & E & _). now destruct a.
  - destruct (Ascii.eqb_spec x c) as [->|Hx].
    + split.
      * intros [= <-]. exists "", s. auto.
      * intros ([|y a] & b & E & Ha & ->); [reflexivity|].
        cbn in E. injection E as <- _. cbn in Ha.
        now rewrite Ascii.eqb_refl in Ha.
    + destruct (GenerateConfig.index_of c s) as [m|] eqn:I; cbn.
      * split.
        -- intros [= <-]. destruct (proj1 (IH m) eq_refl) as (a & b & -> & Ha & ->).
           exists (String x a), b. cbn. destruct (Ascii.eqb_spec x c); [contradiction|].
           rewrite Ha. auto.
        -- intros ([|y a] & b & E & Ha & ->); cbn in E.
           ++ injection E as -> _. contradiction.
           ++ injection E as <- ->. cbn in Ha.
              destruct (Ascii.eqb_spec x c); [discriminate|].
              destruct (GenerateConfig.index_of c a) eqn:Ia; [discriminate|].
              assert (X : Some m = Some (String.length a)).
              { apply IH. eauto. }
              cbn. congruence.
      * split; [discriminate|].
        intros ([|y a] & b & E & Ha & ->); cbn in E.
        -- injection E as -> _. contradiction.
        -- injection E as <- ->. cbn in Ha.
           destruct (Ascii.eqb_spec x c); [discriminate|].
           destruct (GenerateConfig.index_of c a) eqn:Ia; [discriminate|].
           assert (X : None = Some (String.length a)) by (apply IH; eauto).
           discriminate.
Qed.

Lemma substring_take (a b : string) :
  String.substring 0 (String.length a) (String.append a b) = a.
Proof.
  induction a as [|c a IH]; cbn.
  - now destruct b.
  - now rewrite IH.
Qed.

Lemma substring_skip (a b : string) (n : nat) :
  String.substring (String.length a) n (String.append a b) = String.substring 0 n b.
Proof. induction a as [|c a IH]; [reflexivity|]. cbn. exact IH. Qed.

Lemma substring_after (a : string) (c : ascii) (b : string) :
  String.substring (String.length a + 1)
    (String.length (String.append a (String c b)) - (String.length a + 1))
    (String.append a (String c b)) = b.
Proof.
  rewrite length_append. cbn [String.length].
  replace (String.length a + S (String.length b) - (String.length a + 1))%nat
    with (String.length b) by lia.
  induction a as [|x a IH]; cbn.
  - apply substring_all.
  - exact IH.
Qed.

Lemma parse_line_spec (line key val : string) :
  GenerateConfig.parse_line line = Some (key, val)
  <-> exists a b,
        Js.trim line = String.append a (String "="%char b)
        /\ GenerateConfig.index_of "="%char a = None
        /\ GenerateConfig.starts_with "#"%char (Js.trim line) = false
        /\ key = Js.trim a
        /\ val = GenerateConfig.strip_quotes (Js.trim b).
Proof.
  unfold GenerateConfig.parse_line. cbv zeta.
  destruct (Js.truthy (Js.trim line)) eqn:T; cbn [negb orb].
  2:{ split; [discriminate|]. intros (a & b & E & _).
      unfold Js.truthy in T. apply negb_false_iff, String.eqb_eq in T.
      rewrite T in E. now destruct a. }
  destruct (GenerateConfig.starts_with "#"%char (Js.trim line)) eqn:H.
  { split; [discriminate|]. now intros (a & b & _ & _ & ? & _). }
  destruct (GenerateConfig.index_of "="%char (Js.trim line)) as [idx|] eqn:I.
  - apply index_of_spec in I as (a & b & E & Ha & ->). rewrite E.
    rewrite substring_take, substring_after. split.
    + intros [= <- <-]. exists a, b. auto.
    + intros (a' & b' & E' & Ha' & _ & -> & ->).
      assert (X1 : GenerateConfig.index_of "="%char (String.append a (String "="%char b))
                   = Some (String.length a)) by (apply index_of_spec; eauto).
      assert (X2 : GenerateConfig.index_of "="%char (String.append a (String "="%char b))
                   = Some (String.length a')) by (apply index_of_spec; eauto).
      assert (X : String.length a = String.length a') by congruence.
      clear X1 X2.
      assert (Ea : a = a').
      { rewrite <- (substring_take a (String "="%char b)), E', X.
        apply substring_take. }
      subst a'. clear X.
      assert (Eb : b = b').
      { rewrite <- (substring_after a "="%char b) at 1.
        rewrite E'. apply substring_after. }
      now subst b'.
  - split; [discriminate|]. intros (a & b & E & Ha & _).
    assert (X : GenerateConfig.index_of "="%char (Js.trim line)
                = Some (String.length a)) by (apply index_of_spec; eauto).
    congruence.
Qed.

Lemma trim_assignment (key val : string) :
  Js.trim key = key -> Js.trim val = val ->
  Js.trim (String.append key (String "="%char val))
  = String.append key (String "="%char val).
Proof.
  intros [Hks Hke]%trim_fixed [Hvs Hve]%trim_fixed.
  rewrite (trim_plain key val "="%char eq_refl). now rewrite Hks, Hve.
Qed.

Lemma parse_line_clean (key val : string) :
  Js.trim key = key -> GenerateConfig.index_of "="%char key = None ->
  GenerateConfig.starts_with "#"%char key = false -> Js.trim val = val ->
  GenerateConfig.parse_line (String.append key (String "="%char val))
  = Some (key, GenerateConfig.strip_quotes val).
Proof.
  intros Hk Hi Hh Hv. apply parse_line_spec. exists key, val.
  rewrite (trim_assignment key val Hk Hv), Hk, Hv.
  repeat split; try assumption.
  destruct key; [reflexivity|exact Hh].
Qed.

Lemma ends_with_last (c : ascii) (s : string) :
  GenerateConfig.ends_with c (String.append s (String c "")) = true.
Proof.
  induction s as [|x s IH]; cbn; [apply Ascii.eqb_refl|].
  rewrite IH. now destruct (String.append s (String c "")) eqn:E; [destruct s|].
Qed.

Lemma trim_quoted (q : ascii) (v : string) :
  Js.plain q = true ->
  Js.trim (String q (String.append v (String q ""))) = String q (String.append v (String q "")).
Proof.
  intros Hq.
  change (String q (String.append v (String q "")))
    with (String.append "" (String q (String.append v (String q "")))) at 1.
  rewrite (trim_plain "" (String.append v (String q "")) q Hq).
  now rewrite (trim_end_plain v "" q Hq).
Qed.

Lemma strip_quotes_quoted (q : ascii) (v : string) :
  q = GenerateConfig.double_quote \/ q = GenerateConfig.single_quote ->
  GenerateConfig.strip_quotes (String q (String.append v (String q ""))) = v.
Proof.
  intros Hq.
  assert (E : GenerateConfig.ends_with q (String q (String.append v (String q "")))
              = true) by apply (ends_with_last q (String q v)).
  assert (Hs : (GenerateConfig.starts_with GenerateConfig.double_quote
                 (String q (String.append v (String q "")))
               && GenerateConfig.ends_with GenerateConfig.double_quote
                    (String q (String.append v (String q ""))))
              || (GenerateConfig.starts_with GenerateConfig.single_quote
                    (String q (String.append v (String q "")))
                  && GenerateConfig.ends_with GenerateConfig.single_quote
                       (String q (String.append v (String q "")))) = true).
  { destruct Hq as [-> | ->].
    - rewrite E. reflexivity.
    - rewrite E. apply orb_true_iff. right. reflexivity. }
  unfold GenerateConfig.strip_quotes. rewrite Hs.
  cbn [String.length String.substring]. rewrite length_append. cbn [String.length].
  replace (S (String.length v + 1) - 2)%nat with (String.length v) by lia.
  apply substring_take.
Qed.

(** X26. What a line of a dotenv file assigns.  A line assigns nothing
    exactly when, trimmed, it is empty, starts with # or holds no "=".
    Otherwise it assigns once: the key is what stands before the first
    "=", trimmed, and the value is what stands after it, trimmed and then
    relieved of one pair of surrounding quotes. *)
Theorem dotenv_line_assigns_at_its_first_equals (line : string) :
  (GenerateConfig.parse_line line = None
   <-> Js.trim line = ""
       \/ GenerateConfig.starts_with "#"%char (Js.trim line) = true
       \/ GenerateConfig.index_of "="%char (Js.trim line) = None)
  /\ (forall key val,
        GenerateConfig.parse_line line = Some (key, val)
        <-> exists a b,
              Js.trim line = String.append a (String "="%char b)
              /\ GenerateConfig.index_of "="%char a = None
              /\ GenerateConfig.starts_with "#"%char (Js.trim line) = false
              /\ key = Js.trim a
              /\ val = GenerateConfig.strip_quotes (Js.trim b)).
Proof.
  split; [|intros key val; apply parse_line_spec].
  unfold GenerateConfig.parse_line. cbv zeta. unfold Js.truthy.
  destruct (String.eqb_spec (Js.trim line) "") as [E|E]; cbn [negb orb].
  - split; auto.
  - destruct (GenerateConfig.starts_with "#"%char (Js.trim line)).
    + split; auto.
    + destruct (GenerateConfig.index_of "="%char (Js.trim line)).
      * split; [discriminate|]. intros [C|[C|C]]; congruence.
      * split; auto.
Qed.

(** X27. Round trip of an assignment.  For a key without surrounding white
    space, without "=" and not starting with #, and a value without
    surrounding white space, the line key=value assigns the value less one
    pair of surrounding quotes to the key; so a value that starts with no
    quote is read as it is, a value written between two double or two
    single quotes is read as what stands between them, white space
    included, and a value that is one lone quote is read as empty. *)
Theorem dotenv_line_round_trip (key val : string) :
  Js.trim key = key -> GenerateConfig.index_of "="%char key = None ->
  GenerateConfig.starts_with "#"%char key = false -> Js.trim val = val ->
  GenerateConfig.parse_line (String.append key (String "="%char val))
  = Some (key, GenerateConfig.strip_quotes val)
  /\ (GenerateConfig.starts_with GenerateConfig.double_quote val = false ->
      GenerateConfig.starts_with GenerateConfig.single_quote val = false ->
      GenerateConfig.parse_line (String.append key (String "="%char val))
      = Some (key, val))
  /\ (forall q v,
        q = GenerateConfig.double_quote \/ q = GenerateConfig.single_quote ->
        GenerateConfig.parse_line
          (String.append key
             (String "="%char (String q (String.append v (String q "")))))
        = Some (key, v))
  /\ (forall q,
        q = GenerateConfig.double_quote \/ q = GenerateConfig.single_quote ->
        GenerateConfig.parse_line (String.append key (String "="%char (String q "")))
        = Some (key, "")).
Proof.
  intros Hk Hi Hh Hv. split; [now apply parse_line_clean|]. split; [|split].
  - intros Hd Hs. rewrite (parse_line_clean key val Hk Hi Hh Hv).
    unfold GenerateConfig.strip_quotes. now rewrite Hd, Hs.
  - intros q v Hq. rewrite (parse_line_clean key _ Hk Hi Hh).
    + now rewrite strip_quotes_quoted.
    + apply trim_quoted. now destruct Hq as [-> | ->].
  - intros q Hq. rewrite (parse_line_clean key _ Hk Hi Hh).
    + now destruct Hq as [-> | ->].
    + now destruct Hq as [-> | ->].
Qed.

Lemma dotenv_line_round_trip_witness :
  GenerateConfig.parse_line "NEXT_PUBLIC_META_PIXEL_ID=1234567890"
  = Some ("NEXT_PUBLIC_META_PIXEL_ID", "1234567890")
  /\ GenerateConfig.parse_line "NEXT_PUBLIC_META_PIXEL_ID='12 34'"
     = Some ("NEXT_PUBLIC_META_PIXEL_ID", "12 34").
Proof.
  destruct (dotenv_line_round_trip "NEXT_PUBLIC_META_PIXEL_ID" "1234567890")
    as (_ & Hplain & Hquoted & _); try reflexivity.
  split.
  - apply Hplain; reflexivity.
  - apply (Hquoted GenerateConfig.single_quote "12 34"). now right.
Defined.

Lemma assignments_app (l1 l2 : list string) :
  GenerateConfig.assignments (l1 ++ l2)
  = GenerateConfig.assignments l1 ++ GenerateConfig.assignments l2.
Proof. unfold GenerateConfig.assignments. apply flat_map_app. Qed.

Lemma lookup_app (l1 l2 : list (string * string)) (key : string) :
  GenerateConfig.lookup (l1 ++ l2) key
  = match GenerateConfig.lookup l2 key with
    | Some v => Some v
    | None => GenerateConfig.lookup l1 key
    end.
Proof.
  unfold GenerateConfig.lookup, Js.find. rewrite rev_app_distr.
  induction (rev l2) as [|kv l IH]; [reflexivity|].
  cbn. destruct (fst kv =? key); [reflexivity|exact IH].
Qed.

Lemma lookup_silent (lines : list string) (key : string) :
  (forall l v, In l lines -> GenerateConfig.parse_line l <> Some (key, v)) ->
  GenerateConfig.lookup (GenerateConfig.assignments lines) key = None.
Proof.
  intros H. unfold GenerateConfig.lookup, Js.find.
  destruct (List.find _ _) as [[k v]|] eqn:F; [|reflexivity].
  apply find_some in F as [Hin Hk]. apply in_rev in Hin.
  cbn in Hk. apply String.eqb_eq in Hk. subst k.
  unfold GenerateConfig.assignments in Hin.
  apply in_flat_map in Hin as (l & Hl & Hkv).
  destruct (GenerateConfig.parse_line l) as [kv|] eqn:P; [|destruct Hkv].
  destruct Hkv as [-> | []]. now apply H in P.
Qed.

Lemma lookup_last (before after : list string) (line key val : string) :
  GenerateConfig.parse_line line = Some (key, val) ->
  (forall l v, In l after -> GenerateConfig.parse_line l <> Some (key, v)) ->
  GenerateConfig.lookup (GenerateConfig.assignments (before ++ line :: after)) key
  = Some val.
Proof.
  intros P H.
  change (line :: after) with ([line] ++ after).
  rewrite !assignments_app, !lookup_app, (lookup_silent after key H).
  unfold GenerateConfig.assignments. cbn [flat_map]. rewrite P.
  unfold GenerateConfig.lookup, Js.find. cbn. now rewrite String.eqb_refl.
Qed.

(** X28. Where a public key gets its value.  The written configuration has
    the seven public keys, in their order, and nothing else.  A key that
    the process environment defines has the value given there, even an
    empty one.  Otherwise it has the value of the last line of .env.local
    that assigns it; if no line of .env.local does (or the file does not
    exist), of the last such line of .env; and if no line of .env does
    either, the empty string. *)
Theorem public_key_value_precedence
    (process_env : string -> option string) (dot_env_local dot_env : option string) :
  let config := GenerateConfig.publicConfig process_env dot_env_local dot_env in
  let last_of file key val :=
    exists raw before line after,
      file = Some raw
      /\ GenerateConfig.split_lines raw = before ++ line :: after
      /\ GenerateConfig.parse_line line = Some (key, val)
      /\ forall l v, In l after -> GenerateConfig.parse_line l <> Some (key, v) in
  let silent file key :=
    forall raw, file = Some raw ->
      forall l v, In l (GenerateConfig.split_lines raw) ->
                  GenerateConfig.parse_line l <> Some (key, v) in
  map fst config = GenerateConfig.public_keys
  /\ forall key value,
       In (key, value) config ->
       (forall v, process_env key = Some v -> value = v)
       /\ (process_env key = None ->
           (forall v, last_of dot_env_local key v -> value = v)
           /\ (silent dot_env_local key ->
               (forall v, last_of dot_env key v -> value = v)
               /\ (silent dot_env key -> value = ""))).
Proof.
  cbv zeta. split.
  { unfold GenerateConfig.publicConfig. rewrite map_map. cbn [fst]. apply map_id. }
  intros key value Hin.
  assert (Hv : value = GenerateConfig.getEnv process_env
                         (GenerateConfig.parseDotEnv dot_env_local)
                         (GenerateConfig.parseDotEnv dot_env) key).
  { unfold GenerateConfig.publicConfig in Hin.
    apply in_map_iff in Hin as (k & [= <- <-] & _). reflexivity. }
  assert (Hlast : forall file v,
             (exists raw before line after,
                 file = Some raw
                 /\ GenerateConfig.split_lines raw = before ++ line :: after
                 /\ GenerateConfig.parse_line line = Some (key, v)
                 /\ forall l v, In l after ->
                                GenerateConfig.parse_line l <> Some (key, v)) ->
             GenerateConfig.lookup (GenerateConfig.parseDotEnv file) key = Some v).
  { intros file v (raw & before & line & after & -> & S & P & H).
    cbn [GenerateConfig.parseDotEnv]. rewrite S. now apply lookup_last. }
  assert (Hsilent : forall file,
             (forall raw, file = Some raw ->
                forall l v, In l (GenerateConfig.split_lines raw) ->
                            GenerateConfig.parse_line l <> Some (key, v)) ->
             GenerateConfig.lookup (GenerateConfig.parseDotEnv file) key = None).
  { intros [raw|] H; [|reflexivity]. cbn [GenerateConfig.parseDotEnv].
    apply lookup_silent. now apply H. }
  subst value. unfold GenerateConfig.getEnv. split.
  - now intros v ->.
  - intros ->. split.
    + intros v L. now rewrite (Hlast _ _ L).
    + intros Sl. rewrite (Hsilent _ Sl). split.
      * intros v L. now rewrite (Hlast _ _ L).
      * intros Se. now rewrite (Hsilent _ Se).
Qed.

Lemma parse_line_space (s : string) (c : ascii) :
  Js.is_space c = true ->
  GenerateConfig.parse_line (String.append s (String c ""))
  = GenerateConfig.parse_line s.
Proof.
  intros Hc. unfold GenerateConfig.parse_line. now rewrite (trim_space s c Hc).
Qed.

Lemma split_lines_single (a : string) :
  GenerateConfig.index_of GenerateConfig.LF a = None ->
  GenerateConfig.split_lines a = [a].
Proof.
  induction a as [|c a IH]; [reflexivity|]. cbn.
  destruct (c =? GenerateConfig.LF)%char; [discriminate|].
  destruct (GenerateConfig.index_of GenerateConfig.LF a) eqn:I; [discriminate|].
  intros _. rewrite (IH eq_refl).
  destruct ((c =? GenerateConfig.CR)%char && GenerateConfig.starts_with GenerateConfig.LF a)
    eqn:E; [|reflexivity].
  apply andb_true_iff in E as [_ E]. destruct a as [|x a]; [discriminate|].
  cbn in E, I. now rewrite E in I.
Qed.

Lemma split_lines_cons (a b : string) :
  GenerateConfig.index_of GenerateConfig.LF a = None ->
  exists line,
    GenerateConfig.split_lines (String.append a (String GenerateConfig.LF b))
    = line :: GenerateConfig.split_lines b
    /\ (a = line \/ a = String.append line (String GenerateConfig.CR "")).
Proof.
  induction a as [|c a IH]; cbn.
  - intros _. exists "". auto.
  - destruct (c =? GenerateConfig.LF)%char eqn:Ec; [discriminate|].
    destruct (GenerateConfig.index_of GenerateConfig.LF a) eqn:I; [discriminate|].
    intros _. destruct (IH eq_refl) as (line & S & Hl).
    destruct ((c =? GenerateConfig.CR)%char
              && GenerateConfig.starts_with GenerateConfig.LF
                   (String.append a (String GenerateConfig.LF b))) eqn:E.
    + apply andb_true_iff in E as [Ecr E]. apply Ascii.eqb_eq in Ecr. subst c.
      destruct a as [|x a].
      * cbn in S. injection S as <-. exists "". split; [reflexivity|now right].
      * cbn in E, I. now rewrite E in I.
    + rewrite S. exists (String c line). split; [reflexivity|].
      destruct Hl as [-> | ->]; [now left|now right].
Qed.

(** X29. A dotenv file is read line by line.  A file that does not exist
    assigns nothing.  A text without line feed is read as one line.  A
    text whose first line feed comes after [a] is read as the line [a]
    followed by the rest of the text, whether the line ends with LF or
    with CR LF; the carriage return assigns nothing and changes nothing. *)
Theorem dotenv_is_read_line_by_line (a b : string) :
  GenerateConfig.index_of GenerateConfig.LF a = None ->
  GenerateConfig.parseDotEnv None = []
  /\ GenerateConfig.parseDotEnv (Some a) = GenerateConfig.assignments [a]
  /\ GenerateConfig.parseDotEnv (Some (String.append a (String GenerateConfig.LF b)))
     = GenerateConfig.assignments [a] ++ GenerateConfig.parseDotEnv (Some b)
  /\ GenerateConfig.parseDotEnv
       (Some (String.append a (String GenerateConfig.CR (String GenerateConfig.LF b))))
     = GenerateConfig.assignments [a] ++ GenerateConfig.parseDotEnv (Some b).
Proof.
  intros Ha.
  assert (Hcons : forall a', GenerateConfig.index_of GenerateConfig.LF a' = None ->
             GenerateConfig.parseDotEnv
               (Some (String.append a' (String GenerateConfig.LF b)))
             = GenerateConfig.assignments [a'] ++ GenerateConfig.parseDotEnv (Some b)).
  { intros a' Ha'. cbn [GenerateConfig.parseDotEnv].
    destruct (split_lines_cons a' b Ha') as (line & -> & Hl).
    change (line :: GenerateConfig.split_lines b)
      with ([line] ++ GenerateConfig.split_lines b).
    rewrite assignments_app. f_equal.
    destruct Hl as [-> | ->]; [reflexivity|].
    unfold GenerateConfig.assignments. cbn [flat_map].
    now rewrite parse_line_space. }
  split; [reflexivity|]. split; [|split].
  - cbn [GenerateConfig.parseDotEnv]. now rewrite split_lines_single.
  - now apply Hcons.
  - assert (E : String.append a (String GenerateConfig.CR (String GenerateConfig.LF b))
                = String.append (String.append a (String GenerateConfig.CR ""))
                    (String GenerateConfig.LF b)).
    { clear. induction a as [|c a IH]; [reflexivity|]. cbn. now rewrite IH. }
    rewrite E, Hcons.
    + f_equal. unfold GenerateConfig.assignments. cbn [flat_map].
      now rewrite parse_line_space.
    + clear -Ha. induction a as [|c a IH]; [reflexivity|]. cbn in *.
      destruct (c =? GenerateConfig.LF)%char; [discriminate|].
      destruct (GenerateConfig.index_of GenerateConfig.LF a); [discriminate|].
      now rewrite IH.
Qed.

Lemma dotenv_is_read_line_by_line_witness :
  GenerateConfig.parseDotEnv
    (Some (String.append "# keys"
             (String GenerateConfig.CR
                (String GenerateConfig.LF "NEXT_PUBLIC_META_PIXEL_ID = 123"))))
  = [("NEXT_PUBLIC_META_PIXEL_ID", "123")].
Proof.
  destruct (dotenv_is_read_line_by_line "# keys" "NEXT_PUBLIC_META_PIXEL_ID = 123")
    as (_ & _ & _ & H); [reflexivity|].
  rewrite H. reflexivity.
Defined.
